(** * ESPHome native API server (esphome_api.c): shallow embedding

    Machine integers are [Z] with the wrap-around of their C type written
    out ([u16], [u32], [u64]); a byte is a [Z] in [0, 256).  C arrays are
    lists of their declared length, updated in place with stdpp's list
    insert.  A C string is a [string] (the characters before the NUL).
    Socket and thread effects are recorded in a trace of [event]s; [printf]
    logging is not part of the model.  Each function is embedded as the
    sequential code it is: the interleavings of the listener, flush and
    client threads are not modelled, and the mutexes therefore do not
    appear.  Allocation does not fail. *)

From stdpp Require Import base list numbers strings.
From Stdlib Require Import ZArith Lia.

Open Scope Z_scope.

(** ** Constants (esphome_api.c, esphome_api.h, esphome_proto.h) *)

Definition RECV_BUFFER_SIZE : Z := 4096.
Definition SEND_BUFFER_SIZE : Z := 8192.
Definition BATCH_FLUSH_INTERVAL_MS : Z := 100.
Definition ESPHOME_MAX_CLIENTS : Z := 2.

Definition ESPHOME_MSG_HELLO_REQUEST : Z := 1.
Definition ESPHOME_MSG_HELLO_RESPONSE : Z := 2.
Definition ESPHOME_MSG_CONNECT_REQUEST : Z := 3.
Definition ESPHOME_MSG_CONNECT_RESPONSE : Z := 4.
Definition ESPHOME_MSG_DISCONNECT_REQUEST : Z := 5.
Definition ESPHOME_MSG_DISCONNECT_RESPONSE : Z := 6.
Definition ESPHOME_MSG_PING_REQUEST : Z := 7.
Definition ESPHOME_MSG_PING_RESPONSE : Z := 8.
Definition ESPHOME_MSG_DEVICE_INFO_REQUEST : Z := 9.
Definition ESPHOME_MSG_DEVICE_INFO_RESPONSE : Z := 10.
Definition ESPHOME_MSG_LIST_ENTITIES_REQUEST : Z := 11.
Definition ESPHOME_MSG_LIST_ENTITIES_DONE_RESPONSE : Z := 19.
Definition ESPHOME_MSG_SUBSCRIBE_STATES_REQUEST : Z := 20.
Definition ESPHOME_MSG_SUBSCRIBE_HOMEASSISTANT_SERVICES_REQUEST : Z := 34.
Definition ESPHOME_MSG_SUBSCRIBE_HOMEASSISTANT_STATES_REQUEST : Z := 38.
Definition ESPHOME_MSG_SUBSCRIBE_BLUETOOTH_LE_ADVERTISEMENTS_REQUEST : Z := 66.
Definition ESPHOME_MSG_BLUETOOTH_LE_RAW_ADVERTISEMENTS_RESPONSE : Z := 93.

Definition ESPHOME_MAX_STRING_LEN : Z := 128.
Definition ESPHOME_MAX_ADV_DATA : Z := 62.
Definition ESPHOME_MAX_ADV_BATCH : Z := 16.
Definition ESPHOME_MAX_MESSAGE_SIZE : Z := 4096.

Definition BLE_FEATURE_PASSIVE_SCAN : Z := Z.shiftl 1 0.
Definition BLE_FEATURE_RAW_ADVERTISEMENTS : Z := Z.shiftl 1 5.

(** ** Machine integers *)

Definition u8 (z : Z) : Z := z mod 2 ^ 8.
Definition u16 (z : Z) : Z := z mod 2 ^ 16.
Definition u32 (z : Z) : Z := z mod 2 ^ 32.
Definition u64 (z : Z) : Z := z mod 2 ^ 64.

Definition is_byte (b : Z) : Prop := 0 <= b < 256.

(** [a[i]] for an array held as a list; reading outside the list gives 0
    (the C code never does so on the inputs the theorems quantify over). *)
Definition idx {A} `{Inhabited A} (a : list A) (i : Z) : A := a !!! Z.to_nat i.

(** [memcpy(dst, src, n)] on arrays: the first [n] cells of [dst] are
    overwritten, the rest keep their old contents. *)
Definition memcpy (dst src : list Z) (n : Z) : list Z :=
  take (Z.to_nat n) src ++ drop (Z.to_nat n) dst.

(** [strncpy(dst, src, n)] into a zeroed [dst]: the C string that results. *)
Definition strncpy (src : string) (n : Z) : string :=
  String.substring 0 (Z.to_nat n) src.

(** [snprintf(dst, size, ...)] where the format expands to [text]: the C
    string that results, at most [size - 1] characters. *)
Definition snprintf (size : Z) (text : string) : string :=
  String.substring 0 (Z.to_nat (size - 1)) text.

(** ** Data structures *)

(** [esphome_device_config_t] *)
Record esphome_device_config_t := {
  device_name : string;
  mac_address : string;
  esphome_version : string;
  model : string;
  manufacturer : string;
  friendly_name : string;
  suggested_area : string
}.

(** [esphome_ble_advert_t]: what the scanner hands to the server. *)
Record esphome_ble_advert_t := {
  advert_address : list Z;        (* uint8_t address[6] *)
  advert_address_type : Z;        (* uint8_t *)
  advert_rssi : Z;                (* int8_t *)
  advert_data : list Z;           (* uint8_t data[62] *)
  advert_data_len : Z             (* size_t *)
}.

(** [esphome_ble_advertisement_t]: one slot of the batch. *)
Record esphome_ble_advertisement_t := {
  pb_address : Z;                 (* uint64_t *)
  pb_rssi : Z;                    (* int32_t *)
  pb_address_type : Z;            (* uint32_t *)
  pb_data : list Z;               (* uint8_t data[ESPHOME_MAX_ADV_DATA] *)
  pb_data_len : Z                 (* size_t *)
}.

(** [esphome_ble_advertisements_response_t] *)
Record esphome_ble_advertisements_response_t := {
  advertisements : list esphome_ble_advertisement_t;   (* [ESPHOME_MAX_ADV_BATCH] *)
  count : Z
}.

Record esphome_hello_response_t := {
  api_version_major : Z;
  api_version_minor : Z;
  server_info : string;
  hello_name : string
}.

Record esphome_connect_response_t := {
  invalid_password : bool
}.

Record esphome_device_info_response_t := {
  uses_password : bool;
  di_name : string;
  di_mac_address : string;
  di_esphome_version : string;
  compilation_time : string;
  di_model : string;
  di_manufacturer : string;
  di_friendly_name : string;
  has_deep_sleep : bool;
  di_suggested_area : string;
  bluetooth_proxy_feature_flags : Z;
  bluetooth_mac_address : string
}.

Record esphome_subscribe_ble_advertisements_t := {
  flags : Z
}.

(** [client_connection_t]; the mutex and the thread handle carry no data,
    and the back pointer [server] is the server the client is a slot of. *)
Record client_connection_t := {
  fd : Z;
  authenticated : bool;
  subscribed_ble : bool;
  recv_buffer : list Z;           (* uint8_t recv_buffer[RECV_BUFFER_SIZE] *)
  recv_pos : Z;
  thread_running : bool
}.

(** [struct timespec] *)
Record timespec := {
  tv_sec : Z;
  tv_nsec : Z
}.

(** [struct esphome_api_server] *)
Record esphome_api_server := {
  config : esphome_device_config_t;
  listen_fd : Z;
  running : bool;
  clients : list client_connection_t;     (* [ESPHOME_MAX_CLIENTS] *)
  ble_batch : esphome_ble_advertisements_response_t;
  last_flush : timespec
}.

#[export] Instance esphome_ble_advertisement_inhabited : Inhabited esphome_ble_advertisement_t :=
  populate {| pb_address := 0; pb_rssi := 0; pb_address_type := 0;
              pb_data := []; pb_data_len := 0 |}.

#[export] Instance client_connection_inhabited : Inhabited client_connection_t :=
  populate {| fd := -1; authenticated := false; subscribed_ble := false;
              recv_buffer := []; recv_pos := 0; thread_running := false |}.

(** Field updates, one per assignment form the C code uses. *)

Definition set_fd (v : Z) (c : client_connection_t) : client_connection_t :=
  {| fd := v; authenticated := authenticated c; subscribed_ble := subscribed_ble c;
     recv_buffer := recv_buffer c; recv_pos := recv_pos c;
     thread_running := thread_running c |}.

Definition set_authenticated (v : bool) (c : client_connection_t) : client_connection_t :=
  {| fd := fd c; authenticated := v; subscribed_ble := subscribed_ble c;
     recv_buffer := recv_buffer c; recv_pos := recv_pos c;
     thread_running := thread_running c |}.

Definition set_subscribed_ble (v : bool) (c : client_connection_t) : client_connection_t :=
  {| fd := fd c; authenticated := authenticated c; subscribed_ble := v;
     recv_buffer := recv_buffer c; recv_pos := recv_pos c;
     thread_running := thread_running c |}.

Definition set_recv (buf : list Z) (pos : Z) (c : client_connection_t) : client_connection_t :=
  {| fd := fd c; authenticated := authenticated c; subscribed_ble := subscribed_ble c;
     recv_buffer := buf; recv_pos := pos;
     thread_running := thread_running c |}.

Definition set_thread_running (v : bool) (c : client_connection_t) : client_connection_t :=
  {| fd := fd c; authenticated := authenticated c; subscribed_ble := subscribed_ble c;
     recv_buffer := recv_buffer c; recv_pos := recv_pos c;
     thread_running := v |}.

Definition set_listen_fd (v : Z) (s : esphome_api_server) : esphome_api_server :=
  {| config := config s; listen_fd := v; running := running s; clients := clients s;
     ble_batch := ble_batch s; last_flush := last_flush s |}.

Definition set_running (v : bool) (s : esphome_api_server) : esphome_api_server :=
  {| config := config s; listen_fd := listen_fd s; running := v; clients := clients s;
     ble_batch := ble_batch s; last_flush := last_flush s |}.

Definition set_clients (v : list client_connection_t) (s : esphome_api_server) : esphome_api_server :=
  {| config := config s; listen_fd := listen_fd s; running := running s; clients := v;
     ble_batch := ble_batch s; last_flush := last_flush s |}.

Definition set_ble_batch (v : esphome_ble_advertisements_response_t) (s : esphome_api_server)
  : esphome_api_server :=
  {| config := config s; listen_fd := listen_fd s; running := running s; clients := clients s;
     ble_batch := v; last_flush := last_flush s |}.

Definition set_last_flush (v : timespec) (s : esphome_api_server) : esphome_api_server :=
  {| config := config s; listen_fd := listen_fd s; running := running s; clients := clients s;
     ble_batch := ble_batch s; last_flush := v |}.

Definition set_count (v : Z) (b : esphome_ble_advertisements_response_t)
  : esphome_ble_advertisements_response_t :=
  {| advertisements := advertisements b; count := v |}.

(** ** Observable effects *)

Inductive event :=
| EvSend (sock : Z) (frame : list Z) (sent : Z)   (* send(fd, send_buf, frame_len, MSG_NOSIGNAL) = sent *)
| EvClose (sock : Z)                              (* close(fd) *)
| EvShutdown (sock : Z)                           (* shutdown(fd, SHUT_RDWR) *)
| EvSetsockopt (sock : Z)                         (* setsockopt(fd, IPPROTO_TCP, TCP_NODELAY) *)
| EvDispatch (msg_type : Z) (payload : list Z)    (* dispatch_message entered *)
| EvThreadCreate (slot : nat)                     (* pthread_create(client_thread_func) succeeded *)
| EvJoinListen                                    (* pthread_join(listen_thread) *)
| EvJoinFlush                                     (* pthread_join(flush_thread) *)
| EvJoinClient (slot : nat)                       (* pthread_join(clients[slot].thread) *)
| EvFree.                                         (* free(server) *)

Definition trace := list event.

(** The (message type, payload) pairs handed to [dispatch_message]. *)
Definition dispatched (tr : trace) : list (Z * list Z) :=
  omap (fun e => match e with EvDispatch t p => Some (t, p) | _ => None end) tr.

(** The frames a trace tried to send, with the socket of each. *)
Definition sends (tr : trace) : list (Z * list Z) :=
  omap (fun e => match e with EvSend s f _ => Some (s, f) | _ => None end) tr.

(** ** Utility functions *)

(** [mac_to_uint64]: the loop [for (i = 0; i < 6; i++)
    result |= ((uint64_t)mac[i]) << ((5 - i) * 8)]. *)
Definition mac_to_uint64 (mac : list Z) : Z :=
  foldl (fun result i => Z.lor result (u64 (Z.shiftl (u64 (idx mac i)) ((5 - i) * 8))))
        0 (seqZ 0 6).

(** ** Client management *)

(** [client_init]: the slot zeroed, then [fd = -1]. *)
Definition client_init : client_connection_t :=
  {| fd := -1; authenticated := false; subscribed_ble := false;
     recv_buffer := replicate (Z.to_nat RECV_BUFFER_SIZE) 0; recv_pos := 0;
     thread_running := false |}.

(** [client_close] *)
Definition client_close (client : client_connection_t) : client_connection_t * trace :=
  let '(client, tr) :=
    if 0 <=? fd client then (set_fd (-1) client, [EvClose (fd client)])
    else (client, []) in
  let client := set_authenticated false client in
  let client := set_subscribed_ble false client in
  let client := set_recv (recv_buffer client) 0 client in
  (client, tr).

(** [client_cleanup]: [client_close], and the mutex is destroyed. *)
Definition client_cleanup (client : client_connection_t) : client_connection_t * trace :=
  client_close client.

(** ** What esphome_api.c calls but does not define *)

(** The functions of esphome_proto.c, which esphome_api.c uses through the
    declarations of esphome_proto.h.  An encoder that fills a caller's
    buffer of [size] bytes and returns the length written is a function to
    the bytes written, the empty list for the return value 0.  The frame
    header decoder gets the [size] readable bytes and returns
    [(header_len, msg_len, msg_type)], with [header_len = 0] for failure. *)
Class EsphomeProto := {
  esphome_frame_message : Z -> Z -> list Z -> list Z;
  esphome_decode_frame_header : list Z -> Z * Z * Z;
  esphome_encode_hello_response : Z -> esphome_hello_response_t -> list Z;
  esphome_encode_connect_response : Z -> esphome_connect_response_t -> list Z;
  esphome_encode_device_info_response : Z -> esphome_device_info_response_t -> list Z;
  esphome_encode_ble_advertisements : Z -> esphome_ble_advertisements_response_t -> list Z;
  esphome_decode_subscribe_ble_advertisements :
    list Z -> option esphome_subscribe_ble_advertisements_t
}.

(** The platform: what [send] returns for a socket and a buffer, and the
    compiler's [__DATE__ " " __TIME__]. *)
Class Platform := {
  send : Z -> list Z -> Z;
  build_date_time : string
}.

Section Server.
Context {proto : EsphomeProto} {platform : Platform}.

(** ** Message sending *)

Definition send_message (client : client_connection_t) (msg_type : Z) (payload : list Z)
  : Z * trace :=
  let send_buf := esphome_frame_message SEND_BUFFER_SIZE msg_type payload in
  let frame_len := Z.of_nat (length send_buf) in
  if frame_len =? 0 then (-1, [])
  else
    let sent := send (fd client) send_buf in
    let tr := [EvSend (fd client) send_buf sent] in
    if sent <? 0 then (-1, tr)
    else if negb (sent =? frame_len) then (-1, tr)
    else (0, tr).

(** ** Message handlers

    A handler gets the server (it reads [server->config] only), the client
    it may change, and the payload; it returns the client and its trace. *)

Definition handle_hello_request (server : esphome_api_server) (client : client_connection_t)
    (payload : list Z) : client_connection_t * trace :=
  let response :=
    {| api_version_major := 1;
       api_version_minor := 12;
       server_info :=
         snprintf ESPHOME_MAX_STRING_LEN
           (String.append (device_name (config server)) " (Thingino BLE Proxy v1.0)");
       hello_name := strncpy (device_name (config server)) (ESPHOME_MAX_STRING_LEN - 1) |} in
  let encode_buf := esphome_encode_hello_response 512 response in
  if 0 <? Z.of_nat (length encode_buf)
  then (client, (send_message client ESPHOME_MSG_HELLO_RESPONSE encode_buf).2)
  else (client, []).

Definition handle_connect_request (server : esphome_api_server) (client : client_connection_t)
    (payload : list Z) : client_connection_t * trace :=
  let response := {| invalid_password := false |} in
  let client := set_authenticated true client in
  let encode_buf := esphome_encode_connect_response 32 response in
  if 0 <? Z.of_nat (length encode_buf)
  then (client, (send_message client ESPHOME_MSG_CONNECT_RESPONSE encode_buf).2)
  else (client, []).

Definition handle_device_info_request (server : esphome_api_server)
    (client : client_connection_t) (payload : list Z) : client_connection_t * trace :=
  let cfg := config server in
  let response :=
    {| uses_password := false;
       di_name := strncpy (device_name cfg) (ESPHOME_MAX_STRING_LEN - 1);
       di_mac_address := strncpy (mac_address cfg) (24 - 1);
       di_esphome_version := strncpy (esphome_version cfg) (32 - 1);
       compilation_time := strncpy build_date_time (64 - 1);
       di_model := strncpy (model cfg) (ESPHOME_MAX_STRING_LEN - 1);
       di_manufacturer := strncpy (manufacturer cfg) (ESPHOME_MAX_STRING_LEN - 1);
       di_friendly_name := strncpy (friendly_name cfg) (ESPHOME_MAX_STRING_LEN - 1);
       has_deep_sleep := false;
       di_suggested_area := strncpy (suggested_area cfg) (64 - 1);
       bluetooth_proxy_feature_flags :=
         Z.lor BLE_FEATURE_PASSIVE_SCAN BLE_FEATURE_RAW_ADVERTISEMENTS;
       bluetooth_mac_address := strncpy (mac_address cfg) (24 - 1) |} in
  let encode_buf := esphome_encode_device_info_response 1024 response in
  if 0 <? Z.of_nat (length encode_buf)
  then (client, (send_message client ESPHOME_MSG_DEVICE_INFO_RESPONSE encode_buf).2)
  else (client, []).

Definition handle_list_entities_request (server : esphome_api_server)
    (client : client_connection_t) (payload : list Z) : client_connection_t * trace :=
  (client, (send_message client ESPHOME_MSG_LIST_ENTITIES_DONE_RESPONSE []).2).

Definition handle_subscribe_states_request (server : esphome_api_server)
    (client : client_connection_t) (payload : list Z) : client_connection_t * trace :=
  (client, []).

Definition handle_subscribe_ble_advertisements (server : esphome_api_server)
    (client : client_connection_t) (payload : list Z) : client_connection_t * trace :=
  match esphome_decode_subscribe_ble_advertisements payload with
  | Some request => (set_subscribed_ble true client, [])
  | None => (client, [])
  end.

Definition handle_ping_request (server : esphome_api_server) (client : client_connection_t)
    (payload : list Z) : client_connection_t * trace :=
  (client, (send_message client ESPHOME_MSG_PING_RESPONSE []).2).

Definition handle_subscribe_homeassistant_services (server : esphome_api_server)
    (client : client_connection_t) (payload : list Z) : client_connection_t * trace :=
  (client, []).

Definition handle_subscribe_homeassistant_states (server : esphome_api_server)
    (client : client_connection_t) (payload : list Z) : client_connection_t * trace :=
  (client, []).

(** The arms of the [switch] in [dispatch_message]. *)
Inductive handler :=
| HHello | HConnect | HDeviceInfo | HListEntities | HSubscribeStates
| HSubscribeBle | HSubscribeHaServices | HSubscribeHaStates | HPing
| HDisconnect | HUnhandled.

Definition select_handler (msg_type : Z) : handler :=
  if msg_type =? ESPHOME_MSG_HELLO_REQUEST then HHello
  else if msg_type =? ESPHOME_MSG_CONNECT_REQUEST then HConnect
  else if msg_type =? ESPHOME_MSG_DEVICE_INFO_REQUEST then HDeviceInfo
  else if msg_type =? ESPHOME_MSG_LIST_ENTITIES_REQUEST then HListEntities
  else if msg_type =? ESPHOME_MSG_SUBSCRIBE_STATES_REQUEST then HSubscribeStates
  else if msg_type =? ESPHOME_MSG_SUBSCRIBE_BLUETOOTH_LE_ADVERTISEMENTS_REQUEST then HSubscribeBle
  else if msg_type =? ESPHOME_MSG_SUBSCRIBE_HOMEASSISTANT_SERVICES_REQUEST
       then HSubscribeHaServices
  else if msg_type =? ESPHOME_MSG_SUBSCRIBE_HOMEASSISTANT_STATES_REQUEST
       then HSubscribeHaStates
  else if msg_type =? ESPHOME_MSG_PING_REQUEST then HPing
  else if msg_type =? ESPHOME_MSG_DISCONNECT_REQUEST then HDisconnect
  else HUnhandled.

Definition run_handler (h : handler) (server : esphome_api_server)
    (client : client_connection_t) (payload : list Z) : client_connection_t * trace :=
  match h with
  | HHello => handle_hello_request server client payload
  | HConnect => handle_connect_request server client payload
  | HDeviceInfo => handle_device_info_request server client payload
  | HListEntities => handle_list_entities_request server client payload
  | HSubscribeStates => handle_subscribe_states_request server client payload
  | HSubscribeBle => handle_subscribe_ble_advertisements server client payload
  | HSubscribeHaServices => handle_subscribe_homeassistant_services server client payload
  | HSubscribeHaStates => handle_subscribe_homeassistant_states server client payload
  | HPing => handle_ping_request server client payload
  | HDisconnect => (client, [])
  | HUnhandled => (client, [])
  end.

Definition dispatch_message (server : esphome_api_server) (client : client_connection_t)
    (msg_type : Z) (payload : list Z) : client_connection_t * trace :=
  let '(client, tr) := run_handler (select_handler msg_type) server client payload in
  (client, EvDispatch msg_type payload :: tr).

(** ** Client handling *)

(** [handle_client_data]: the [while (client->recv_pos > 0)] loop.  The C
    loop has no bound of its own, so the model takes [fuel] and returns
    [None] when it runs out. *)
Fixpoint handle_client_data (fuel : nat) (server : esphome_api_server)
    (client : client_connection_t) {struct fuel} : option (client_connection_t * trace) :=
  if negb (0 <? recv_pos client) then Some (client, [])
  else
    match fuel with
    | O => None
    | S fuel =>
      let '(header_len, msg_len, msg_type) :=
        esphome_decode_frame_header
          (take (Z.to_nat (recv_pos client)) (recv_buffer client)) in
      let msg_len := u32 msg_len in
      let msg_type := u16 msg_type in
      if header_len =? 0 then Some (client, [])
      else
        let total_len := u32 (header_len + msg_len) in
        if recv_pos client <? total_len then Some (client, [])
        else
          let payload :=
            take (Z.to_nat msg_len) (drop (Z.to_nat header_len) (recv_buffer client)) in
          let '(client, tr) := dispatch_message server client msg_type payload in
          let client :=
            set_recv (memcpy (recv_buffer client)
                             (drop (Z.to_nat total_len) (recv_buffer client))
                             (recv_pos client - total_len))
                     (recv_pos client - total_len) client in
          match handle_client_data fuel server client with
          | Some (client, tr') => Some (client, tr ++ tr')
          | None => None
          end
    end.

(** What one [recv] call returns: the bytes the socket has for it, of
    which the call takes at most the room it offered ([RecvData []] is the
    orderly shutdown, return value 0), or the failure -1. *)
Inductive recv_result :=
| RecvData (data : list Z)
| RecvError.

(** [recv] has written [data] at [recv_buffer + recv_pos], and
    [client->recv_pos += received]. *)
Definition recv_store (client : client_connection_t) (data : list Z)
  : client_connection_t :=
  let received := Z.of_nat (length data) in
  set_recv (take (Z.to_nat (recv_pos client)) (recv_buffer client) ++
            memcpy (drop (Z.to_nat (recv_pos client)) (recv_buffer client))
                   data received)
           (recv_pos client + received) client.

(** The receive loop of [client_thread_func] over the results of its
    successive [recv] calls.  The boolean says whether the loop was left
    ([true]) or is waiting in a [recv] the script has no result for. *)
Fixpoint client_thread_loop (fuel : nat) (script : list recv_result)
    (server : esphome_api_server) (client : client_connection_t)
    : option (client_connection_t * trace * bool) :=
  if negb (running server && (0 <=? fd client)) then Some (client, [], true)
  else
    match script with
    | [] => Some (client, [], false)
    | RecvError :: _ => Some (client, [], true)
    | RecvData data :: script =>
      let room := RECV_BUFFER_SIZE - recv_pos client in
      let data := take (Z.to_nat room) data in
      let received := Z.of_nat (length data) in
      if received <=? 0 then Some (client, [], true)
      else
        let client := recv_store client data in
        match handle_client_data fuel server client with
        | None => None
        | Some (client, tr) =>
          match client_thread_loop fuel script server client with
          | None => None
          | Some (client, tr', exited) => Some (client, tr ++ tr', exited)
          end
        end
    end.

(** [client_thread_func] for the client in [slot]: the loop, then the
    cleanup once the loop is left. *)
Definition client_thread_func (fuel : nat) (script : list recv_result)
    (server : esphome_api_server) (slot : nat) : option (esphome_api_server * trace * bool) :=
  match client_thread_loop fuel script server (clients server !!! slot) with
  | None => None
  | Some (client, tr, false) =>
    Some (set_clients (<[slot := client]> (clients server)) server, tr, false)
  | Some (client, tr, true) =>
    let '(client, tr') := client_close client in
    let client := set_thread_running false client in
    Some (set_clients (<[slot := client]> (clients server)) server, tr ++ tr', true)
  end.

(** ** BLE advertisement batching *)

(** [flush_ble_batch]; [now] is what [clock_gettime(CLOCK_MONOTONIC)]
    reads. *)
Definition flush_ble_batch (now : timespec) (server : esphome_api_server)
  : esphome_api_server * trace :=
  if count (ble_batch server) =? 0 then (server, [])
  else
    let encode_buf :=
      esphome_encode_ble_advertisements ESPHOME_MAX_MESSAGE_SIZE (ble_batch server) in
    let len := Z.of_nat (length encode_buf) in
    if len =? 0 then (set_ble_batch (set_count 0 (ble_batch server)) server, [])
    else
      let tr :=
        foldl (fun tr i =>
                 let client : client_connection_t := idx (clients server) i in
                 if (0 <=? fd client) && subscribed_ble client
                 then tr ++ (send_message client
                               ESPHOME_MSG_BLUETOOTH_LE_RAW_ADVERTISEMENTS_RESPONSE
                               encode_buf).2
                 else tr)
              [] (seqZ 0 ESPHOME_MAX_CLIENTS) in
      let server := set_ble_batch (set_count 0 (ble_batch server)) server in
      (set_last_flush now server, tr).

(** ** TCP server *)

(** The slot search of [listen_thread_func]:
    [for (i = 0; i < ESPHOME_MAX_CLIENTS; i++) if (clients[i].fd < 0) ...]. *)
Fixpoint find_free_slot (client_fd : Z) (server : esphome_api_server) (i : nat) (n : nat)
    : esphome_api_server * Z :=
  match n with
  | O => (server, -1)
  | S n =>
    let client : client_connection_t := clients server !!! i in
    if fd client <? 0
    then (set_clients (<[i := set_fd client_fd client]> (clients server)) server, Z.of_nat i)
    else find_free_slot client_fd server (S i) n
  end.

(** One turn of the [while (server->running)] loop of [listen_thread_func]:
    [client_fd] is what [accept] returned, [thread_ok] whether
    [pthread_create] succeeds. *)
Definition listen_thread_func (client_fd : Z) (thread_ok : bool)
    (server : esphome_api_server) : esphome_api_server * trace :=
  if client_fd <? 0 then (server, [])
  else
    let '(server, slot) :=
      find_free_slot client_fd server 0 (Z.to_nat ESPHOME_MAX_CLIENTS) in
    if slot <? 0 then (server, [EvSetsockopt client_fd; EvClose client_fd])
    else
      let i := Z.to_nat slot in
      let client := set_thread_running true (clients server !!! i) in
      if thread_ok
      then (set_clients (<[i := client]> (clients server)) server,
            [EvSetsockopt client_fd; EvThreadCreate i])
      else
        let '(client, tr) := client_close client in
        (set_clients (<[i := client]> (clients server)) server,
         EvSetsockopt client_fd :: tr).

(** ** Public API *)

Definition esphome_api_init (cfg : esphome_device_config_t) (now : timespec)
  : esphome_api_server :=
  {| config := cfg;
     listen_fd := -1;
     running := false;
     clients := replicate (Z.to_nat ESPHOME_MAX_CLIENTS) client_init;
     ble_batch :=
       {| advertisements :=
            replicate (Z.to_nat ESPHOME_MAX_ADV_BATCH)
              {| pb_address := 0; pb_rssi := 0; pb_address_type := 0;
                 pb_data := replicate (Z.to_nat ESPHOME_MAX_ADV_DATA) 0;
                 pb_data_len := 0 |};
          count := 0 |};
     last_flush := now |}.

(** [client_close] on every slot, as the closing loops of
    [esphome_api_stop] and [esphome_api_free] do. *)
Definition close_all_clients (server : esphome_api_server) : esphome_api_server * trace :=
  foldl (fun '(server, tr) i =>
           let '(client, tr') := client_close (idx (clients server) i) in
           (set_clients (<[Z.to_nat i := client]> (clients server)) server, tr ++ tr'))
        (server, []) (seqZ 0 ESPHOME_MAX_CLIENTS).

(** [esphome_api_stop]; a NULL server is [None].  Joining a thread is an
    event; what the joined thread itself did is not part of this call. *)
Definition esphome_api_stop (server : option esphome_api_server)
  : option esphome_api_server * trace :=
  match server with
  | None => (None, [])
  | Some server =>
    let server := set_running false server in
    let '(server, tr1) :=
      if 0 <=? listen_fd server
      then (set_listen_fd (-1) server,
            [EvShutdown (listen_fd server); EvClose (listen_fd server)])
      else (server, []) in
    let tr2 := [EvJoinListen; EvJoinFlush] in
    let tr3 :=
      foldl (fun tr i =>
               if thread_running (idx (clients server) i)
               then tr ++ [EvJoinClient (Z.to_nat i)] else tr)
            [] (seqZ 0 ESPHOME_MAX_CLIENTS) in
    let '(server, tr4) := close_all_clients server in
    (Some server, tr1 ++ tr2 ++ tr3 ++ tr4)
  end.

(** [esphome_api_free]; the server is gone afterwards. *)
Definition esphome_api_free (server : option esphome_api_server)
  : option esphome_api_server * trace :=
  match server with
  | None => (None, [])
  | Some server =>
    let '(server, tr) := close_all_clients server in
    (None, tr ++ [EvFree])
  end.

(** Lines 768-780 of [esphome_api_queue_ble_advert]: the slot [*pb_adv]
    after the advertisement has been converted into it.  [int8_t] to
    [int32_t] and [uint8_t] to [uint32_t] keep the value. *)
Definition fill_advertisement (pb_adv : esphome_ble_advertisement_t)
    (advert : esphome_ble_advert_t) : esphome_ble_advertisement_t :=
  let copy_len := advert_data_len advert in
  let copy_len :=
    if ESPHOME_MAX_ADV_DATA <? copy_len then ESPHOME_MAX_ADV_DATA else copy_len in
  {| pb_address := mac_to_uint64 (advert_address advert);
     pb_rssi := advert_rssi advert;
     pb_address_type := advert_address_type advert;
     pb_data := memcpy (pb_data pb_adv) (advert_data advert) copy_len;
     pb_data_len := copy_len |}.

(** Lines 767-782 of [esphome_api_queue_ble_advert]: convert the
    advertisement into the slot [advertisements[count]] and count it. *)
Definition store_advert (advert : esphome_ble_advert_t)
    (batch : esphome_ble_advertisements_response_t)
  : esphome_ble_advertisements_response_t :=
  let i := Z.to_nat (count batch) in
  let pb_adv := fill_advertisement (advertisements batch !!! i) advert in
  {| advertisements := <[i := pb_adv]> (advertisements batch);
     count := count batch + 1 |}.

(** [esphome_api_queue_ble_advert]; NULL pointers are [None]. *)
Definition esphome_api_queue_ble_advert (now : timespec)
    (server : option esphome_api_server) (advert : option esphome_ble_advert_t)
  : option esphome_api_server * trace :=
  match server, advert with
  | Some server, Some advert =>
    let '(server, tr1) :=
      if ESPHOME_MAX_ADV_BATCH <=? count (ble_batch server)
      then flush_ble_batch now server
      else (server, []) in
    let server := set_ble_batch (store_advert advert (ble_batch server)) server in
    let '(server, tr2) :=
      if ESPHOME_MAX_ADV_BATCH <=? count (ble_batch server)
      then flush_ble_batch now server
      else (server, []) in
    (Some server, tr1 ++ tr2)
  | _, _ => (server, [])
  end.

End Server.

(** ** The codec of esphome_proto.c, from the specification

    esphome_proto.c is not among the sources: esphome_proto.h declares its
    functions and the specification (sections 4.1 to 4.3 and 6) describes
    them.  The definitions of this module follow that description. *)
Module ProtoC.

(** Modelled from the spec: [pb_buffer_t] as a write cursor over a buffer of
    fixed capacity with a failure flag (section 4.1); [buf_data] is what has
    been written, the position is its length. *)
Record pb_buffer_t := {
  buf_data : list Z;
  buf_size : Z;
  buf_error : bool
}.

(** Modelled from the spec: [pb_buffer_init_write] (declared in
    esphome_proto.h; section 4.1). *)
Definition pb_buffer_init_write (size : Z) : pb_buffer_t :=
  {| buf_data := []; buf_size := size; buf_error := false |}.

(** Modelled from the spec: writing raw bytes at the cursor, the failure
    flag raised on overflow (section 4.1). *)
Definition pb_write (bytes : list Z) (buf : pb_buffer_t) : pb_buffer_t :=
  if buf_error buf then buf
  else if Z.of_nat (length (buf_data buf)) + Z.of_nat (length bytes) <=? buf_size buf
  then {| buf_data := buf_data buf ++ bytes; buf_size := buf_size buf; buf_error := false |}
  else {| buf_data := buf_data buf; buf_size := buf_size buf; buf_error := true |}.

(** Modelled from the spec: the value an encoder returns, the bytes
    written, or the "sentinel/zero-length result" on failure (sections 4.1
    and 4.2). *)
Definition pb_result (buf : pb_buffer_t) : list Z :=
  if buf_error buf then [] else buf_data buf.

(** Modelled from the spec: the groups of a varint, "little-endian base-128
    groups, continuation bit set on all but the last byte" (section 4.1);
    a 64-bit value has at most 10. *)
Fixpoint varint_groups (n : nat) (value : Z) : list Z :=
  match n with
  | O => []
  | S n =>
    if value <? 128 then [value]
    else Z.lor (Z.land value 127) 128 :: varint_groups n (Z.shiftr value 7)
  end.

(** Modelled from the spec: the varint of a [uint64_t] (section 4.1). *)
Definition varint_bytes (value : Z) : list Z := varint_groups 10 (u64 value).

(** Modelled from the spec: [pb_encode_varint] (section 4.1). *)
Definition pb_encode_varint (value : Z) (buf : pb_buffer_t) : pb_buffer_t :=
  pb_write (varint_bytes value) buf.

(** Modelled from the spec: [pb_decode_varint], which "must reject input
    that would require more than 10 groups" and "fail cleanly ... when no
    terminating byte exists within the remaining buffer" (section 4.1).
    The result is the value, the number of bytes read and the rest. *)
Fixpoint decode_groups (n : nat) (shift acc : Z) (input : list Z)
    : option (Z * Z * list Z) :=
  match n with
  | O => None
  | S n =>
    match input with
    | [] => None
    | b :: rest =>
      let acc := u64 (Z.lor acc (Z.shiftl (Z.land b 127) shift)) in
      if Z.land b 128 =? 0 then Some (acc, 1, rest)
      else
        match decode_groups n (shift + 7) acc rest with
        | Some (v, k, rest) => Some (v, k + 1, rest)
        | None => None
        end
    end
  end.

Definition pb_decode_varint (input : list Z) : option (Z * Z * list Z) :=
  decode_groups 10 0 0 input.

(** [PB_FIELD_TAG] of esphome_proto.h. *)
Definition PB_FIELD_TAG (field_num wire_type : Z) : Z :=
  Z.lor (Z.shiftl field_num 3) wire_type.

Definition PB_WIRE_TYPE_VARINT : Z := 0.
Definition PB_WIRE_TYPE_64BIT : Z := 1.
Definition PB_WIRE_TYPE_LENGTH : Z := 2.
Definition PB_WIRE_TYPE_32BIT : Z := 5.

(** Modelled from the spec: the "raw bytes" of a string (section 4.1), the
    codes of its characters. *)
Definition string_bytes (s : string) : list Z :=
  map (fun a => Z.of_N (Ascii.N_of_ascii a)) (String.list_ascii_of_string s).

(** Modelled from the spec: [pb_encode_bytes], "tag + varint length + raw
    bytes" (section 4.1). *)
Definition pb_encode_bytes (field_num : Z) (bytes : list Z) (buf : pb_buffer_t)
  : pb_buffer_t :=
  pb_write bytes
    (pb_encode_varint (Z.of_nat (length bytes))
       (pb_encode_varint (PB_FIELD_TAG field_num PB_WIRE_TYPE_LENGTH) buf)).

(** Modelled from the spec: [pb_encode_string] (section 4.1). *)
Definition pb_encode_string (field_num : Z) (str : string) (buf : pb_buffer_t)
  : pb_buffer_t :=
  pb_encode_bytes field_num (string_bytes str) buf.

(** Modelled from the spec: [pb_encode_bool], "varint 0/1 under the varint
    wire type" (section 4.1). *)
Definition pb_encode_bool (field_num : Z) (value : bool) (buf : pb_buffer_t)
  : pb_buffer_t :=
  pb_encode_varint (if value then 1 else 0)
    (pb_encode_varint (PB_FIELD_TAG field_num PB_WIRE_TYPE_VARINT) buf).

(** Modelled from the spec: [pb_encode_uint64], "raw value as varint"
    (section 4.1). *)
Definition pb_encode_uint64 (field_num : Z) (value : Z) (buf : pb_buffer_t)
  : pb_buffer_t :=
  pb_encode_varint (u64 value)
    (pb_encode_varint (PB_FIELD_TAG field_num PB_WIRE_TYPE_VARINT) buf).

(** Modelled from the spec: [pb_encode_uint32] (section 4.1). *)
Definition pb_encode_uint32 (field_num : Z) (value : Z) (buf : pb_buffer_t)
  : pb_buffer_t :=
  pb_encode_varint (u32 value)
    (pb_encode_varint (PB_FIELD_TAG field_num PB_WIRE_TYPE_VARINT) buf).

(** Modelled from the spec: [pb_encode_sint32], "zigzag transform
    (n << 1) ^ (n >> 31) before varint encoding" (section 4.1). *)
Definition pb_encode_sint32 (field_num : Z) (value : Z) (buf : pb_buffer_t)
  : pb_buffer_t :=
  pb_encode_varint (u32 (Z.lxor (Z.shiftl value 1) (Z.shiftr value 31)))
    (pb_encode_varint (PB_FIELD_TAG field_num PB_WIRE_TYPE_VARINT) buf).

(** Modelled from the spec: [esphome_encode_hello_response]; section 4.3
    gives the fields api_version_major (u32, 1), api_version_minor (u32, 2),
    server_info and name, the strings numbered 3 and 4 as in the vendor
    protocol the section refers to. *)
Definition esphome_encode_hello_response (size : Z) (msg : esphome_hello_response_t)
  : list Z :=
  pb_result
    (pb_encode_string 4 (hello_name msg)
       (pb_encode_string 3 (server_info msg)
          (pb_encode_uint32 2 (api_version_minor msg)
             (pb_encode_uint32 1 (api_version_major msg)
                (pb_buffer_init_write size))))).

(** Modelled from the spec: [esphome_encode_connect_response]; one field,
    invalid_password (bool) (section 4.3). *)
Definition esphome_encode_connect_response (size : Z) (msg : esphome_connect_response_t)
  : list Z :=
  pb_result (pb_encode_bool 1 (invalid_password msg) (pb_buffer_init_write size)).

(** Modelled from the spec: [esphome_encode_device_info_response]; section
    4.3 lists the fields and numbers bluetooth_proxy_feature_flags 15 and
    bluetooth_mac_address 18, the others carry their numbers of the vendor
    protocol the section refers to. *)
Definition esphome_encode_device_info_response (size : Z)
    (msg : esphome_device_info_response_t) : list Z :=
  pb_result
    (pb_encode_string 18 (bluetooth_mac_address msg)
    (pb_encode_string 16 (di_suggested_area msg)
    (pb_encode_uint32 15 (bluetooth_proxy_feature_flags msg)
    (pb_encode_string 13 (di_friendly_name msg)
    (pb_encode_string 12 (di_manufacturer msg)
    (pb_encode_bool 7 (has_deep_sleep msg)
    (pb_encode_string 6 (di_model msg)
    (pb_encode_string 5 (compilation_time msg)
    (pb_encode_string 4 (di_esphome_version msg)
    (pb_encode_string 3 (di_mac_address msg)
    (pb_encode_string 2 (di_name msg)
    (pb_encode_bool 1 (uses_password msg)
    (pb_buffer_init_write size))))))))))))).

(** Modelled from the spec: one advertisement of
    BluetoothLERawAdvertisementsResponse, "address(u64 packed MAC),
    rssi(sint32), address_type(u32), data(bytes)" (section 4.3), numbered in
    that order; the data are the first [pb_data_len] bytes of the slot. *)
Definition encode_ble_advertisement (size : Z) (adv : esphome_ble_advertisement_t)
  : pb_buffer_t :=
  pb_encode_bytes 4 (take (Z.to_nat (pb_data_len adv)) (pb_data adv))
    (pb_encode_uint32 3 (pb_address_type adv)
       (pb_encode_sint32 2 (pb_rssi adv)
          (pb_encode_uint64 1 (pb_address adv)
             (pb_buffer_init_write size)))).

(** Modelled from the spec: [esphome_encode_ble_advertisements], the first
    [count] slots as the repeated length-delimited field 1 (section 4.3);
    failure of one advertisement fails the message. *)
Definition esphome_encode_ble_advertisements (size : Z)
    (msg : esphome_ble_advertisements_response_t) : list Z :=
  pb_result
    (foldl (fun buf adv =>
              let sub := encode_ble_advertisement size adv in
              if buf_error sub
              then {| buf_data := buf_data buf; buf_size := buf_size buf; buf_error := true |}
              else pb_encode_bytes 1 (buf_data sub) buf)
           (pb_buffer_init_write size)
           (take (Z.to_nat (count msg)) (advertisements msg))).

(** Modelled from the spec: [pb_skip_field], which "consumes and discards
    an unknown field's bytes per its wire type" (section 4.1); the rest of
    the input, or failure. *)
Definition pb_skip_field (wire_type : Z) (input : list Z) : option (list Z) :=
  if wire_type =? PB_WIRE_TYPE_VARINT then
    match pb_decode_varint input with
    | Some (_, _, rest) => Some rest
    | None => None
    end
  else if wire_type =? PB_WIRE_TYPE_64BIT then
    if (8 <=? length input)%nat then Some (drop 8 input) else None
  else if wire_type =? PB_WIRE_TYPE_LENGTH then
    match pb_decode_varint input with
    | Some (len, _, rest) =>
      if len <=? Z.of_nat (length rest) then Some (drop (Z.to_nat len) rest) else None
    | None => None
    end
  else if wire_type =? PB_WIRE_TYPE_32BIT then
    if (4 <=? length input)%nat then Some (drop 4 input) else None
  else None.

(** Modelled from the spec: the field loop of
    [esphome_decode_subscribe_ble_advertisements]; flags (u32) is field 1,
    "unknown field numbers are skipped via skip_field and do not fail
    decoding" (section 4.3).  Every field takes at least one byte, so the
    length of the input bounds the loop. *)
Fixpoint decode_subscribe_fields (fuel : nat) (input : list Z) (flags_acc : Z)
    : option Z :=
  match input with
  | [] => Some flags_acc
  | _ :: _ =>
    match fuel with
    | O => None
    | S fuel =>
      match pb_decode_varint input with
      | None => None
      | Some (tag, _, rest) =>
        let field_num := Z.shiftr tag 3 in
        let wire_type := Z.land tag 7 in
        if (field_num =? 1) && (wire_type =? PB_WIRE_TYPE_VARINT) then
          match pb_decode_varint rest with
          | Some (v, _, rest) => decode_subscribe_fields fuel rest (u32 v)
          | None => None
          end
        else
          match pb_skip_field wire_type rest with
          | Some rest => decode_subscribe_fields fuel rest flags_acc
          | None => None
          end
      end
    end
  end.

(** Modelled from the spec: [esphome_decode_subscribe_ble_advertisements]
    (declared in esphome_proto.h; section 4.3); [None] is the return value
    [false]. *)
Definition esphome_decode_subscribe_ble_advertisements (input : list Z)
  : option esphome_subscribe_ble_advertisements_t :=
  match decode_subscribe_fields (length input) input 0 with
  | Some f => Some {| flags := f |}
  | None => None
  end.

(** Modelled from the spec: [esphome_frame_message]; the frame is "a single
    zero preamble byte, a varint total-payload-length (the length of the
    message-type varint plus the message body ...), a varint message-type,
    then ... message body", and the call "fails (returns a sentinel /
    zero-length result) if the encoded frame would exceed the output
    buffer's capacity" (sections 4.2 and 6).  [msg_type] is a [uint16_t]. *)
Definition esphome_frame_message (out_size : Z) (msg_type : Z) (payload : list Z)
  : list Z :=
  let type_varint := varint_bytes (u16 msg_type) in
  pb_result
    (pb_write payload
       (pb_write type_varint
          (pb_encode_varint (Z.of_nat (length type_varint) + Z.of_nat (length payload))
             (pb_write [0] (pb_buffer_init_write out_size))))).

(** Modelled from the spec: [esphome_decode_frame_header], which "attempts
    to parse preamble + length-varint + type-varint" and returns
    "insufficient data" or "(header_length, declared_payload_length,
    message_type)" with "total frame size ... header_length +
    declared_payload_length" (section 4.2).  As esphome_proto.h and
    [handle_client_data] say, the header length is the offset of the
    payload and 0 reports failure, and the length returned is that of the
    payload alone: the declared length less the message-type varint.  The
    results are stored through [uint32_t *] and [uint16_t *]. *)
Definition esphome_decode_frame_header (buf : list Z) : Z * Z * Z :=
  match buf with
  | [] => (0, 0, 0)
  | preamble :: rest =>
    if preamble =? 0 then
      match pb_decode_varint rest with
      | None => (0, 0, 0)
      | Some (declared, n1, rest) =>
        match pb_decode_varint rest with
        | None => (0, 0, 0)
        | Some (msg_type, n2, _) =>
          if declared <? n2 then (0, 0, 0)
          else (1 + n1 + n2, u32 (declared - n2), u16 msg_type)
        end
      end
    else (0, 0, 0)
  end.

(** Modelled from the spec: the header [esphome_frame_message] writes
    before the payload, preamble, length varint and type varint (sections
    4.2 and 6). *)
Definition frame_header (msg_type : Z) (payload : list Z) : list Z :=
  [0] ++
  varint_bytes (Z.of_nat (length (varint_bytes (u16 msg_type))) +
                Z.of_nat (length payload)) ++
  varint_bytes (u16 msg_type).

(** A write cursor without failure, of capacity [size], holding between
    [lo] and [hi] bytes. *)
Definition written (buf : pb_buffer_t) (size : Z) (lo hi : Z) : Prop :=
  buf_error buf = false /\ buf_size buf = size /\
  lo <= Z.of_nat (length (buf_data buf)) <= hi.

End ProtoC.

(** The codec of the specification as the codec the server runs on. *)
#[export] Instance spec_proto : EsphomeProto := {|
  esphome_frame_message := ProtoC.esphome_frame_message;
  esphome_decode_frame_header := ProtoC.esphome_decode_frame_header;
  esphome_encode_hello_response := ProtoC.esphome_encode_hello_response;
  esphome_encode_connect_response := ProtoC.esphome_encode_connect_response;
  esphome_encode_device_info_response := ProtoC.esphome_encode_device_info_response;
  esphome_encode_ble_advertisements := ProtoC.esphome_encode_ble_advertisements;
  esphome_decode_subscribe_ble_advertisements :=
    ProtoC.esphome_decode_subscribe_ble_advertisements
|}.

(** ** The rest of esphome_api.c *)

(** [message_type_name] *)
Definition message_type_name (msg_type : Z) : string :=
  if msg_type =? ESPHOME_MSG_HELLO_REQUEST then "HELLO_REQUEST"
  else if msg_type =? ESPHOME_MSG_HELLO_RESPONSE then "HELLO_RESPONSE"
  else if msg_type =? ESPHOME_MSG_CONNECT_REQUEST then "CONNECT_REQUEST"
  else if msg_type =? ESPHOME_MSG_CONNECT_RESPONSE then "CONNECT_RESPONSE"
  else if msg_type =? ESPHOME_MSG_DISCONNECT_REQUEST then "DISCONNECT_REQUEST"
  else if msg_type =? ESPHOME_MSG_DISCONNECT_RESPONSE then "DISCONNECT_RESPONSE"
  else if msg_type =? ESPHOME_MSG_PING_REQUEST then "PING_REQUEST"
  else if msg_type =? ESPHOME_MSG_PING_RESPONSE then "PING_RESPONSE"
  else if msg_type =? ESPHOME_MSG_DEVICE_INFO_REQUEST then "DEVICE_INFO_REQUEST"
  else if msg_type =? ESPHOME_MSG_DEVICE_INFO_RESPONSE then "DEVICE_INFO_RESPONSE"
  else if msg_type =? ESPHOME_MSG_LIST_ENTITIES_REQUEST then "LIST_ENTITIES_REQUEST"
  else if msg_type =? ESPHOME_MSG_LIST_ENTITIES_DONE_RESPONSE
       then "LIST_ENTITIES_DONE_RESPONSE"
  else if msg_type =? ESPHOME_MSG_SUBSCRIBE_STATES_REQUEST then "SUBSCRIBE_STATES_REQUEST"
  else if msg_type =? ESPHOME_MSG_SUBSCRIBE_HOMEASSISTANT_SERVICES_REQUEST
       then "SUBSCRIBE_HOMEASSISTANT_SERVICES"
  else if msg_type =? ESPHOME_MSG_SUBSCRIBE_HOMEASSISTANT_STATES_REQUEST
       then "SUBSCRIBE_HOMEASSISTANT_STATES"
  else if msg_type =? ESPHOME_MSG_SUBSCRIBE_BLUETOOTH_LE_ADVERTISEMENTS_REQUEST
       then "SUBSCRIBE_BLE_ADVERTISEMENTS"
  else if msg_type =? ESPHOME_MSG_BLUETOOTH_LE_RAW_ADVERTISEMENTS_RESPONSE
       then "BLE_RAW_ADVERTISEMENTS_RESPONSE"
  else "UNKNOWN".

(** The milliseconds [flush_thread_func] computes between [last_flush] and
    the time it reads: [(now.tv_sec - last.tv_sec) * 1000 +
    (now.tv_nsec - last.tv_nsec) / 1000000], where the division of C
    truncates towards zero, stored in a [uint64_t]. *)
Definition elapsed_ms (last now : timespec) : Z :=
  u64 ((tv_sec now - tv_sec last) * 1000 + Z.quot (tv_nsec now - tv_nsec last) 1000000).

Section ServerThreads.
Context {proto : EsphomeProto} {platform : Platform}.

(** One turn of the [while (server->running)] loop of [flush_thread_func],
    after the [usleep]: [now] is the time the turn reads, [flush_now] the
    time [flush_ble_batch] reads when it is called. *)
Definition flush_thread_func (now flush_now : timespec) (server : esphome_api_server)
  : esphome_api_server * trace :=
  if BATCH_FLUSH_INTERVAL_MS <=? elapsed_ms (last_flush server) now
  then flush_ble_batch flush_now server
  else (server, []).

End ServerThreads.

(** What [esphome_api_start] does on the listening socket. *)
Inductive start_event :=
| StSocket (result : Z)                 (* socket(AF_INET, SOCK_STREAM, 0) = result *)
| StReuseAddr (sock : Z)                (* setsockopt(fd, SOL_SOCKET, SO_REUSEADDR) *)
| StBind (sock : Z) (result : Z)        (* bind(fd, port 6053) = result *)
| StListen (sock : Z) (result : Z)      (* listen(fd, 2) = result *)
| StClose (sock : Z)                    (* close(fd) *)
| StThreads.                            (* pthread_create of the listener and the flush thread *)

(** [esphome_api_start]; [sock], [bind_result] and [listen_result] are what
    [socket], [bind] and [listen] return.  The value returned is the third
    component. *)
Definition esphome_api_start (sock bind_result listen_result : Z)
    (server : esphome_api_server) : esphome_api_server * list start_event * Z :=
  let server := set_listen_fd sock server in
  if listen_fd server <? 0 then (server, [StSocket sock], -1)
  else if bind_result <? 0
  then (set_listen_fd (-1) server,
        [StSocket sock; StReuseAddr sock; StBind sock bind_result; StClose sock], -1)
  else if listen_result <? 0
  then (set_listen_fd (-1) server,
        [StSocket sock; StReuseAddr sock; StBind sock bind_result;
         StListen sock listen_result; StClose sock], -1)
  else (set_running true server,
        [StSocket sock; StReuseAddr sock; StBind sock bind_result;
         StListen sock listen_result; StThreads], 0).

(** ** Notions the properties are stated with *)

(** A session the batch is delivered to: the connection is open and the
    session has subscribed. *)
Definition wants_batch (client : client_connection_t) : bool :=
  (0 <=? fd client) && subscribed_ble client.

(** The entries of a batch: the first [count] slots of the array. *)
Definition batch_entries (batch : esphome_ble_advertisements_response_t)
  : list esphome_ble_advertisement_t :=
  take (Z.to_nat (count batch)) (advertisements batch).

(** The arrays of a server have their declared lengths and the batch count
    is within the array. *)
Record server_wf (server : esphome_api_server) : Prop := {
  wf_clients : length (clients server) = Z.to_nat ESPHOME_MAX_CLIENTS;
  wf_advertisements :
    length (advertisements (ble_batch server)) = Z.to_nat ESPHOME_MAX_ADV_BATCH;
  wf_data :
    Forall (fun adv => length (pb_data adv) = Z.to_nat ESPHOME_MAX_ADV_DATA)
           (advertisements (ble_batch server));
  wf_count : 0 <= count (ble_batch server) <= ESPHOME_MAX_ADV_BATCH
}.

(** The bytes a client has accumulated and not yet consumed. *)
Definition valid_bytes (client : client_connection_t) : list Z :=
  take (Z.to_nat (recv_pos client)) (recv_buffer client).

(** The client holds exactly the bytes [got] in a buffer of the declared
    size. *)
Definition holds (client : client_connection_t) (got : list Z) : Prop :=
  recv_pos client = Z.of_nat (length got) /\
  take (length got) (recv_buffer client) = got /\
  length (recv_buffer client) = Z.to_nat RECV_BUFFER_SIZE.

(** The frame header decoder takes [header] as the header of a frame of
    type [msg_type] with the payload [payload]: it says so whatever follows
    the header, and reports failure on every proper prefix of it. *)
Definition decodes_frame {proto : EsphomeProto} (header : list Z) (msg_type : Z)
    (payload : list Z) : Prop :=
  header <> [] /\
  (forall rest,
     esphome_decode_frame_header (header ++ rest) =
     (Z.of_nat (length header), Z.of_nat (length payload), msg_type)) /\
  (forall q r, r <> [] -> header = q ++ r -> (esphome_decode_frame_header q).1.1 = 0).

(** The accumulated input declares a frame larger than the maximum message
    size: the header is complete and header length plus payload length
    exceeds [ESPHOME_MAX_MESSAGE_SIZE]. *)
Definition declares_oversize {proto : EsphomeProto} (input : list Z) : Prop :=
  let '(header_len, msg_len, _) := esphome_decode_frame_header input in
  header_len <> 0 /\ ESPHOME_MAX_MESSAGE_SIZE < header_len + u32 msg_len.

(** "A declared length that would make the total frame exceed the maximum
    message size is a fatal transport error for that connection", for a
    connection that has received [input]: the client thread leaves its loop
    and closes the connection. *)
Definition oversize_is_fatal {proto : EsphomeProto} {platform : Platform}
    (input : list Z) (server : esphome_api_server) (slot : nat) : Prop :=
  declares_oversize input ->
  exists fuel server' tr,
    client_thread_func fuel [RecvData input] server slot = Some (server', tr, true) /\
    fd (clients server' !!! slot) = -1.

(** "The failing session is treated as fatally broken: its connection is
    closed and its session released", for the outcome of an operation: every
    socket a [send] failed or fell short on has been closed and no session
    holds it any more. *)
Definition failed_send_tears_down (outcome : esphome_api_server * trace) : Prop :=
  forall sock frame sent,
    In (EvSend sock frame sent) outcome.2 ->
    sent < 0 \/ sent <> Z.of_nat (length frame) ->
    In (EvClose sock) outcome.2 /\
    forall client, In client (clients outcome.1) -> fd client <> sock.

(** ** Concrete inputs *)

(** A platform on which every [send] takes the whole buffer. *)
Definition full_send_platform : Platform :=
  {| send := fun _ buf => Z.of_nat (length buf);
     build_date_time := "Jan  1 2025 00:00:00" |}.

(** A platform on which [send] fails on socket [bad] and takes the whole
    buffer on every other socket. *)
Definition failing_send_platform (bad : Z) : Platform :=
  {| send := fun sock buf => if sock =? bad then -1 else Z.of_nat (length buf);
     build_date_time := "Jan  1 2025 00:00:00" |}.

Definition mac_example : list Z := [0xAA; 0xBB; 0xCC; 0xDD; 0xEE; 0xFF].

Definition example_config : esphome_device_config_t :=
  {| device_name := "proxy";
     mac_address := "AA:BB:CC:DD:EE:FF";
     esphome_version := "2024.1.0";
     model := "camera";
     manufacturer := "thingino";
     friendly_name := "BLE proxy";
     suggested_area := "hall" |}.

Definition example_time : timespec := {| tv_sec := 10; tv_nsec := 0 |}.

(** A connected client on socket [sock]. *)
Definition example_client (sock : Z) : client_connection_t :=
  set_thread_running true (set_fd sock client_init).

(** A running server with one client, on socket 5, in slot 0. *)
Definition example_server : esphome_api_server :=
  set_clients [example_client 5; client_init]
    (set_running true (set_listen_fd 3 (esphome_api_init example_config example_time))).

(** The same server with both slots taken. *)
Definition example_busy_server : esphome_api_server :=
  set_clients [example_client 5; example_client 6] example_server.

(** A PingRequest frame, delivered one byte at a time. *)
Definition example_chunks : list (list Z) := [[0]; [1]; [7]].

(** The header of a frame of type 1 with a payload of 5000 bytes: preamble,
    the varint of 5001, the type. *)
Definition example_oversize_header : list Z := [0; 137; 39; 1].

(** A client whose buffer is full and begins with that header. *)
Definition example_full_client : client_connection_t :=
  set_recv (example_oversize_header ++ replicate 4092 0) RECV_BUFFER_SIZE (example_client 5).

Definition example_full_server : esphome_api_server :=
  set_clients [example_full_client; example_client 6] example_server.

(** A client that has received that header and nothing else. *)
Definition example_header_client : client_connection_t :=
  recv_store (example_client 5) example_oversize_header.

Definition example_header_server : esphome_api_server :=
  set_clients [example_header_client; example_client 6] example_server.

(** An advertisement with three bytes of data. *)
Definition example_advert : esphome_ble_advert_t :=
  {| advert_address := mac_example;
     advert_address_type := 1;
     advert_rssi := -60;
     advert_data := [2; 1; 6] ++ replicate 59 0;
     advert_data_len := 3 |}.

(** An advertisement that claims 200 bytes of data. *)
Definition example_long_advert : esphome_ble_advert_t :=
  {| advert_address := mac_example;
     advert_address_type := 0;
     advert_rssi := -71;
     advert_data := seqZ 1 62;
     advert_data_len := 200 |}.

(** A running server with two subscribed clients, on sockets 5 and 6, and
    one advertisement in the batch. *)
Definition example_batch_server : esphome_api_server :=
  set_ble_batch (store_advert example_advert (ble_batch example_server))
    (set_clients [set_subscribed_ble true (example_client 5);
                  set_subscribed_ble true (example_client 6)] example_server).

(** The same server with [n] entries counted in the batch. *)
Definition example_batch_server_at (n : Z) : esphome_api_server :=
  set_ble_batch (set_count n (ble_batch example_batch_server)) example_batch_server.

(** ** Further notions *)

(** A free slot carries nothing of an earlier session. *)
Definition slot_clean (client : client_connection_t) : Prop :=
  fd client < 0 ->
  authenticated client = false /\ subscribed_ble client = false /\ recv_pos client = 0.

Definition slots_clean (server : esphome_api_server) : Prop :=
  Forall slot_clean (clients server).

(** What a session's own message handling may do to the outside: decode a
    message, or send on the session's socket [sock]. *)
Definition own_traffic (sock : Z) (e : event) : Prop :=
  match e with
  | EvDispatch _ _ => True
  | EvSend s _ _ => s = sock
  | _ => False
  end.

(** The frame header decoder keeps within 32 bits: the header length and
    the payload length it reports add up without wrapping around, which
    [handle_client_data] takes for granted when it computes [total_len].
    Then the payload it hands to [dispatch_message] lies within the bytes
    received. *)
Definition decoder_in_bounds {proto : EsphomeProto} : Prop :=
  forall input : list Z,
    let '(header_len, msg_len, _) := esphome_decode_frame_header input in
    header_len <> 0 -> 0 < header_len /\ header_len + u32 msg_len < 2 ^ 32.

(** A header decoder with that check: the specification's, which reports
    failure where the lengths would wrap around. *)
Definition checked_decode_frame_header (input : list Z) : Z * Z * Z :=
  let '(header_len, msg_len, msg_type) := ProtoC.esphome_decode_frame_header input in
  if (0 <? header_len) && (header_len + u32 msg_len <? 2 ^ 32)
  then (header_len, msg_len, msg_type)
  else (0, 0, 0).

Definition checked_proto : EsphomeProto := {|
  esphome_frame_message := ProtoC.esphome_frame_message;
  esphome_decode_frame_header := checked_decode_frame_header;
  esphome_encode_hello_response := ProtoC.esphome_encode_hello_response;
  esphome_encode_connect_response := ProtoC.esphome_encode_connect_response;
  esphome_encode_device_info_response := ProtoC.esphome_encode_device_info_response;
  esphome_encode_ble_advertisements := ProtoC.esphome_encode_ble_advertisements;
  esphome_decode_subscribe_ble_advertisements :=
    ProtoC.esphome_decode_subscribe_ble_advertisements
|}.

(** The receive buffer of a session has its declared size and the fill
    level is within it. *)
Definition client_wf (client : client_connection_t) : Prop :=
  length (recv_buffer client) = Z.to_nat RECV_BUFFER_SIZE /\
  0 <= recv_pos client <= RECV_BUFFER_SIZE.

(** The sockets a trace closes, in order. *)
Definition closes (tr : trace) : list Z :=
  omap (fun e => match e with EvClose sock => Some sock | _ => None end) tr.

(** The operations on a server, each with what its environment gives it:
    [esphome_api_start] with the results of [socket], [bind] and [listen];
    a turn of the listener with the result of [accept] and of
    [pthread_create]; a client thread on a slot with the results of its
    [recv] calls; [esphome_api_queue_ble_advert]; a turn of the flush
    thread with the times it reads. *)
Inductive server_op :=
| OpStart (sock bind_result listen_result : Z)
| OpAccept (client_fd : Z) (thread_ok : bool)
| OpReceive (fuel : nat) (script : list recv_result) (slot : nat)
| OpQueue (now : timespec) (advert : esphome_ble_advert_t)
| OpTimer (now flush_now : timespec).

(** The arguments are within what the C types allow: the slot is one of
    the array, the advertisement's data array has its 62 bytes; and the
    fuel is enough for a full receive buffer. *)
Definition op_ok (op : server_op) : Prop :=
  match op with
  | OpReceive fuel _ slot =>
    (slot < Z.to_nat ESPHOME_MAX_CLIENTS)%nat /\ RECV_BUFFER_SIZE < Z.of_nat fuel
  | OpQueue _ advert => length (advert_data advert) = Z.to_nat ESPHOME_MAX_ADV_DATA
  | _ => True
  end.

Section Runs.
Context {proto : EsphomeProto} {platform : Platform}.

Definition step (op : server_op) (server : esphome_api_server)
  : option esphome_api_server :=
  match op with
  | OpStart sock bind_result listen_result =>
    Some (esphome_api_start sock bind_result listen_result server).1.1
  | OpAccept client_fd thread_ok =>
    Some (listen_thread_func client_fd thread_ok server).1
  | OpReceive fuel script slot =>
    match client_thread_func fuel script server slot with
    | Some (server, _, _) => Some server
    | None => None
    end
  | OpQueue now advert =>
    (esphome_api_queue_ble_advert now (Some server) (Some advert)).1
  | OpTimer now flush_now => Some (flush_thread_func now flush_now server).1
  end.

(** The operations run one after another, from left to right. *)
Fixpoint run (ops : list server_op) (server : esphome_api_server)
  : option esphome_api_server :=
  match ops with
  | [] => Some server
  | op :: ops =>
    match step op server with
    | Some server => run ops server
    | None => None
    end
  end.

End Runs.

(** An advertisement with a full data array. *)
Definition example_full_advert : esphome_ble_advert_t :=
  {| advert_address := mac_example;
     advert_address_type := 0;
     advert_rssi := -48;
     advert_data := seqZ 1 62;
     advert_data_len := 62 |}.

(** A server's life: started, two clients accepted, a subscription and a
    connect request received, advertisements queued, the second client
    gone, and a turn of the timer. *)
Definition example_ops : list server_op :=
  [OpStart 3 0 0;
   OpAccept 5 true;
   OpAccept 6 true;
   OpReceive 4097 [RecvData [0; 3; 66; 8]; RecvData [1; 0]] 0;
   OpQueue example_time example_advert;
   OpQueue example_time example_full_advert;
   OpReceive 4097 [RecvData [0; 1; 3]; RecvData []] 1;
   OpTimer {| tv_sec := 11; tv_nsec := 0 |} {| tv_sec := 11; tv_nsec := 5 |}].

(** What holds of a server between operations: the arrays have their
    sizes, every receive buffer has its fill level within it, free slots
    are clean, and the batch has room for one more advertisement. *)
Record server_inv (server : esphome_api_server) : Prop := {
  inv_wf : server_wf server;
  inv_sessions : Forall client_wf (clients server);
  inv_clean : slots_clean server;
  inv_room : count (ble_batch server) < ESPHOME_MAX_ADV_BATCH
}.

(** A normalised [timespec]: the nanoseconds are below one second. *)
Definition timespec_ok (t : timespec) : Prop := 0 <= tv_nsec t < 1000000000.

(** The nanoseconds from [last] to [now]. *)
Definition elapsed_ns (last now : timespec) : Z :=
  (tv_sec now - tv_sec last) * 1000000000 + (tv_nsec now - tv_nsec last).

(** The sockets [esphome_api_start] closes. *)
Definition start_closes (tr : list start_event) : list Z :=
  omap (fun e => match e with StClose sock => Some sock | _ => None end) tr.

(** The message types esphome_proto.h names. *)
Definition named_types : list Z :=
  [ESPHOME_MSG_HELLO_REQUEST; ESPHOME_MSG_HELLO_RESPONSE;
   ESPHOME_MSG_CONNECT_REQUEST; ESPHOME_MSG_CONNECT_RESPONSE;
   ESPHOME_MSG_DISCONNECT_REQUEST; ESPHOME_MSG_DISCONNECT_RESPONSE;
   ESPHOME_MSG_PING_REQUEST; ESPHOME_MSG_PING_RESPONSE;
   ESPHOME_MSG_DEVICE_INFO_REQUEST; ESPHOME_MSG_DEVICE_INFO_RESPONSE;
   ESPHOME_MSG_LIST_ENTITIES_REQUEST; ESPHOME_MSG_LIST_ENTITIES_DONE_RESPONSE;
   ESPHOME_MSG_SUBSCRIBE_STATES_REQUEST;
   ESPHOME_MSG_SUBSCRIBE_HOMEASSISTANT_SERVICES_REQUEST;
   ESPHOME_MSG_SUBSCRIBE_HOMEASSISTANT_STATES_REQUEST;
   ESPHOME_MSG_SUBSCRIBE_BLUETOOTH_LE_ADVERTISEMENTS_REQUEST;
   ESPHOME_MSG_BLUETOOTH_LE_RAW_ADVERTISEMENTS_RESPONSE].

(** A frame on the wire, as its header, the message type the header
    carries and the payload. *)
Definition wire_frame : Type := list Z * Z * list Z.

Definition frame_bytes (f : wire_frame) : list Z := f.1.1 ++ f.2.

(** The byte stream of a sequence of frames. *)
Definition stream (frames : list wire_frame) : list Z :=
  concat (map frame_bytes frames).

(** The message a frame carries, as [dispatch_message] gets it. *)
Definition frame_message (f : wire_frame) : Z * list Z := (u16 f.1.2, f.2).

(** The decoder recognises the frame's header, and the frame has at most
    [limit] bytes. *)
Definition frame_ok {proto : EsphomeProto} (limit : Z) (f : wire_frame) : Prop :=
  decodes_frame f.1.1 f.1.2 f.2 /\ Z.of_nat (length (frame_bytes f)) <= limit.

(** A ping, a connect request and a subscription to advertisements. *)
Definition example_frames : list wire_frame :=
  [([0; 1; 7], 7, []); ([0; 1; 3], 3, []); ([0; 3; 66], 66, [8; 1])].

(** Their bytes, cut without regard to the frames. *)
Definition example_stream_chunks : list (list Z) :=
  [[0; 1]; [7; 0; 1; 3; 0; 3]; [66]; [8; 1]].

(** * Properties *)

(** Boolean comparisons among the hypotheses, as propositions. *)
Ltac zbool :=
  repeat match goal with
         | H : negb _ = true |- _ => apply negb_true_iff in H
         | H : negb _ = false |- _ => apply negb_false_iff in H
         | H : (_ =? _) = true |- _ => apply Z.eqb_eq in H
         | H : (_ =? _) = false |- _ => apply Z.eqb_neq in H
         | H : (_ <? _) = true |- _ => apply Z.ltb_lt in H
         | H : (_ <? _) = false |- _ => apply Z.ltb_ge in H
         | H : (_ <=? _) = true |- _ => apply Z.leb_le in H
         | H : (_ <=? _) = false |- _ => apply Z.leb_gt in H
         end.

(** ** Bit arithmetic *)

Lemma land_high_low (m y n : Z) :
  0 <= n -> 0 <= y < 2 ^ n -> Z.land (m * 2 ^ n) y = 0.
Proof.
  intros Hn Hy. apply Z.bits_inj'. intros k Hk.
  rewrite Z.land_spec, Z.bits_0.
  destruct (Z.lt_ge_cases k n) as [Hlt | Hge].
  - rewrite Z.mul_pow2_bits_low by lia. reflexivity.
  - rewrite <- (Z.mod_small y (2 ^ n)) by lia.
    rewrite Z.mod_pow2_bits_high by lia. apply andb_false_r.
Qed.

Lemma lor_high_low (m y n : Z) :
  0 <= n -> 0 <= y < 2 ^ n -> Z.lor (m * 2 ^ n) y = m * 2 ^ n + y.
Proof.
  intros Hn Hy. pose proof (Z.add_lor_land (m * 2 ^ n) y) as H.
  rewrite land_high_low in H by assumption. lia.
Qed.

Lemma lor_scaled (m y n p : Z) :
  p = 2 ^ n -> 0 <= n -> 0 <= y < p -> Z.lor (m * p) y = m * p + y.
Proof. intros -> Hn Hy. by apply lor_high_low. Qed.

(** ** [mac_to_uint64] *)

Lemma mac_to_uint64_sum (b0 b1 b2 b3 b4 b5 : Z) :
  is_byte b0 -> is_byte b1 -> is_byte b2 -> is_byte b3 -> is_byte b4 -> is_byte b5 ->
  mac_to_uint64 [b0; b1; b2; b3; b4; b5] =
  b0 * 2 ^ 40 + b1 * 2 ^ 32 + b2 * 2 ^ 24 + b3 * 2 ^ 16 + b4 * 2 ^ 8 + b5.
Proof.
  unfold is_byte. intros H0 H1 H2 H3 H4 H5.
  unfold mac_to_uint64.
  change (seqZ 0 6) with [0; 1; 2; 3; 4; 5]. cbn [foldl].
  unfold idx. cbn -[Z.shiftl Z.lor u64 Z.pow].
  unfold u64.
  rewrite !(Z.mod_small b0), !(Z.mod_small b1), !(Z.mod_small b2),
    !(Z.mod_small b3), !(Z.mod_small b4), !(Z.mod_small b5) by lia.
  rewrite !Z.shiftl_mul_pow2 by lia.
  change ((5 - 0) * 8) with 40. change ((5 - 1) * 8) with 32.
  change ((5 - 2) * 8) with 24. change ((5 - 3) * 8) with 16.
  change ((5 - 4) * 8) with 8. change ((5 - 5) * 8) with 0.
  change (2 ^ 64) with 18446744073709551616.
  change (2 ^ 40) with 1099511627776. change (2 ^ 32) with 4294967296.
  change (2 ^ 24) with 16777216. change (2 ^ 16) with 65536.
  change (2 ^ 8) with 256. change (2 ^ 0) with 1.
  rewrite !Z.mod_small by lia.
  rewrite Z.lor_0_l.
  rewrite (lor_scaled b0 _ 40) by (done || lia).
  replace (b0 * 1099511627776 + b1 * 4294967296)
    with ((b0 * 256 + b1) * 4294967296) by lia.
  rewrite (lor_scaled _ _ 32) by (done || lia).
  replace ((b0 * 256 + b1) * 4294967296 + b2 * 16777216)
    with (((b0 * 256 + b1) * 256 + b2) * 16777216) by lia.
  rewrite (lor_scaled _ _ 24) by (done || lia).
  replace (((b0 * 256 + b1) * 256 + b2) * 16777216 + b3 * 65536)
    with ((((b0 * 256 + b1) * 256 + b2) * 256 + b3) * 65536) by lia.
  rewrite (lor_scaled _ _ 16) by (done || lia).
  replace ((((b0 * 256 + b1) * 256 + b2) * 256 + b3) * 65536 + b4 * 256)
    with (((((b0 * 256 + b1) * 256 + b2) * 256 + b3) * 256 + b4) * 256) by lia.
  rewrite (lor_scaled _ _ 8) by (done || lia).
  lia.
Qed.

Lemma mac_bytes_of_sum (b0 b1 b2 b3 b4 b5 : Z) :
  is_byte b0 -> is_byte b1 -> is_byte b2 -> is_byte b3 -> is_byte b4 -> is_byte b5 ->
  let r := b0 * 2 ^ 40 + b1 * 2 ^ 32 + b2 * 2 ^ 24 + b3 * 2 ^ 16 + b4 * 2 ^ 8 + b5 in
  Z.shiftr r 48 = 0 /\
  Z.land (Z.shiftr r 40) 255 = b0 /\
  Z.land (Z.shiftr r 32) 255 = b1 /\
  Z.land (Z.shiftr r 24) 255 = b2 /\
  Z.land (Z.shiftr r 16) 255 = b3 /\
  Z.land (Z.shiftr r 8) 255 = b4 /\
  Z.land (Z.shiftr r 0) 255 = b5.
Proof.
  unfold is_byte. intros H0 H1 H2 H3 H4 H5. cbv zeta.
  change 255 with (Z.ones 8).
  rewrite !Z.land_ones, !Z.shiftr_div_pow2 by lia.
  change (2 ^ 48) with 281474976710656.
  change (2 ^ 40) with 1099511627776. change (2 ^ 32) with 4294967296.
  change (2 ^ 24) with 16777216. change (2 ^ 16) with 65536.
  change (2 ^ 8) with 256. change (2 ^ 0) with 1.
  repeat split; Z.div_mod_to_equations; lia.
Qed.

(** C6.  For every 6-byte MAC address, [mac_to_uint64] returns the 64-bit
    integer whose top two bytes are zero and whose remaining six bytes are
    the address bytes in order, the first byte most significant; the bytes
    AA:BB:CC:DD:EE:FF pack to 0x0000AABBCCDDEEFF. *)
Theorem mac_to_uint64_packs (mac : list Z) :
  length mac = 6%nat ->
  Forall is_byte mac ->
  mac_to_uint64 mac =
    idx mac 0 * 2 ^ 40 + idx mac 1 * 2 ^ 32 + idx mac 2 * 2 ^ 24 +
    idx mac 3 * 2 ^ 16 + idx mac 4 * 2 ^ 8 + idx mac 5 /\
  0 <= mac_to_uint64 mac < 2 ^ 64 /\
  Z.shiftr (mac_to_uint64 mac) 48 = 0 /\
  (forall i, 0 <= i < 6 ->
     Z.land (Z.shiftr (mac_to_uint64 mac) ((5 - i) * 8)) 255 = idx mac i) /\
  mac_to_uint64 mac_example = 0x0000AABBCCDDEEFF.
Proof.
  intros Hlen Hbytes.
  destruct mac as [|b0 [|b1 [|b2 [|b3 [|b4 [|b5 [|? ?]]]]]]]; try discriminate.
  repeat match goal with
         | H : Forall _ (_ :: _) |- _ =>
           apply Forall_cons in H; let Hb := fresh "Hbyte" in destruct H as [Hb H]
         end.
  rewrite mac_to_uint64_sum by assumption.
  pose proof (mac_bytes_of_sum b0 b1 b2 b3 b4 b5) as Hb.
  cbv zeta in Hb.
  destruct Hb as (Htop & E0 & E1 & E2 & E3 & E4 & E5); try assumption.
  unfold idx. cbn [Z.to_nat Pos.to_nat Pos.iter_op Nat.add lookup_total list_lookup_total].
  split; [reflexivity|].
  split; [unfold is_byte in *; lia|].
  split; [assumption|].
  split; [|reflexivity].
  intros i Hi.
  assert (i = 0 \/ i = 1 \/ i = 2 \/ i = 3 \/ i = 4 \/ i = 5) as Hcases by lia.
  destruct Hcases as [->|[->|[->|[->|[->| ->]]]]]; assumption.
Qed.

(** The address AA:BB:CC:DD:EE:FF. *)
Lemma mac_to_uint64_packs_witness :
  mac_to_uint64 mac_example = 0xAA * 2 ^ 40 + 0xBB * 2 ^ 32 + 0xCC * 2 ^ 24 +
                              0xDD * 2 ^ 16 + 0xEE * 2 ^ 8 + 0xFF /\
  Z.shiftr (mac_to_uint64 mac_example) 48 = 0.
Proof.
  assert (Forall is_byte mac_example) as Hbytes.
  { unfold mac_example, is_byte. repeat constructor; lia. }
  destruct (mac_to_uint64_packs mac_example eq_refl Hbytes) as (Hsum & _ & Htop & _).
  split; [exact Hsum | exact Htop].
Defined.

(** ** Dispatch *)

Section Dispatch.
Context {proto : EsphomeProto} {platform : Platform}.

Lemma send_message_fd (c1 c2 : client_connection_t) (msg_type : Z) (payload : list Z) :
  fd c1 = fd c2 -> send_message c1 msg_type payload = send_message c2 msg_type payload.
Proof. intros H. unfold send_message. by rewrite H. Qed.

Lemma run_handler_fd (h : handler) (server : esphome_api_server)
    (client : client_connection_t) (payload : list Z) :
  fd (run_handler h server client payload).1 = fd client.
Proof.
  destruct h; cbn;
    unfold handle_hello_request, handle_connect_request, handle_device_info_request,
      handle_subscribe_ble_advertisements;
    repeat case_match; reflexivity.
Qed.

Lemma dispatch_message_fd (server : esphome_api_server) (client : client_connection_t)
    (msg_type : Z) (payload : list Z) :
  fd (dispatch_message server client msg_type payload).1 = fd client.
Proof.
  unfold dispatch_message.
  pose proof (run_handler_fd (select_handler msg_type) server client payload) as H.
  destruct (run_handler _ _ _ _) as [c tr]. exact H.
Qed.

(** C7.  Dispatch does not depend on the authentication state: on two
    sessions that differ only in [authenticated], [dispatch_message] runs
    the handler chosen from the message type alone, leaves the same trace
    (the dispatched message and the frames sent, with their results) and
    makes the same changes to the session apart from the flag, which only
    the ConnectRequest handler writes. *)
Theorem dispatch_ignores_authenticated (server : esphome_api_server)
    (client : client_connection_t) (msg_type : Z) (payload : list Z) (b1 b2 : bool) :
  let r1 := dispatch_message server (set_authenticated b1 client) msg_type payload in
  let r2 := dispatch_message server (set_authenticated b2 client) msg_type payload in
  r1.2 = r2.2 /\
  set_authenticated false r1.1 = set_authenticated false r2.1 /\
  r1 = (let '(c, tr) :=
          run_handler (select_handler msg_type) server (set_authenticated b1 client) payload
        in (c, EvDispatch msg_type payload :: tr)) /\
  authenticated r1.1 =
    match select_handler msg_type with HConnect => true | _ => b1 end /\
  authenticated r2.1 =
    match select_handler msg_type with HConnect => true | _ => b2 end.
Proof.
  cbv zeta. unfold dispatch_message.
  destruct (select_handler msg_type); cbn;
    unfold handle_hello_request, handle_connect_request, handle_device_info_request,
      handle_list_entities_request, handle_ping_request,
      handle_subscribe_ble_advertisements;
    rewrite ?(send_message_fd (set_authenticated b1 client) (set_authenticated b2 client))
      by reflexivity;
    repeat case_match; simplify_eq/=; repeat split; try reflexivity; try congruence.
Qed.

End Dispatch.

(** ** NULL arguments *)

(** C10.  [esphome_api_queue_ble_advert] with a NULL server or a NULL
    advertisement, and [esphome_api_stop] and [esphome_api_free] with a NULL
    server, return at once: the state is what it was and nothing is done. *)
Theorem null_arguments_return_at_once {proto : EsphomeProto} {platform : Platform}
    (now : timespec) (server : option esphome_api_server)
    (advert : option esphome_ble_advert_t) :
  esphome_api_queue_ble_advert now None advert = (None, []) /\
  esphome_api_queue_ble_advert now server None = (server, []) /\
  esphome_api_stop None = (None, []) /\
  esphome_api_free None = (None, []).
Proof.
  repeat split; try reflexivity.
  destruct server; reflexivity.
Qed.

(** ** Flushing the batch *)

Section Flush.
Context {proto : EsphomeProto} {platform : Platform}.

Lemma flush_ble_batch_count (now : timespec) (server : esphome_api_server) :
  count (ble_batch (flush_ble_batch now server).1) = 0.
Proof.
  unfold flush_ble_batch.
  destruct (Z.eqb_spec (count (ble_batch server)) 0) as [E|E]; [exact E|].
  case_match; reflexivity.
Qed.

Lemma flush_ble_batch_frame (now : timespec) (server : esphome_api_server) :
  let server' := (flush_ble_batch now server).1 in
  advertisements (ble_batch server') = advertisements (ble_batch server) /\
  clients server' = clients server /\
  config server' = config server /\
  running server' = running server /\
  listen_fd server' = listen_fd server.
Proof.
  cbv zeta. unfold flush_ble_batch.
  destruct (Z.eqb_spec (count (ble_batch server)) 0) as [E|E]; [done|].
  case_match; done.
Qed.

Lemma send_message_trace (client : client_connection_t) (msg_type : Z)
    (payload : list Z) :
  esphome_frame_message SEND_BUFFER_SIZE msg_type payload <> [] ->
  (send_message client msg_type payload).2 =
  [EvSend (fd client) (esphome_frame_message SEND_BUFFER_SIZE msg_type payload)
          (send (fd client) (esphome_frame_message SEND_BUFFER_SIZE msg_type payload))].
Proof.
  intros Hframe. unfold send_message.
  destruct (esphome_frame_message _ _ _) as [|b frame]; [done|].
  cbn [length]. destruct (Z.of_nat (S (length frame)) =? 0) eqn:E; [zbool; lia|].
  repeat case_match; reflexivity.
Qed.

(** [send_message] reports a failed or short [send] with -1, and that is
    all it does about it. *)
Lemma send_message_failure (client : client_connection_t) (msg_type : Z)
    (payload : list Z) :
  let frame := esphome_frame_message SEND_BUFFER_SIZE msg_type payload in
  send (fd client) frame < 0 \/ send (fd client) frame <> Z.of_nat (length frame) ->
  (send_message client msg_type payload).1 = -1.
Proof.
  cbv zeta. intros Hfail. unfold send_message.
  repeat case_match; try reflexivity; zbool; lia.
Qed.

(** What a flush of a non-empty batch does when the batch encodes and
    frames: one frame, offered to the sessions that want it, in slot
    order, whatever [send] returns for each. *)
Lemma flush_ble_batch_sends (now : timespec) (server : esphome_api_server) :
  let payload :=
    esphome_encode_ble_advertisements ESPHOME_MAX_MESSAGE_SIZE (ble_batch server) in
  let frame :=
    esphome_frame_message SEND_BUFFER_SIZE
      ESPHOME_MSG_BLUETOOTH_LE_RAW_ADVERTISEMENTS_RESPONSE payload in
  length (clients server) = Z.to_nat ESPHOME_MAX_CLIENTS ->
  count (ble_batch server) <> 0 ->
  payload <> [] ->
  frame <> [] ->
  flush_ble_batch now server =
  (set_last_flush now (set_ble_batch (set_count 0 (ble_batch server)) server),
   map (fun c => EvSend (fd c) frame (send (fd c) frame))
       (List.filter wants_batch (clients server))).
Proof.
  cbv zeta. intros Hlen Hcount Hpayload Hframe.
  unfold flush_ble_batch.
  destruct (Z.eqb_spec (count (ble_batch server)) 0) as [E|E]; [lia|].
  destruct (esphome_encode_ble_advertisements _ _) as [|b payload] eqn:Epay; [done|].
  cbn [length]. destruct (Z.of_nat (S (length payload)) =? 0) eqn:E'; [zbool; lia|].
  f_equal.
  destruct (clients server) as [|c0 [|c1 [|? ?]]]; try discriminate.
  change (seqZ 0 ESPHOME_MAX_CLIENTS) with [0; 1]. cbn [foldl].
  change (idx [c0; c1] 0) with c0. change (idx [c0; c1] 1) with c1.
  cbn [List.filter]. unfold wants_batch.
  rewrite !send_message_trace by assumption.
  destruct ((0 <=? fd c0) && subscribed_ble c0), ((0 <=? fd c1) && subscribed_ble c1);
    reflexivity.
Qed.

End Flush.

(** ** The codec of the specification: sizes *)

Module ProtoFacts.
Import ProtoC.

Ltac fits :=
  cbn [buf_data buf_size buf_error]; rewrite ?length_app; cbn [length];
  first [reflexivity | lia].

Lemma pb_write_fits (bytes : list Z) (buf : pb_buffer_t) :
  buf_error buf = false ->
  Z.of_nat (length (buf_data buf)) + Z.of_nat (length bytes) <= buf_size buf ->
  pb_write bytes buf =
  {| buf_data := buf_data buf ++ bytes; buf_size := buf_size buf; buf_error := false |}.
Proof.
  intros Herr Hfit. unfold pb_write. rewrite Herr.
  destruct (Z.leb_spec (Z.of_nat (length (buf_data buf)) + Z.of_nat (length bytes))
                       (buf_size buf)); [reflexivity | lia].
Qed.

Lemma written_pb_write (bytes : list Z) (buf : pb_buffer_t) (size lo hi n : Z) :
  written buf size lo hi ->
  Z.of_nat (length bytes) = n ->
  hi + n <= size ->
  written (pb_write bytes buf) size (lo + n) (hi + n).
Proof.
  intros (Herr & Hsize & Hlen) Hn Hfit.
  rewrite pb_write_fits by (assumption || lia).
  unfold written. cbn. rewrite length_app. lia.
Qed.

Lemma written_weaken (buf : pb_buffer_t) (size lo hi lo' hi' : Z) :
  written buf size lo hi -> lo' <= lo -> hi <= hi' -> written buf size lo' hi'.
Proof. unfold written. intros (? & ? & ?) ? ?. repeat split; (assumption || lia). Qed.

Lemma varint_groups_length (n : nat) (value : Z) :
  (1 <= length (varint_groups (S n) value) <= S n)%nat.
Proof.
  revert value. induction n as [|n IH]; intros value.
  - cbn. destruct (value <? 128); cbn; lia.
  - change (varint_groups (S (S n)) value)
      with (if value <? 128 then [value]
            else Z.lor (Z.land value 127) 128 :: varint_groups (S n) (Z.shiftr value 7)).
    destruct (value <? 128); cbn [length]; [lia|].
    specialize (IH (Z.shiftr value 7)). lia.
Qed.

Lemma varint_bytes_length (value : Z) :
  1 <= Z.of_nat (length (varint_bytes value)) <= 10.
Proof.
  unfold varint_bytes. pose proof (varint_groups_length 9 (u64 value)). lia.
Qed.

Lemma written_pb_encode_varint (value : Z) (buf : pb_buffer_t) (size lo hi : Z) :
  written buf size lo hi ->
  hi + 10 <= size ->
  written (pb_encode_varint value buf) size (lo + 1) (hi + 10).
Proof.
  intros Hw Hfit. unfold pb_encode_varint.
  pose proof (varint_bytes_length value) as Hlen.
  eapply written_weaken.
  - eapply written_pb_write; [exact Hw | reflexivity | lia].
  - lia.
  - lia.
Qed.

Lemma written_two_varints (v1 v2 : Z) (buf : pb_buffer_t) (size lo hi : Z) :
  written buf size lo hi ->
  hi + 20 <= size ->
  written (pb_encode_varint v2 (pb_encode_varint v1 buf)) size (lo + 2) (hi + 20).
Proof.
  intros Hw Hfit.
  eapply written_weaken.
  - apply written_pb_encode_varint; [apply written_pb_encode_varint; [exact Hw|]|]; lia.
  - lia.
  - lia.
Qed.

Lemma written_pb_encode_bytes (field_num : Z) (bytes : list Z) (buf : pb_buffer_t)
    (size lo hi n : Z) :
  written buf size lo hi ->
  Z.of_nat (length bytes) = n ->
  hi + 20 + n <= size ->
  written (pb_encode_bytes field_num bytes buf) size (lo + 2 + n) (hi + 20 + n).
Proof.
  intros Hw Hn Hfit. unfold pb_encode_bytes.
  eapply written_pb_write; [|exact Hn|lia].
  apply written_two_varints; [exact Hw | lia].
Qed.

Lemma written_encode_ble_advertisement (size : Z) (adv : esphome_ble_advertisement_t) :
  (length (pb_data adv) <= Z.to_nat ESPHOME_MAX_ADV_DATA)%nat ->
  142 <= size ->
  written (encode_ble_advertisement size adv) size 8 142.
Proof.
  intros Hdata Hsize. unfold encode_ble_advertisement.
  assert (written (pb_buffer_init_write size) size 0 0) as H0 by (by repeat split).
  set (bytes := take (Z.to_nat (pb_data_len adv)) (pb_data adv)).
  assert (Z.of_nat (length bytes) <= 62) as Hn.
  { subst bytes. rewrite length_take. unfold ESPHOME_MAX_ADV_DATA in Hdata. lia. }
  unfold pb_encode_uint32, pb_encode_sint32, pb_encode_uint64.
  pose proof (written_two_varints (PB_FIELD_TAG 1 PB_WIRE_TYPE_VARINT)
                (u64 (pb_address adv)) _ _ _ _ H0 ltac:(lia)) as H1.
  pose proof (written_two_varints (PB_FIELD_TAG 2 PB_WIRE_TYPE_VARINT)
                (u32 (Z.lxor (Z.shiftl (pb_rssi adv) 1) (Z.shiftr (pb_rssi adv) 31)))
                _ _ _ _ H1 ltac:(lia)) as H2.
  pose proof (written_two_varints (PB_FIELD_TAG 3 PB_WIRE_TYPE_VARINT)
                (u32 (pb_address_type adv)) _ _ _ _ H2 ltac:(lia)) as H3.
  pose proof (written_pb_encode_bytes 4 bytes _ _ _ _ _ H3 eq_refl ltac:(lia)) as H4.
  eapply written_weaken; [exact H4 | lia | lia].
Qed.

Lemma written_encode_ble_fold (size : Z) (advs : list esphome_ble_advertisement_t)
    (buf : pb_buffer_t) (lo hi : Z) :
  Forall (fun adv => length (pb_data adv) = Z.to_nat ESPHOME_MAX_ADV_DATA) advs ->
  written buf size lo hi ->
  hi + 162 * Z.of_nat (length advs) <= size ->
  0 <= hi ->
  written
    (foldl (fun buf adv =>
              let sub := encode_ble_advertisement size adv in
              if buf_error sub
              then {| buf_data := buf_data buf; buf_size := buf_size buf;
                      buf_error := true |}
              else pb_encode_bytes 1 (buf_data sub) buf)
           buf advs)
    size (lo + 10 * Z.of_nat (length advs)) (hi + 162 * Z.of_nat (length advs)).
Proof.
  intros Hdata. revert buf lo hi.
  induction Hdata as [|adv advs Hadv Hadvs IH]; intros buf lo hi Hw Hfit Hhi.
  - cbn. eapply written_weaken; [exact Hw | lia | lia].
  - cbn [foldl length] in *.
    destruct (written_encode_ble_advertisement size adv) as (Herr & _ & Hlen);
      [lia | lia |].
    rewrite Herr.
    pose proof (written_pb_encode_bytes 1 (buf_data (encode_ble_advertisement size adv))
                  buf size lo hi _ Hw eq_refl ltac:(lia)) as H1.
    pose proof (IH _ _ _ H1 ltac:(lia) ltac:(lia)) as H2.
    eapply written_weaken; [exact H2 | lia | lia].
Qed.

(** A batch of a well-formed server always encodes: up to 16
    advertisements of up to 62 bytes stay below the 4096 bytes of the
    buffer [flush_ble_batch] gives the encoder. *)
Lemma spec_encode_ble_advertisements_fits (server : esphome_api_server) :
  server_wf server ->
  count (ble_batch server) <> 0 ->
  let payload :=
    ProtoC.esphome_encode_ble_advertisements ESPHOME_MAX_MESSAGE_SIZE (ble_batch server) in
  payload <> [] /\ Z.of_nat (length payload) <= 2592.
Proof.
  intros [Hclients Hadvs Hdata Hcount] Hne. cbv zeta.
  unfold ProtoC.esphome_encode_ble_advertisements.
  set (advs := take (Z.to_nat (count (ble_batch server))) (advertisements (ble_batch server))).
  assert (length advs = Z.to_nat (count (ble_batch server))) as Hlen.
  { subst advs. rewrite length_take. unfold ESPHOME_MAX_ADV_BATCH in *. lia. }
  assert (Forall (fun adv => length (pb_data adv) = Z.to_nat ESPHOME_MAX_ADV_DATA) advs)
    as Hdata'.
  { subst advs. by apply Forall_take. }
  destruct (written_encode_ble_fold ESPHOME_MAX_MESSAGE_SIZE advs
              (pb_buffer_init_write ESPHOME_MAX_MESSAGE_SIZE) 0 0)
    as (Herr & _ & Hbounds);
    [ exact Hdata' | by repeat split
    | unfold ESPHOME_MAX_ADV_BATCH, ESPHOME_MAX_MESSAGE_SIZE in *; lia | lia |].
  unfold ESPHOME_MAX_ADV_BATCH in *.
  unfold pb_result. rewrite Herr. split; [|lia].
  intros Hnil. rewrite Hnil in Hbounds. cbn in Hbounds. lia.
Qed.

Lemma spec_frame_message_fits (out_size msg_type : Z) (payload : list Z) :
  Z.of_nat (length (frame_header msg_type payload ++ payload)) <= out_size ->
  ProtoC.esphome_frame_message out_size msg_type payload =
  frame_header msg_type payload ++ payload.
Proof.
  unfold ProtoC.esphome_frame_message, frame_header, pb_encode_varint.
  set (ty := varint_bytes (u16 msg_type)).
  set (len := varint_bytes _).
  rewrite !length_app. cbn [length]. intros Hfit.
  unfold pb_buffer_init_write.
  rewrite (pb_write_fits [0]) by fits. cbn [buf_data buf_size].
  rewrite (pb_write_fits len) by fits. cbn [buf_data buf_size].
  rewrite (pb_write_fits ty) by fits. cbn [buf_data buf_size].
  rewrite (pb_write_fits payload) by fits.
  unfold pb_result. cbn. by rewrite <- !app_assoc.
Qed.

Lemma pb_write_error (bytes : list Z) (buf : pb_buffer_t) :
  buf_error buf = true -> buf_error (pb_write bytes buf) = true.
Proof. intros H. unfold pb_write. by rewrite H. Qed.

Lemma pb_write_cases (bytes : list Z) (buf : pb_buffer_t) :
  buf_error (pb_write bytes buf) = true \/
  (buf_error buf = false /\
   Z.of_nat (length (buf_data buf)) + Z.of_nat (length bytes) <= buf_size buf).
Proof.
  unfold pb_write. destruct (buf_error buf) eqn:E; [by left|].
  destruct (Z.leb_spec (Z.of_nat (length (buf_data buf)) + Z.of_nat (length bytes))
                       (buf_size buf)); [by right | by left].
Qed.

(** A frame that was built is the header followed by the payload. *)
Lemma spec_frame_message_built (out_size msg_type : Z) (payload : list Z) :
  ProtoC.esphome_frame_message out_size msg_type payload <> [] ->
  ProtoC.esphome_frame_message out_size msg_type payload =
  frame_header msg_type payload ++ payload.
Proof.
  intros Hne.
  destruct (Z.le_gt_cases (Z.of_nat (length (frame_header msg_type payload ++ payload)))
                          out_size) as [Hfit|Hover].
  { by apply spec_frame_message_fits. }
  exfalso. apply Hne. clear Hne.
  revert Hover.
  unfold ProtoC.esphome_frame_message, frame_header, pb_encode_varint.
  set (ty := varint_bytes (u16 msg_type)).
  set (len := varint_bytes _).
  rewrite !length_app. cbn [length]. intros Hover.
  unfold pb_result.
  set (b1 := pb_write [0] _). set (b2 := pb_write len b1).
  set (b3 := pb_write ty b2). set (b4 := pb_write payload b3).
  destruct (buf_error b4) eqn:E4; [reflexivity|]. exfalso.
  destruct (pb_write_cases payload b3) as [H|[E3 H4]]; [fold b4 in H; congruence|].
  destruct (pb_write_cases ty b2) as [H|[E2 H3]]; [fold b3 in H; congruence|].
  destruct (pb_write_cases len b1) as [H|[E1 H2]]; [fold b2 in H; congruence|].
  destruct (pb_write_cases [0] (pb_buffer_init_write out_size)) as [H|[E0 H1]];
    [fold b1 in H; congruence|].
  subst b3. rewrite (pb_write_fits ty b2) in H4 by assumption.
  subst b2. rewrite (pb_write_fits len b1) in H4 by assumption.
  subst b1. rewrite (pb_write_fits [0]) in H4 by assumption.
  unfold pb_buffer_init_write in H4. cbn [buf_data buf_size] in H4.
  rewrite !length_app in H4. cbn [length] in H4. lia.
Qed.

Lemma spec_frame_message_nonempty (out_size msg_type : Z) (payload : list Z) :
  Z.of_nat (length payload) + 21 <= out_size ->
  ProtoC.esphome_frame_message out_size msg_type payload <> [].
Proof.
  intros Hfit. rewrite spec_frame_message_fits.
  - unfold frame_header. done.
  - unfold frame_header. rewrite !length_app. cbn [length].
    pose proof (varint_bytes_length (u16 msg_type)).
    pose proof (varint_bytes_length
                  (Z.of_nat (length (varint_bytes (u16 msg_type))) +
                   Z.of_nat (length payload))).
    lia.
Qed.

(** ** The codec of the specification: varints and the frame header *)

Lemma continuation_byte_low (v : Z) :
  Z.land (Z.lor (Z.land v 127) 128) 127 = Z.land v 127.
Proof.
  rewrite Z.land_lor_distr_l, <- Z.land_assoc.
  change (Z.land 127 127) with 127. change (Z.land 128 127) with 0.
  by rewrite Z.lor_0_r.
Qed.

Lemma continuation_byte_high (v : Z) :
  Z.land (Z.lor (Z.land v 127) 128) 128 = 128.
Proof.
  rewrite Z.land_lor_distr_l, <- Z.land_assoc.
  change (Z.land 127 128) with 0. by rewrite Z.land_0_r.
Qed.

Lemma last_byte_low (v : Z) : 0 <= v < 128 -> Z.land v 127 = v.
Proof.
  intros Hv. change 127 with (Z.ones 7). rewrite Z.land_ones by lia.
  apply Z.mod_small. change (2 ^ 7) with 128. lia.
Qed.

Lemma last_byte_high (v : Z) : 0 <= v < 128 -> Z.land v 128 = 0.
Proof.
  intros Hv. rewrite <- (last_byte_low v Hv), <- Z.land_assoc.
  change (Z.land 127 128) with 0. apply Z.land_0_r.
Qed.

(** One group added to the accumulator of [decode_groups]. *)
Lemma decode_accumulate (acc x shift : Z) :
  0 <= shift -> 0 <= acc < 2 ^ shift -> 0 <= x ->
  acc + x * 2 ^ shift < 2 ^ 64 ->
  u64 (Z.lor acc (Z.shiftl x shift)) = acc + x * 2 ^ shift.
Proof.
  intros Hshift Hacc Hx Hlt.
  rewrite Z.shiftl_mul_pow2, Z.lor_comm, lor_high_low by lia.
  unfold u64. rewrite Z.mod_small; [lia|].
  assert (0 <= x * 2 ^ shift) by (apply Z.mul_nonneg_nonneg; lia). lia.
Qed.

Lemma decode_groups_encode (n : nat) :
  forall v shift acc rest,
    0 <= v < 2 ^ (7 * Z.of_nat (S n)) ->
    0 <= shift ->
    0 <= acc < 2 ^ shift ->
    acc + v * 2 ^ shift < 2 ^ 64 ->
    decode_groups (S n) shift acc (varint_groups (S n) v ++ rest) =
    Some (acc + v * 2 ^ shift, Z.of_nat (length (varint_groups (S n) v)), rest).
Proof.
  induction n as [|n IH]; intros v shift acc rest Hv Hshift Hacc Hlt.
  - change (2 ^ (7 * Z.of_nat 1)) with 128 in Hv.
    cbn [varint_groups]. destruct (Z.ltb_spec v 128) as [_|?]; [|lia].
    cbn [app decode_groups length].
    rewrite last_byte_low, last_byte_high by lia. cbn [Z.eqb].
    by rewrite decode_accumulate by lia.
  - change (varint_groups (S (S n)) v)
      with (if v <? 128 then [v]
            else Z.lor (Z.land v 127) 128 :: varint_groups (S n) (Z.shiftr v 7)).
    destruct (Z.ltb_spec v 128) as [Hsmall|Hbig].
    + cbn [app decode_groups length].
      rewrite last_byte_low, last_byte_high by lia. cbn [Z.eqb].
      by rewrite decode_accumulate by lia.
    + change (decode_groups (S (S n)) shift acc
                ((Z.lor (Z.land v 127) 128 :: varint_groups (S n) (Z.shiftr v 7)) ++ rest))
        with (let acc' := u64 (Z.lor acc (Z.shiftl (Z.land (Z.lor (Z.land v 127) 128) 127)
                                                    shift)) in
              if Z.land (Z.lor (Z.land v 127) 128) 128 =? 0
              then Some (acc', 1, varint_groups (S n) (Z.shiftr v 7) ++ rest)
              else
                match decode_groups (S n) (shift + 7) acc'
                        (varint_groups (S n) (Z.shiftr v 7) ++ rest) with
                | Some (v', k, rest') => Some (v', k + 1, rest')
                | None => None
                end).
      cbv zeta. rewrite continuation_byte_low, continuation_byte_high.
      change (128 =? 0) with false. cbv iota.
      change 127 with (Z.ones 7). rewrite Z.land_ones by lia.
      rewrite Z.shiftr_div_pow2 by lia. change (2 ^ 7) with 128.
      assert (0 < 2 ^ shift) as Hp by (apply Z.pow_pos_nonneg; lia).
      assert (2 ^ (shift + 7) = 2 ^ shift * 128) as Hp7
        by (rewrite Z.pow_add_r by lia; reflexivity).
      assert (2 ^ (7 * Z.of_nat (S (S n))) = 2 ^ (7 * Z.of_nat (S n)) * 128) as Hq7.
      { replace (7 * Z.of_nat (S (S n))) with (7 * Z.of_nat (S n) + 7) by lia.
        rewrite Z.pow_add_r by lia. reflexivity. }
      pose proof (Z.div_mod v 128 ltac:(lia)) as Hdm.
      pose proof (Z.mod_pos_bound v 128 ltac:(lia)) as Hmod.
      set (x := v mod 128) in *. set (d := v / 128) in *.
      assert (0 <= d) as Hd by lia.
      assert (v * 2 ^ shift = x * 2 ^ shift + d * (2 ^ shift * 128)) as Hsplit
        by (rewrite Hdm; ring).
      assert (0 <= x * 2 ^ shift) by (apply Z.mul_nonneg_nonneg; lia).
      assert (0 <= d * (2 ^ shift * 128)) by (apply Z.mul_nonneg_nonneg; lia).
      assert (x * 2 ^ shift <= 127 * 2 ^ shift)
        by (apply Z.mul_le_mono_nonneg_r; lia).
      rewrite decode_accumulate by lia.
      rewrite IH; [| lia | lia | lia | rewrite Hp7; lia].
      cbn [length]. rewrite Hp7. do 3 f_equal; lia.
Qed.

Lemma pb_decode_varint_encode (v : Z) (rest : list Z) :
  pb_decode_varint (varint_bytes v ++ rest) =
  Some (u64 v, Z.of_nat (length (varint_bytes v)), rest).
Proof.
  unfold pb_decode_varint, varint_bytes.
  assert (0 <= u64 v < 2 ^ 64) as Hv by (apply Z.mod_pos_bound; lia).
  rewrite decode_groups_encode.
  - change (2 ^ 0) with 1. do 3 f_equal. lia.
  - change (2 ^ (7 * Z.of_nat 10)) with (2 ^ 64 * 64). lia.
  - lia.
  - change (2 ^ 0) with 1. lia.
  - change (2 ^ 0) with 1. lia.
Qed.

Lemma decode_groups_prefix (n : nat) :
  forall v shift acc q r,
    r <> [] ->
    varint_groups n v = q ++ r ->
    decode_groups n shift acc q = None.
Proof.
  induction n as [|n IH]; intros v shift acc q r Hr Heq; [reflexivity|].
  destruct q as [|b q]; [reflexivity|].
  cbn [varint_groups] in Heq.
  destruct (Z.ltb_spec v 128) as [Hsmall|Hbig].
  - destruct q; [destruct r; done | destruct q; done].
  - injection Heq as <- Heq.
    cbn [decode_groups]. rewrite continuation_byte_high.
    change (128 =? 0) with false. cbv iota.
    by rewrite (IH _ _ _ _ _ Hr Heq).
Qed.

Lemma pb_decode_varint_prefix (v : Z) (q r : list Z) :
  r <> [] -> varint_bytes v = q ++ r -> pb_decode_varint q = None.
Proof. intros Hr Heq. by eapply decode_groups_prefix. Qed.

Lemma frame_header_length (msg_type : Z) (payload : list Z) :
  3 <= Z.of_nat (length (frame_header msg_type payload)) <= 21.
Proof.
  unfold frame_header. rewrite !length_app. cbn [length].
  pose proof (varint_bytes_length (u16 msg_type)).
  pose proof (varint_bytes_length
                (Z.of_nat (length (varint_bytes (u16 msg_type))) +
                 Z.of_nat (length payload))).
  lia.
Qed.

(** The header of a frame decodes to its own length, the length of the
    payload and the message type, whatever follows it. *)
Lemma spec_decode_frame_header_complete (msg_type : Z) (payload rest : list Z) :
  Z.of_nat (length payload) < 2 ^ 32 ->
  ProtoC.esphome_decode_frame_header (frame_header msg_type payload ++ rest) =
  (Z.of_nat (length (frame_header msg_type payload)),
   Z.of_nat (length payload), u16 msg_type).
Proof.
  intros Hlen. unfold frame_header at 1.
  pose proof (varint_bytes_length (u16 msg_type)) as Hty.
  set (declared := Z.of_nat (length (varint_bytes (u16 msg_type))) +
                   Z.of_nat (length payload)).
  rewrite <- !app_assoc. cbn [app ProtoC.esphome_decode_frame_header Z.eqb].
  rewrite pb_decode_varint_encode, pb_decode_varint_encode.
  assert (u64 declared = declared) as ->.
  { apply Z.mod_small. subst declared.
    change (2 ^ 32) with 4294967296 in Hlen.
    change (2 ^ 64) with 18446744073709551616. lia. }
  destruct (Z.ltb_spec declared (Z.of_nat (length (varint_bytes (u16 msg_type)))))
    as [Hbad|_]; [subst declared; lia|].
  f_equal; [f_equal|].
  - unfold frame_header. fold declared. rewrite !length_app. cbn [length]. lia.
  - subst declared.
    replace (_ + _ - _) with (Z.of_nat (length payload)) by lia.
    apply Z.mod_small. lia.
  - unfold u64, u16.
    pose proof (Z.mod_pos_bound msg_type (2 ^ 16) ltac:(lia)) as Hb.
    rewrite (Z.mod_small (msg_type mod 2 ^ 16) (2 ^ 64)); [apply Z.mod_mod; lia|].
    change (2 ^ 16) with 65536 in *. change (2 ^ 64) with 18446744073709551616. lia.
Qed.

(** A proper prefix of the header of a frame does not decode. *)
Lemma spec_decode_frame_header_prefix (msg_type : Z) (payload q r : list Z) :
  r <> [] ->
  frame_header msg_type payload = q ++ r ->
  ProtoC.esphome_decode_frame_header q = (0, 0, 0).
Proof.
  intros Hr Heq. destruct q as [|b q]; [reflexivity|].
  unfold frame_header in Heq. cbn [app] in Heq. injection Heq as <- Heq.
  cbn [ProtoC.esphome_decode_frame_header Z.eqb].
  apply app_eq_inv in Heq as [(k & Hlen & Hty)|(k & -> & Hty)].
  - destruct k as [|x k].
    + rewrite app_nil_r in Hlen. subst q.
      by rewrite <- (app_nil_r (varint_bytes _)), pb_decode_varint_encode.
    + by rewrite (pb_decode_varint_prefix _ q (x :: k) ltac:(done) Hlen).
  - rewrite pb_decode_varint_encode.
    by rewrite (pb_decode_varint_prefix _ k r Hr Hty).
Qed.

Lemma decode_groups_app (n : nat) :
  forall shift acc q v k rest more,
    decode_groups n shift acc q = Some (v, k, rest) ->
    decode_groups n shift acc (q ++ more) = Some (v, k, rest ++ more).
Proof.
  induction n as [|n IH]; intros shift acc q v k rest more Hdec; [done|].
  destruct q as [|b q]; [done|].
  cbn [app decode_groups] in *.
  destruct (Z.land b 128 =? 0).
  - by injection Hdec as <- <- <-.
  - destruct (decode_groups n (shift + 7) _ q) as [[[v' k'] rest']|] eqn:Hrec; [|done].
    injection Hdec as <- <- <-.
    by rewrite (IH _ _ _ _ _ _ more Hrec).
Qed.

(** A header the decoder has accepted stays what it is when more bytes
    arrive. *)
Lemma spec_decode_frame_header_stable (input rest : list Z)
    (header_len msg_len msg_type : Z) :
  ProtoC.esphome_decode_frame_header input = (header_len, msg_len, msg_type) ->
  header_len <> 0 ->
  ProtoC.esphome_decode_frame_header (input ++ rest) = (header_len, msg_len, msg_type).
Proof.
  intros Hdec Hne. destruct input as [|preamble input]; [by injection Hdec as <-|].
  cbn [app ProtoC.esphome_decode_frame_header] in *.
  destruct (preamble =? 0); [|by injection Hdec as <-].
  unfold pb_decode_varint in *.
  destruct (decode_groups 10 0 0 input) as [[[declared n1] rest1]|] eqn:H1;
    [|by injection Hdec as <-].
  rewrite (decode_groups_app _ _ _ _ _ _ _ rest H1).
  destruct (decode_groups 10 0 0 rest1) as [[[ty n2] rest2]|] eqn:H2;
    [|by injection Hdec as <-].
  by rewrite (decode_groups_app _ _ _ _ _ _ _ rest H2).
Qed.

End ProtoFacts.

(** ** Frame reassembly *)

Section Reassembly.
Context {proto : EsphomeProto} {platform : Platform}.

Lemma send_message_trace_cases (client : client_connection_t) (msg_type : Z)
    (payload : list Z) :
  (send_message client msg_type payload).2 = [] \/
  exists frame sent, (send_message client msg_type payload).2 = [EvSend (fd client) frame sent].
Proof.
  unfold send_message. repeat case_match; cbn; eauto.
Qed.

Lemma run_handler_recv (h : handler) (server : esphome_api_server)
    (client : client_connection_t) (payload : list Z) :
  let client' := (run_handler h server client payload).1 in
  recv_buffer client' = recv_buffer client /\
  recv_pos client' = recv_pos client /\
  thread_running client' = thread_running client.
Proof.
  destruct h; cbn;
    unfold handle_hello_request, handle_connect_request, handle_device_info_request,
      handle_subscribe_ble_advertisements;
    repeat case_match; done.
Qed.

Lemma run_handler_dispatched (h : handler) (server : esphome_api_server)
    (client : client_connection_t) (payload : list Z) :
  dispatched (run_handler h server client payload).2 = [] /\
  Forall (fun e => forall sock, e <> EvClose sock) (run_handler h server client payload).2.
Proof.
  assert (forall c t p, dispatched (send_message c t p).2 = [] /\
                        Forall (fun e => forall sock, e <> EvClose sock)
                               (send_message c t p).2) as Hsend.
  { intros c t p.
    destruct (send_message_trace_cases c t p) as [-> | (frame & sent & ->)].
    - done.
    - split; [done|]. by repeat constructor. }
  destruct h; cbn;
    unfold handle_hello_request, handle_connect_request, handle_device_info_request,
      handle_list_entities_request, handle_ping_request,
      handle_subscribe_ble_advertisements;
    repeat case_match; cbn [snd]; try apply Hsend; done.
Qed.

Lemma dispatch_message_spec (server : esphome_api_server) (client : client_connection_t)
    (msg_type : Z) (payload : list Z) :
  let r := dispatch_message server client msg_type payload in
  dispatched r.2 = [(msg_type, payload)] /\
  Forall (fun e => forall sock, e <> EvClose sock) r.2 /\
  recv_buffer r.1 = recv_buffer client /\
  recv_pos r.1 = recv_pos client /\
  fd r.1 = fd client /\
  thread_running r.1 = thread_running client.
Proof.
  cbv zeta.
  pose proof (dispatch_message_fd server client msg_type payload) as Hfd.
  unfold dispatch_message in *.
  pose proof (run_handler_recv (select_handler msg_type) server client payload) as Hrecv.
  pose proof (run_handler_dispatched (select_handler msg_type) server client payload)
    as [Hdisp Hclose].
  cbv zeta in Hrecv.
  destruct (run_handler _ _ _ _) as [c tr]. cbn [fst snd] in *.
  destruct Hrecv as (? & ? & ?).
  repeat split; try assumption.
  - change (dispatched (EvDispatch msg_type payload :: tr))
      with ((msg_type, payload) :: dispatched tr).
    by rewrite Hdisp.
  - constructor; [done | assumption].
Qed.

Lemma handle_client_data_unfold (fuel : nat) (server : esphome_api_server)
    (client : client_connection_t) :
  handle_client_data (S fuel) server client =
  if negb (0 <? recv_pos client) then Some (client, [])
  else
    let '(header_len, msg_len, msg_type) :=
      esphome_decode_frame_header (valid_bytes client) in
    let msg_len := u32 msg_len in
    let msg_type := u16 msg_type in
    if header_len =? 0 then Some (client, [])
    else
      let total_len := u32 (header_len + msg_len) in
      if recv_pos client <? total_len then Some (client, [])
      else
        let payload :=
          take (Z.to_nat msg_len) (drop (Z.to_nat header_len) (recv_buffer client)) in
        let '(client, tr) := dispatch_message server client msg_type payload in
        let client :=
          set_recv (memcpy (recv_buffer client)
                           (drop (Z.to_nat total_len) (recv_buffer client))
                           (recv_pos client - total_len))
                   (recv_pos client - total_len) client in
        match handle_client_data fuel server client with
        | Some (client, tr') => Some (client, tr ++ tr')
        | None => None
        end.
Proof. reflexivity. Qed.

Lemma handle_client_data_empty (fuel : nat) (server : esphome_api_server)
    (client : client_connection_t) :
  recv_pos client <= 0 -> handle_client_data fuel server client = Some (client, []).
Proof.
  intros Hpos. destruct fuel; cbn;
    destruct (Z.ltb_spec 0 (recv_pos client)); (lia || reflexivity).
Qed.

Lemma holds_valid_bytes (client : client_connection_t) (got : list Z) :
  holds client got -> valid_bytes client = got.
Proof.
  intros (Hpos & Htake & _). unfold valid_bytes. by rewrite Hpos, Nat2Z.id.
Qed.

Lemma holds_recv_store (client : client_connection_t) (got data : list Z) :
  holds client got ->
  Z.of_nat (length got) + Z.of_nat (length data) <= RECV_BUFFER_SIZE ->
  holds (recv_store client data) (got ++ data).
Proof.
  intros (Hpos & Htake & Hlen) Hroom. unfold holds, recv_store, memcpy.
  cbn [recv_pos recv_buffer set_recv].
  rewrite Hpos, !Nat2Z.id, Htake, length_app, (take_ge data) by lia.
  split; [lia|].
  rewrite (app_assoc got). split.
  - rewrite <- length_app. apply take_app_length.
  - rewrite !length_app, !length_drop. unfold RECV_BUFFER_SIZE in *. lia.
Qed.

Lemma u32_small (z : Z) : 0 <= z <= RECV_BUFFER_SIZE + RECV_BUFFER_SIZE -> u32 z = z.
Proof.
  intros Hz. apply Z.mod_small. unfold RECV_BUFFER_SIZE in Hz.
  change (2 ^ 32) with 4294967296. lia.
Qed.

(** While the frame is incomplete, [handle_client_data] leaves the client
    as it is. *)
Lemma handle_client_data_waits (fuel : nat) (server : esphome_api_server)
    (client : client_connection_t) (header payload got more : list Z) (msg_type : Z) :
  decodes_frame header msg_type payload ->
  Z.of_nat (length (header ++ payload)) <= RECV_BUFFER_SIZE ->
  holds client got ->
  more <> [] ->
  got ++ more = header ++ payload ->
  handle_client_data (S fuel) server client = Some (client, []).
Proof.
  intros (Hne & Hcomplete & Hprefix) Hsize Hholds Hmore Heq.
  rewrite handle_client_data_unfold, (holds_valid_bytes _ _ Hholds).
  destruct Hholds as (Hpos & _ & _).
  destruct (Z.ltb_spec 0 (recv_pos client)) as [Hpos0|]; [|reflexivity]. cbn [negb].
  rewrite length_app in Hsize.
  assert ((exists k, got = header ++ k /\ payload = k ++ more) \/
          (exists k, k <> [] /\ header = got ++ k)) as Hcases.
  { apply app_eq_inv in Heq as [(k & Hgot & Hpay)|(k & Hhdr & Hmore')].
    - left. by exists k.
    - destruct k as [|x k].
      + left. exists []. rewrite app_nil_r in Hhdr. cbn in Hmore'. subst.
        by rewrite app_nil_r.
      + right. by exists (x :: k). }
  destruct Hcases as [(k & Hgot & Hpay) | (k & Hk & Hhdr)]; subst.
  - rewrite Hcomplete.
    destruct (Z.eqb_spec (Z.of_nat (length header)) 0) as [E|_];
      [destruct header; [done | cbn in E; lia]|].
    rewrite !length_app in *.
    assert (0 < length more)%nat by (destruct more; [done | cbn; lia]).
    rewrite (u32_small (Z.of_nat (length k + length more))) by lia.
    rewrite u32_small by lia.
    destruct (Z.ltb_spec (recv_pos client)
                         (Z.of_nat (length header) +
                          Z.of_nat (length k + length more))); [reflexivity | lia].
  - pose proof (Hprefix got k Hk eq_refl) as Hzero.
    destruct (esphome_decode_frame_header got) as [[hl ml] ty]. cbn in Hzero. subst hl.
    reflexivity.
Qed.

(** Once the whole frame is there, [handle_client_data] dispatches it and
    empties the buffer. *)
Lemma handle_client_data_dispatches (fuel : nat) (server : esphome_api_server)
    (client : client_connection_t) (header payload : list Z) (msg_type : Z) :
  decodes_frame header msg_type payload ->
  Z.of_nat (length (header ++ payload)) <= RECV_BUFFER_SIZE ->
  holds client (header ++ payload) ->
  exists client' tr,
    handle_client_data (S fuel) server client = Some (client', tr) /\
    dispatched tr = [(u16 msg_type, payload)] /\
    Forall (fun e => forall sock, e <> EvClose sock) tr /\
    holds client' [] /\
    fd client' = fd client.
Proof.
  intros (Hne & Hcomplete & Hprefix) Hsize Hholds.
  rewrite handle_client_data_unfold, (holds_valid_bytes _ _ Hholds).
  destruct Hholds as (Hpos & Htake & Hlen).
  rewrite length_app in *.
  assert (0 < length header)%nat by (destruct header; [done | cbn; lia]).
  destruct (Z.ltb_spec 0 (recv_pos client)) as [_|]; [|lia]. cbn [negb].
  rewrite <- (app_nil_r (header ++ payload)), <- app_assoc, Hcomplete.
  destruct (Z.eqb_spec (Z.of_nat (length header)) 0) as [E|_]; [lia|].
  rewrite (u32_small (Z.of_nat (length payload))) by lia.
  rewrite u32_small by lia.
  destruct (Z.ltb_spec (recv_pos client)
                       (Z.of_nat (length header) + Z.of_nat (length payload)))
    as [|_]; [lia|].
  rewrite !Nat2Z.id.
  assert (take (length payload) (drop (length header) (recv_buffer client)) = payload)
    as ->.
  { rewrite take_drop_commute, Htake. by rewrite drop_app_length. }
  pose proof (dispatch_message_spec server client (u16 msg_type) payload) as Hd.
  cbv zeta in Hd.
  destruct (dispatch_message server client (u16 msg_type) payload) as [c1 tr1].
  cbn [fst snd] in Hd. destruct Hd as (Hdisp & Hclose & Hbuf & Hpos1 & Hfd & _).
  rewrite Hpos1, Hpos.
  replace (Z.of_nat (length header + length payload) -
           (Z.of_nat (length header) + Z.of_nat (length payload))) with 0 by lia.
  rewrite handle_client_data_empty by (cbn; lia).
  eexists _, _. split; [reflexivity|].
  rewrite app_nil_r. repeat split; try assumption.
  cbn [recv_buffer set_recv]. unfold memcpy. cbn [Z.to_nat take drop app].
  by rewrite Hbuf.
Qed.

(** The receive loop while the frame stays incomplete: nothing is
    dispatched and nothing is consumed. *)
Lemma client_thread_loop_waits (fuel : nat) (server : esphome_api_server)
    (header payload : list Z) (msg_type : Z) (chunks : list (list Z)) :
  forall (client : client_connection_t) (got more : list Z),
    decodes_frame header msg_type payload ->
    Z.of_nat (length (header ++ payload)) <= RECV_BUFFER_SIZE ->
    running server = true ->
    0 <= fd client ->
    holds client got ->
    Forall (fun chunk => chunk <> []) chunks ->
    more <> [] ->
    (got ++ concat chunks) ++ more = header ++ payload ->
    exists client',
      client_thread_loop (S fuel) (map RecvData chunks) server client =
        Some (client', [], false) /\
      holds client' (got ++ concat chunks) /\
      fd client' = fd client.
Proof.
  induction chunks as [|chunk chunks IH];
    intros client got more Hframe Hsize Hrun Hfd Hholds Hchunks Hmore Heq.
  - exists client. cbn [map concat client_thread_loop].
    rewrite Hrun. destruct (Z.leb_spec 0 (fd client)); [|lia].
    rewrite app_nil_r. done.
  - apply Forall_cons in Hchunks as [Hchunk Hchunks].
    cbn [map concat] in *.
    assert (Z.of_nat (length got) + Z.of_nat (length chunk) +
            Z.of_nat (length (concat chunks)) + Z.of_nat (length more) =
            Z.of_nat (length (header ++ payload))) as Hlens.
    { rewrite <- Heq, !length_app. lia. }
    assert (0 < length chunk)%nat by (destruct chunk; [done | cbn; lia]).
    assert (0 < length more)%nat by (destruct more; [done | cbn; lia]).
    pose proof Hholds as (Hpos & _ & _).
    change (client_thread_loop (S fuel) (RecvData chunk :: map RecvData chunks)
              server client)
      with (if negb (running server && (0 <=? fd client)) then Some (client, [], true)
            else
              let room := RECV_BUFFER_SIZE - recv_pos client in
              let data := take (Z.to_nat room) chunk in
              let received := Z.of_nat (length data) in
              if received <=? 0 then Some (client, [], true)
              else
                let client := recv_store client data in
                match handle_client_data (S fuel) server client with
                | None => None
                | Some (client, tr) =>
                  match client_thread_loop (S fuel) (map RecvData chunks) server client
                  with
                  | None => None
                  | Some (client, tr', exited) => Some (client, tr ++ tr', exited)
                  end
                end).
    rewrite Hrun. destruct (Z.leb_spec 0 (fd client)); [|lia]. cbn [andb negb].
    cbv zeta. rewrite (take_ge chunk) by lia.
    destruct (Z.leb_spec (Z.of_nat (length chunk)) 0); [lia|].
    assert (holds (recv_store client chunk) (got ++ chunk)) as Hholds'
      by (apply holds_recv_store; [assumption | lia]).
    rewrite (handle_client_data_waits fuel server _ header payload (got ++ chunk)
               (concat chunks ++ more) msg_type Hframe Hsize Hholds');
      [| destruct (concat chunks); [by cbn | done] | by rewrite <- !app_assoc in * ].
    destruct (IH (recv_store client chunk) (got ++ chunk) more)
      as (client' & -> & Hholds'' & Hfd'); try assumption.
    { by rewrite <- !app_assoc in *. }
    exists client'. rewrite <- app_assoc in Hholds''. done.
Qed.

(** The receive loop up to the chunk that completes the frame: exactly one
    message is dispatched, the one framed. *)
Lemma client_thread_loop_reassembles (fuel : nat) (server : esphome_api_server)
    (header payload : list Z) (msg_type : Z) (chunks : list (list Z)) :
  forall (client : client_connection_t) (got : list Z),
    decodes_frame header msg_type payload ->
    Z.of_nat (length (header ++ payload)) <= RECV_BUFFER_SIZE ->
    running server = true ->
    0 <= fd client ->
    holds client got ->
    Forall (fun chunk => chunk <> []) chunks ->
    chunks <> [] ->
    got ++ concat chunks = header ++ payload ->
    exists client' tr,
      client_thread_loop (S fuel) (map RecvData chunks) server client =
        Some (client', tr, false) /\
      dispatched tr = [(u16 msg_type, payload)] /\
      Forall (fun e => forall sock, e <> EvClose sock) tr /\
      holds client' [] /\
      fd client' = fd client.
Proof.
  induction chunks as [|chunk chunks IH];
    intros client got Hframe Hsize Hrun Hfd Hholds Hchunks Hne Heq; [done|].
  apply Forall_cons in Hchunks as [Hchunk Hchunks].
  cbn [map concat] in *.
  assert (Z.of_nat (length got) + Z.of_nat (length chunk) +
          Z.of_nat (length (concat chunks)) =
          Z.of_nat (length (header ++ payload))) as Hlens.
  { rewrite <- Heq, !length_app. lia. }
  assert (0 < length chunk)%nat by (destruct chunk; [done | cbn; lia]).
  pose proof Hholds as (Hpos & _ & _).
  change (client_thread_loop (S fuel) (RecvData chunk :: map RecvData chunks)
            server client)
    with (if negb (running server && (0 <=? fd client)) then Some (client, [], true)
          else
            let room := RECV_BUFFER_SIZE - recv_pos client in
            let data := take (Z.to_nat room) chunk in
            let received := Z.of_nat (length data) in
            if received <=? 0 then Some (client, [], true)
            else
              let client := recv_store client data in
              match handle_client_data (S fuel) server client with
              | None => None
              | Some (client, tr) =>
                match client_thread_loop (S fuel) (map RecvData chunks) server client
                with
                | None => None
                | Some (client, tr', exited) => Some (client, tr ++ tr', exited)
                end
              end).
  rewrite Hrun. destruct (Z.leb_spec 0 (fd client)); [|lia]. cbn [andb negb].
  cbv zeta. rewrite (take_ge chunk) by lia.
  destruct (Z.leb_spec (Z.of_nat (length chunk)) 0); [lia|].
  assert (holds (recv_store client chunk) (got ++ chunk)) as Hholds'
    by (apply holds_recv_store; [assumption | lia]).
  destruct chunks as [|chunk' chunks].
  - cbn [concat] in Heq. rewrite app_nil_r in Heq. rewrite Heq in Hholds'.
    destruct (handle_client_data_dispatches fuel server _ header payload msg_type
                Hframe Hsize Hholds')
      as (client' & tr & -> & Hdisp & Hclose & Hempty & Hfd').
    cbn [map client_thread_loop]. rewrite Hrun, Hfd'.
    destruct (Z.leb_spec 0 (fd (recv_store client chunk))) as [_|Hbad];
      [|cbn in Hbad; lia].
    cbn [andb negb]. exists client', (tr ++ []). rewrite app_nil_r. done.
  - rewrite (handle_client_data_waits fuel server _ header payload (got ++ chunk)
               (concat (chunk' :: chunks)) msg_type Hframe Hsize Hholds');
      [| apply Forall_cons in Hchunks as [Hc' _]; cbn [concat];
         destruct chunk'; [done | by cbn]
       | by rewrite <- app_assoc ].
    destruct (IH (recv_store client chunk) (got ++ chunk))
      as (client' & tr & -> & Hdisp & Hclose & Hempty & Hfd'); try assumption.
    { done. }
    { by rewrite <- app_assoc. }
    exists client', tr. done.
Qed.

End Reassembly.

(** The codec of the specification decodes the headers it writes. *)
Lemma spec_decodes_frame (msg_type : Z) (payload : list Z) :
  Z.of_nat (length payload) < 2 ^ 32 ->
  decodes_frame (proto := spec_proto)
    (ProtoC.frame_header msg_type payload) (u16 msg_type) payload.
Proof.
  intros Hlen. split; [by unfold ProtoC.frame_header|]. split.
  - intros rest. by apply ProtoFacts.spec_decode_frame_header_complete.
  - intros q r Hr Heq. cbn.
    by rewrite (ProtoFacts.spec_decode_frame_header_prefix msg_type payload q r).
Qed.

(** C1.  Frame reassembly.  Take a frame [esphome_frame_message] has built
    for a 16-bit message type, no longer than the receive buffer, and any
    split of its bytes into non-empty chunks, one byte at a time included.
    The receive loop of a connected client with an empty buffer, given the
    chunks as the results of its [recv] calls, dispatches exactly one
    message, the (message type, payload) framed, and ends with an empty
    buffer; and before the last chunk has arrived nothing is dispatched and
    the buffer holds every byte delivered. *)
Theorem frame_reassembly {platform : Platform} (fuel : nat) (server : esphome_api_server)
    (client : client_connection_t) (out_size msg_type : Z) (payload : list Z)
    (chunks : list (list Z)) :
  let frame := ProtoC.esphome_frame_message out_size msg_type payload in
  frame <> [] ->
  0 <= msg_type < 2 ^ 16 ->
  Z.of_nat (length frame) <= RECV_BUFFER_SIZE ->
  running server = true ->
  0 <= fd client ->
  recv_pos client = 0 ->
  length (recv_buffer client) = Z.to_nat RECV_BUFFER_SIZE ->
  Forall (fun chunk => chunk <> []) chunks ->
  concat chunks = frame ->
  (exists client' tr,
     client_thread_loop (proto := spec_proto) (S fuel) (map RecvData chunks) server client =
       Some (client', tr, false) /\
     dispatched tr = [(msg_type, payload)] /\
     recv_pos client' = 0) /\
  (forall before after,
     chunks = before ++ after ->
     after <> [] ->
     exists client1,
       client_thread_loop (proto := spec_proto) (S fuel) (map RecvData before) server client =
         Some (client1, [], false) /\
       valid_bytes client1 = concat before /\
       recv_pos client1 = Z.of_nat (length (concat before))).
Proof.
  cbv zeta. intros Hbuilt Hty Hsize Hrun Hfd Hpos Hlen Hchunks Hconcat.
  rewrite (ProtoFacts.spec_frame_message_built _ _ _ Hbuilt) in *.
  assert (Z.of_nat (length payload) < 2 ^ 32) as Hpay.
  { rewrite length_app in Hsize. unfold RECV_BUFFER_SIZE in Hsize.
    change (2 ^ 32) with 4294967296. lia. }
  pose proof (spec_decodes_frame msg_type payload Hpay) as Hframe.
  assert (u16 msg_type = msg_type) as Hu16 by (apply Z.mod_small; lia).
  assert (holds client []) as Hholds by done.
  split.
  - assert (chunks <> []) as Hne.
    { intros ->. cbn in Hconcat. unfold ProtoC.frame_header in Hconcat. done. }
    destruct (client_thread_loop_reassembles (proto := spec_proto) fuel server
                (ProtoC.frame_header msg_type payload) payload (u16 msg_type) chunks
                client [] Hframe Hsize Hrun Hfd Hholds Hchunks Hne Hconcat)
      as (client' & tr & Hloop & Hdisp & _ & (Hpos' & _) & _).
    exists client', tr. rewrite !Hu16 in Hdisp.
    split; [exact Hloop|]. split; [exact Hdisp | exact Hpos'].
  - intros before after -> Hafter.
    apply Forall_app in Hchunks as [Hbefore Hafter'].
    rewrite concat_app in Hconcat.
    assert (concat after <> []) as Hmore.
    { destruct after as [|chunk after]; [done|].
      apply Forall_cons in Hafter' as [Hchunk _]. cbn. destruct chunk; done. }
    destruct (client_thread_loop_waits (proto := spec_proto) fuel server
                (ProtoC.frame_header msg_type payload) payload (u16 msg_type) before
                client [] (concat after) Hframe Hsize Hrun Hfd Hholds Hbefore Hmore Hconcat)
      as (client1 & Hloop & Hholds1 & _).
    exists client1. cbn [app] in Hholds1.
    split; [exact Hloop|].
    split; [by apply holds_valid_bytes | by destruct Hholds1].
Qed.

(** A PingRequest frame delivered one byte at a time. *)
Lemma frame_reassembly_witness :
  exists client' tr,
    client_thread_loop (proto := spec_proto) (platform := full_send_platform) 1
      (map RecvData example_chunks) example_server (example_client 5) =
      Some (client', tr, false) /\
    dispatched tr = [(7, [])] /\
    recv_pos client' = 0.
Proof.
  refine (proj1 (frame_reassembly (platform := full_send_platform) 0 example_server
                   (example_client 5) 64 7 [] example_chunks _ _ _ _ _ _ _ _ _)).
  - vm_compute. discriminate.
  - vm_compute. split; [discriminate | reflexivity].
  - vm_compute. discriminate.
  - reflexivity.
  - vm_compute. discriminate.
  - reflexivity.
  - vm_compute. reflexivity.
  - repeat constructor; discriminate.
  - vm_compute. reflexivity.
Defined.

(** ** Oversize frames *)

Section Oversize.
Context {proto : EsphomeProto} {platform : Platform}.

(** [handle_client_data] has no way to fail a connection: whatever the
    decoder reports, the socket stays as it is and nothing is closed. *)
Lemma handle_client_data_keeps_fd (fuel : nat) (server : esphome_api_server) :
  forall (client client' : client_connection_t) (tr : trace),
    handle_client_data fuel server client = Some (client', tr) ->
    fd client' = fd client /\ Forall (fun e => forall sock, e <> EvClose sock) tr.
Proof.
  induction fuel as [|fuel IH]; intros client client' tr Hrun.
  - cbn in Hrun. destruct (negb (0 <? recv_pos client)); [|done].
    by injection Hrun as <- <-.
  - rewrite handle_client_data_unfold in Hrun.
    destruct (negb (0 <? recv_pos client)); [by injection Hrun as <- <-|].
    destruct (esphome_decode_frame_header _) as [[hl ml] ty].
    destruct (hl =? 0); [by injection Hrun as <- <-|].
    cbv zeta in Hrun.
    destruct (recv_pos client <? u32 (hl + u32 ml)); [by injection Hrun as <- <-|].
    pose proof (dispatch_message_spec server client (u16 ty)
                  (take (Z.to_nat (u32 ml)) (drop (Z.to_nat hl) (recv_buffer client))))
      as Hd.
    cbv zeta in Hd. destruct (dispatch_message _ _ _ _) as [c1 tr1].
    cbn [fst snd] in Hd. destruct Hd as (_ & Hclose & _ & _ & Hfd & _).
    destruct (handle_client_data fuel server _) as [[c2 tr2]|] eqn:Hrec; [|done].
    injection Hrun as <- <-.
    apply IH in Hrec as [Hfd2 Hclose2]. cbn in Hfd2.
    split; [congruence | by apply Forall_app].
Qed.

(** With a header that stays what it is as bytes arrive and declares more
    than the buffer can hold, the receive loop dispatches nothing and keeps
    the socket; it is left at the latest by the [recv] that finds the
    buffer full. *)
Lemma client_thread_loop_oversize (fuel : nat) (server : esphome_api_server)
    (header_len msg_len msg_type : Z) (script : list recv_result) :
  forall (client : client_connection_t) (got : list Z),
    holds client got ->
    got <> [] ->
    (forall rest,
       esphome_decode_frame_header (got ++ rest) = (header_len, msg_len, msg_type)) ->
    header_len <> 0 ->
    ESPHOME_MAX_MESSAGE_SIZE < header_len + u32 msg_len < 2 ^ 32 ->
    running server = true ->
    0 <= fd client ->
    exists client' exited,
      client_thread_loop (S fuel) script server client = Some (client', [], exited) /\
      fd client' = fd client /\
      (exited = false -> exists more, holds client' (got ++ more)) /\
      (RECV_BUFFER_SIZE - recv_pos client < Z.of_nat (length script) -> exited = true).
Proof.
  induction script as [|result script IH];
    intros client got Hholds Hgot Hstable Hheader Hsize Hrun Hfd.
  - exists client, false. cbn [client_thread_loop]. rewrite Hrun.
    destruct (Z.leb_spec 0 (fd client)); [|lia]. cbn [andb negb length].
    split; [reflexivity|]. split; [reflexivity|].
    split; [intros _; exists []; by rewrite app_nil_r|].
    destruct Hholds as (Hpos & Htake & Hlen).
    assert (length got <= Z.to_nat RECV_BUFFER_SIZE)%nat
      by (rewrite <- Htake, length_take; lia).
    unfold RECV_BUFFER_SIZE in *. lia.
  - destruct result as [data|].
    2:{ exists client, true. cbn [client_thread_loop]. rewrite Hrun.
        destruct (Z.leb_spec 0 (fd client)); [|lia]. done. }
    change (client_thread_loop (S fuel) (RecvData data :: script) server client)
      with (if negb (running server && (0 <=? fd client)) then Some (client, [], true)
            else
              let room := RECV_BUFFER_SIZE - recv_pos client in
              let data := take (Z.to_nat room) data in
              let received := Z.of_nat (length data) in
              if received <=? 0 then Some (client, [], true)
              else
                let client := recv_store client data in
                match handle_client_data (S fuel) server client with
                | None => None
                | Some (client, tr) =>
                  match client_thread_loop (S fuel) script server client with
                  | None => None
                  | Some (client, tr', exited) => Some (client, tr ++ tr', exited)
                  end
                end).
    rewrite Hrun. destruct (Z.leb_spec 0 (fd client)); [|lia]. cbn [andb negb].
    cbv zeta.
    set (data' := take (Z.to_nat (RECV_BUFFER_SIZE - recv_pos client)) data).
    destruct (Z.leb_spec (Z.of_nat (length data')) 0) as [Hnone|Hsome].
    { exists client, true. done. }
    pose proof Hholds as (Hpos & Htake & Hlen).
    assert (length got <= Z.to_nat RECV_BUFFER_SIZE)%nat as Hgotlen
      by (rewrite <- Htake, length_take; lia).
    assert (Z.of_nat (length data') <= RECV_BUFFER_SIZE - recv_pos client) as Hfit.
    { subst data'. rewrite length_take. unfold RECV_BUFFER_SIZE in *. lia. }
    assert (holds (recv_store client data') (got ++ data')) as Hholds'
      by (apply holds_recv_store; [assumption | lia]).
    assert (handle_client_data (S fuel) server (recv_store client data') =
            Some (recv_store client data', [])) as ->.
    { rewrite handle_client_data_unfold, (holds_valid_bytes _ _ Hholds'), Hstable.
      destruct Hholds' as (Hpos' & _ & _).
      destruct (Z.ltb_spec 0 (recv_pos (recv_store client data'))); [|reflexivity].
      cbn [negb]. destruct (Z.eqb_spec header_len 0); [done|].
      cbv zeta. unfold u32 at 1. rewrite Z.mod_small by
        (unfold ESPHOME_MAX_MESSAGE_SIZE in *; lia).
      destruct (Z.ltb_spec (recv_pos (recv_store client data'))
                           (header_len + u32 msg_len)); [reflexivity|].
      rewrite Hpos', length_app in *.
      unfold ESPHOME_MAX_MESSAGE_SIZE, RECV_BUFFER_SIZE in *. lia. }
    destruct (IH (recv_store client data') (got ++ data'))
      as (client' & exited & -> & Hfd' & Hkept & Hexit); try assumption.
    { destruct got; done. }
    { intros rest. by rewrite <- app_assoc. }
    exists client', exited. split; [reflexivity|]. split; [exact Hfd'|].
    split.
    + intros Hwait. destruct (Hkept Hwait) as [more Hmore].
      exists (data' ++ more). by rewrite app_assoc.
    + intros Hmany. apply Hexit. cbn [recv_store recv_pos set_recv].
      cbn [length] in Hmany. lia.
Qed.

(** One [recv] of a non-empty chunk that fits the room left: the bytes are
    stored, nothing is dispatched, and the loop goes on to the next
    [recv]. *)
Lemma client_thread_loop_oversize_step (fuel : nat) (server : esphome_api_server)
    (header_len msg_len msg_type : Z) (script : list recv_result)
    (client : client_connection_t) (got chunk : list Z) :
  holds client got ->
  got <> [] ->
  (forall rest,
     esphome_decode_frame_header (got ++ rest) = (header_len, msg_len, msg_type)) ->
  header_len <> 0 ->
  ESPHOME_MAX_MESSAGE_SIZE < header_len + u32 msg_len < 2 ^ 32 ->
  running server = true ->
  0 <= fd client ->
  chunk <> [] ->
  recv_pos client + Z.of_nat (length chunk) <= RECV_BUFFER_SIZE ->
  client_thread_loop (S fuel) (RecvData chunk :: script) server client =
    client_thread_loop (S fuel) script server (recv_store client chunk) /\
  holds (recv_store client chunk) (got ++ chunk).
Proof.
  intros Hholds Hgot Hstable Hheader Hsize Hrun Hfd Hchunk Hfit.
  pose proof Hholds as (Hpos & Htake & Hlen).
  assert (0 < length chunk)%nat by (destruct chunk; [done | cbn; lia]).
  assert (holds (recv_store client chunk) (got ++ chunk)) as Hholds'
    by (apply holds_recv_store; [assumption | lia]).
  split; [|exact Hholds'].
  change (client_thread_loop (S fuel) (RecvData chunk :: script) server client)
    with (if negb (running server && (0 <=? fd client)) then Some (client, [], true)
          else
            let room := RECV_BUFFER_SIZE - recv_pos client in
            let data := take (Z.to_nat room) chunk in
            let received := Z.of_nat (length data) in
            if received <=? 0 then Some (client, [], true)
            else
              let client := recv_store client data in
              match handle_client_data (S fuel) server client with
              | None => None
              | Some (client, tr) =>
                match client_thread_loop (S fuel) script server client with
                | None => None
                | Some (client, tr', exited) => Some (client, tr ++ tr', exited)
                end
              end).
  rewrite Hrun. destruct (Z.leb_spec 0 (fd client)); [|lia]. cbn [andb negb].
  cbv zeta. rewrite (take_ge chunk) by lia.
  destruct (Z.leb_spec (Z.of_nat (length chunk)) 0); [lia|].
  assert (handle_client_data (S fuel) server (recv_store client chunk) =
          Some (recv_store client chunk, [])) as ->.
  { rewrite handle_client_data_unfold, (holds_valid_bytes _ _ Hholds'), Hstable.
    destruct Hholds' as (Hpos' & _ & _).
    destruct (Z.ltb_spec 0 (recv_pos (recv_store client chunk))); [|reflexivity].
    cbn [negb]. destruct (Z.eqb_spec header_len 0); [done|].
    cbv zeta. unfold u32 at 1. rewrite Z.mod_small by
      (unfold ESPHOME_MAX_MESSAGE_SIZE in *; lia).
    destruct (Z.ltb_spec (recv_pos (recv_store client chunk))
                         (header_len + u32 msg_len)); [reflexivity|].
    rewrite Hpos', length_app in *.
    unfold ESPHOME_MAX_MESSAGE_SIZE, RECV_BUFFER_SIZE in *. lia. }
  by destruct (client_thread_loop (S fuel) script server (recv_store client chunk))
    as [[[c tr] exited]|].
Qed.

(** While what arrives is non-empty and fits the room left, the loop keeps
    waiting: after the chunks it is in [recv] again, with the socket open,
    nothing dispatched and the bytes appended to the buffer. *)
Lemma client_thread_loop_oversize_waits (fuel : nat) (server : esphome_api_server)
    (header_len msg_len msg_type : Z) (chunks : list (list Z)) :
  forall (client : client_connection_t) (got : list Z),
    holds client got ->
    got <> [] ->
    (forall rest,
       esphome_decode_frame_header (got ++ rest) = (header_len, msg_len, msg_type)) ->
    header_len <> 0 ->
    ESPHOME_MAX_MESSAGE_SIZE < header_len + u32 msg_len < 2 ^ 32 ->
    running server = true ->
    0 <= fd client ->
    Forall (fun chunk => chunk <> []) chunks ->
    recv_pos client + Z.of_nat (length (concat chunks)) <= RECV_BUFFER_SIZE ->
    exists client',
      client_thread_loop (S fuel) (map RecvData chunks) server client =
        Some (client', [], false) /\
      fd client' = fd client /\
      authenticated client' = authenticated client /\
      subscribed_ble client' = subscribed_ble client /\
      thread_running client' = thread_running client /\
      holds client' (got ++ concat chunks).
Proof.
  induction chunks as [|chunk chunks IH];
    intros client got Hholds Hgot Hstable Hheader Hsize Hrun Hfd Hchunks Hfit.
  - exists client. cbn [map concat client_thread_loop]. rewrite Hrun, app_nil_r.
    destruct (Z.leb_spec 0 (fd client)); [done | lia].
  - apply Forall_cons in Hchunks as [Hchunk Hchunks].
    cbn [map concat] in *. rewrite length_app in Hfit.
    destruct (client_thread_loop_oversize_step fuel server header_len msg_len msg_type
                (map RecvData chunks) client got chunk)
      as [-> Hholds']; try assumption; [lia|].
    destruct (IH (recv_store client chunk) (got ++ chunk))
      as (client' & Hloop & Hfd' & Ha & Hs & Ht & Hkept); try assumption.
    + destruct got; done.
    + intros rest. by rewrite <- app_assoc.
    + cbn [recv_store recv_pos set_recv]. lia.
    + exists client'. rewrite app_assoc. done.
Qed.

(** The loop is left by the [recv] that fails or returns nothing -- and
    nothing is all a [recv] can return once the buffer is full, since it is
    offered no room. *)
Lemma client_thread_loop_oversize_ends (fuel : nat) (server : esphome_api_server)
    (header_len msg_len msg_type : Z) (chunks : list (list Z)) (last : recv_result)
    (later : list recv_result) :
  forall (client : client_connection_t) (got : list Z),
    holds client got ->
    got <> [] ->
    (forall rest,
       esphome_decode_frame_header (got ++ rest) = (header_len, msg_len, msg_type)) ->
    header_len <> 0 ->
    ESPHOME_MAX_MESSAGE_SIZE < header_len + u32 msg_len < 2 ^ 32 ->
    running server = true ->
    0 <= fd client ->
    Forall (fun chunk => chunk <> []) chunks ->
    recv_pos client + Z.of_nat (length (concat chunks)) <= RECV_BUFFER_SIZE ->
    last = RecvError \/ last = RecvData [] \/
    recv_pos client + Z.of_nat (length (concat chunks)) = RECV_BUFFER_SIZE ->
    exists client',
      client_thread_loop (S fuel) (map RecvData chunks ++ last :: later) server client =
        Some (client', [], true) /\
      fd client' = fd client.
Proof.
  induction chunks as [|chunk chunks IH];
    intros client got Hholds Hgot Hstable Hheader Hsize Hrun Hfd Hchunks Hfit Hlast.
  - exists client. cbn [map concat app client_thread_loop length] in *. rewrite Hrun.
    destruct (Z.leb_spec 0 (fd client)); [|lia]. cbn [andb negb].
    split; [|reflexivity].
    destruct last as [data|]; [|reflexivity].
    assert (take (Z.to_nat (RECV_BUFFER_SIZE - recv_pos client)) data = []) as ->.
    { destruct Hlast as [Hlast | [Hlast | Hfull]]; [done | |].
      - injection Hlast as ->. apply take_nil.
      - replace (RECV_BUFFER_SIZE - recv_pos client) with 0 by lia. reflexivity. }
    reflexivity.
  - apply Forall_cons in Hchunks as [Hchunk Hchunks].
    cbn [map concat app] in *. rewrite length_app in Hfit, Hlast.
    destruct (client_thread_loop_oversize_step fuel server header_len msg_len msg_type
                (map RecvData chunks ++ last :: later) client got chunk)
      as [-> Hholds']; try assumption; [lia|].
    destruct (IH (recv_store client chunk) (got ++ chunk))
      as (client' & Hloop & Hfd'); try assumption.
    + destruct got; done.
    + intros rest. by rewrite <- app_assoc.
    + cbn [recv_store recv_pos set_recv]. lia.
    + cbn [recv_store recv_pos set_recv].
      destruct Hlast as [Hlast | [Hlast | Hfull]];
        [by left | by right; left | right; right; lia].
    + by exists client'.
Qed.

End Oversize.

(** C2, amended.  A connection whose accumulated input declares a frame
    larger than the maximum message size (and below 2^32, so that the 32-bit
    sum does not wrap) is not failed for it.  [handle_client_data]
    dispatches nothing, consumes nothing and leaves the connection as it
    is.  So does the receive loop on what arrives next: while the chunks
    received are non-empty and fit the room left in the buffer -- no chunk
    at all included -- the thread is afterwards waiting in [recv] again,
    with the connection open, nothing dispatched, nothing closed and the
    bytes appended to the buffer.  The thread closes the connection and
    releases the session when, after such chunks, a [recv] fails or returns
    nothing; and a [recv] that returns when the buffer is full returns
    nothing, whatever the peer has sent, since it is offered no room.  A
    thread that has had more [recv] results than the buffer had room for
    bytes has therefore closed.  No other slot is changed. *)
Theorem oversize_frame_waits_until_buffer_full {platform : Platform} (fuel : nat)
    (server : esphome_api_server) (slot : nat) (client : client_connection_t)
    (header_len msg_len msg_type : Z) (script : list recv_result) :
  clients server !! slot = Some client ->
  running server = true ->
  0 <= fd client ->
  0 < recv_pos client <= RECV_BUFFER_SIZE ->
  length (recv_buffer client) = Z.to_nat RECV_BUFFER_SIZE ->
  esphome_decode_frame_header (EsphomeProto := spec_proto) (valid_bytes client) =
    (header_len, msg_len, msg_type) ->
  header_len <> 0 ->
  ESPHOME_MAX_MESSAGE_SIZE < header_len + u32 msg_len < 2 ^ 32 ->
  handle_client_data (proto := spec_proto) (S fuel) server client = Some (client, []) /\
  exists server' tr exited,
    client_thread_func (proto := spec_proto) (S fuel) script server slot =
      Some (server', tr, exited) /\
    dispatched tr = [] /\
    (forall other, other <> slot -> clients server' !! other = clients server !! other) /\
    (forall chunks,
       script = map RecvData chunks ->
       Forall (fun chunk => chunk <> []) chunks ->
       recv_pos client + Z.of_nat (length (concat chunks)) <= RECV_BUFFER_SIZE ->
       exited = false /\
       tr = [] /\
       fd (clients server' !!! slot) = fd client /\
       authenticated (clients server' !!! slot) = authenticated client /\
       subscribed_ble (clients server' !!! slot) = subscribed_ble client /\
       thread_running (clients server' !!! slot) = thread_running client /\
       valid_bytes (clients server' !!! slot) = valid_bytes client ++ concat chunks) /\
    (forall chunks last later,
       script = map RecvData chunks ++ last :: later ->
       Forall (fun chunk => chunk <> []) chunks ->
       recv_pos client + Z.of_nat (length (concat chunks)) <= RECV_BUFFER_SIZE ->
       last = RecvError \/ last = RecvData [] \/
       recv_pos client + Z.of_nat (length (concat chunks)) = RECV_BUFFER_SIZE ->
       exited = true) /\
    (exited = false ->
     tr = [] /\
     fd (clients server' !!! slot) = fd client /\
     exists more, valid_bytes (clients server' !!! slot) = valid_bytes client ++ more) /\
    (exited = true ->
     tr = [EvClose (fd client)] /\
     fd (clients server' !!! slot) = -1 /\
     authenticated (clients server' !!! slot) = false /\
     subscribed_ble (clients server' !!! slot) = false /\
     recv_pos (clients server' !!! slot) = 0 /\
     thread_running (clients server' !!! slot) = false) /\
    (RECV_BUFFER_SIZE - recv_pos client < Z.of_nat (length script) -> exited = true).
Proof.
  intros Hslot Hrun Hfd Hpos Hlen Hdecode Hheader Hsize.
  assert (holds client (valid_bytes client)) as Hholds.
  { unfold holds, valid_bytes. rewrite length_take.
    replace (Z.to_nat (recv_pos client) `min` length (recv_buffer client))%nat
      with (Z.to_nat (recv_pos client)) by lia.
    split; [lia | done]. }
  assert (valid_bytes client <> []) as Hgot.
  { intros Hnil. destruct Hholds as (Hp & _). rewrite Hnil in Hp. cbn in Hp. lia. }
  assert (forall rest,
            esphome_decode_frame_header (EsphomeProto := spec_proto)
              (valid_bytes client ++ rest) = (header_len, msg_len, msg_type))
    as Hstable.
  { intros rest. by apply ProtoFacts.spec_decode_frame_header_stable. }
  split.
  - rewrite handle_client_data_unfold, Hdecode.
    destruct (Z.ltb_spec 0 (recv_pos client)); [|lia]. cbn [negb].
    destruct (Z.eqb_spec header_len 0); [done|].
    cbv zeta. unfold u32 at 1. rewrite Z.mod_small
      by (unfold ESPHOME_MAX_MESSAGE_SIZE in *; lia).
    destruct (Z.ltb_spec (recv_pos client) (header_len + u32 msg_len));
      [reflexivity|].
    unfold ESPHOME_MAX_MESSAGE_SIZE, RECV_BUFFER_SIZE in *. lia.
  - destruct (client_thread_loop_oversize (proto := spec_proto) fuel server
                header_len msg_len msg_type script client (valid_bytes client)
                Hholds Hgot Hstable Hheader Hsize Hrun Hfd)
      as (client' & exited & Hloop & Hfd' & Hkept & Hexit).
    assert (forall chunks,
              script = map RecvData chunks ->
              Forall (fun chunk => chunk <> []) chunks ->
              recv_pos client + Z.of_nat (length (concat chunks)) <= RECV_BUFFER_SIZE ->
              exited = false /\
              authenticated client' = authenticated client /\
              subscribed_ble client' = subscribed_ble client /\
              thread_running client' = thread_running client /\
              valid_bytes client' = valid_bytes client ++ concat chunks) as Hwaits.
    { intros chunks -> Hchunks Hfit.
      destruct (client_thread_loop_oversize_waits (proto := spec_proto) fuel server
                  header_len msg_len msg_type chunks client (valid_bytes client)
                  Hholds Hgot Hstable Hheader Hsize Hrun Hfd Hchunks Hfit)
        as (waiting & Hwaiting & _ & Ha & Hs & Ht & Hkept').
      rewrite Hwaiting in Hloop. injection Hloop as -> ->.
      split; [reflexivity|]. split; [exact Ha|]. split; [exact Hs|].
      split; [exact Ht|]. by apply holds_valid_bytes. }
    assert (forall chunks last later,
              script = map RecvData chunks ++ last :: later ->
              Forall (fun chunk => chunk <> []) chunks ->
              recv_pos client + Z.of_nat (length (concat chunks)) <= RECV_BUFFER_SIZE ->
              last = RecvError \/ last = RecvData [] \/
              recv_pos client + Z.of_nat (length (concat chunks)) = RECV_BUFFER_SIZE ->
              exited = true) as Hends.
    { intros chunks last later -> Hchunks Hfit Hlast.
      destruct (client_thread_loop_oversize_ends (proto := spec_proto) fuel server
                  header_len msg_len msg_type chunks last later client
                  (valid_bytes client)
                  Hholds Hgot Hstable Hheader Hsize Hrun Hfd Hchunks Hfit Hlast)
        as (gone & Hgone & _).
      rewrite Hgone in Hloop. by injection Hloop as _ <-. }
    assert (slot < length (clients server))%nat as Hlt by (by eapply lookup_lt_Some).
    unfold client_thread_func.
    rewrite (list_lookup_total_correct _ _ _ Hslot), Hloop.
    destruct exited.
    + unfold client_close. rewrite Hfd'.
      destruct (Z.leb_spec 0 (fd client)); [|lia].
      eexists _, _, true. split; [reflexivity|].
      cbn [clients set_clients app].
      split; [reflexivity|].
      split; [intros other Hother; by apply list_lookup_insert_ne|].
      split; [intros chunks Hscript Hchunks Hfit;
              by destruct (Hwaits chunks Hscript Hchunks Hfit)|].
      split; [done|].
      split; [done|].
      split; [|done].
      intros _. rewrite list_lookup_total_insert_eq by assumption. done.
    + eexists _, _, false. split; [reflexivity|].
      cbn [clients set_clients].
      split; [reflexivity|].
      split; [intros other Hother; by apply list_lookup_insert_ne|].
      split.
      { intros chunks Hscript Hchunks Hfit.
        destruct (Hwaits chunks Hscript Hchunks Hfit) as (_ & Ha & Hs & Ht & Hvalid).
        rewrite list_lookup_total_insert_eq by assumption. done. }
      split; [exact Hends|].
      split; [|split; [done | exact Hexit]].
      intros _. rewrite list_lookup_total_insert_eq by assumption.
      split; [reflexivity|]. split; [exact Hfd'|].
      destruct (Hkept eq_refl) as [more Hmore].
      exists more. by apply holds_valid_bytes.
Qed.

(** A client that holds the header of a 5004-byte frame and receives
    three more bytes in two chunks is waiting afterwards; one whose buffer
    is full is closed by the next [recv] that returns. *)
Lemma oversize_frame_waits_until_buffer_full_witness :
  (exists server',
     client_thread_func (proto := spec_proto) (platform := full_send_platform) 1
       (map RecvData [[1; 2]; [3]]) example_header_server 0 =
       Some (server', [], false) /\
     fd (clients server' !!! 0%nat) = 5 /\
     valid_bytes (clients server' !!! 0%nat) = example_oversize_header ++ [1; 2; 3]) /\
  handle_client_data (proto := spec_proto) (platform := full_send_platform) 1
    example_full_server example_full_client = Some (example_full_client, []) /\
  exists server',
    client_thread_func (proto := spec_proto) (platform := full_send_platform) 1
      [RecvData [0]] example_full_server 0 = Some (server', [EvClose 5], true) /\
    fd (clients server' !!! 0%nat) = -1.
Proof.
  split.
  - pose proof (oversize_frame_waits_until_buffer_full (platform := full_send_platform)
                  0 example_header_server 0 example_header_client 4 5000 1
                  (map RecvData [[1; 2]; [3]]))
      as H.
    destruct H as (_ & server' & tr & exited & Hrun & _ & _ & Hwaits & _).
    + reflexivity.
    + reflexivity.
    + vm_compute. discriminate.
    + vm_compute. split; [reflexivity | discriminate].
    + vm_compute. reflexivity.
    + vm_compute. reflexivity.
    + discriminate.
    + vm_compute. split; reflexivity.
    + destruct (Hwaits [[1; 2]; [3]]) as (-> & -> & Hfd & _ & _ & _ & Hvalid).
      * reflexivity.
      * repeat constructor; discriminate.
      * vm_compute. discriminate.
      * exists server'. split; [exact Hrun|]. split; [exact Hfd | exact Hvalid].
  - pose proof (oversize_frame_waits_until_buffer_full (platform := full_send_platform)
                  0 example_full_server 0 example_full_client 4 5000 1 [RecvData [0]])
      as H.
    destruct H
      as (Hdata & server' & tr & exited & Hrun & _ & _ & _ & Hends & _ & Hclosed & _).
    + reflexivity.
    + reflexivity.
    + vm_compute. discriminate.
    + vm_compute. split; [reflexivity | discriminate].
    + vm_compute. reflexivity.
    + vm_compute. reflexivity.
    + discriminate.
    + vm_compute. split; reflexivity.
    + split; [exact Hdata|].
      assert (exited = true) as ->.
      { apply (Hends [] (RecvData [0]) []).
        - reflexivity.
        - constructor.
        - vm_compute. discriminate.
        - right. right. vm_compute. reflexivity. }
      destruct (Hclosed eq_refl) as (-> & Hfd & _).
      exists server'. split; [exact Hrun | exact Hfd].
Defined.

(** C2 as stated fails: a connection that has received the complete header
    of a 5004-byte frame is still open, its thread waiting in [recv]. *)
Lemma oversize_frame_is_not_fatal :
  ~ oversize_is_fatal (proto := spec_proto) (platform := full_send_platform)
      example_oversize_header example_server 0.
Proof.
  intros Hfatal. destruct Hfatal as (fuel & server' & tr & Hrun & _).
  - vm_compute. split; [discriminate | reflexivity].
  - destruct fuel as [|fuel]; vm_compute in Hrun; discriminate.
Qed.

(** ** Flush and broadcast *)

Lemma sends_map_send {platform : Platform} (frame : list Z)
    (cs : list client_connection_t) :
  sends (map (fun c => EvSend (fd c) frame (send (fd c) frame)) cs) =
  map (fun c => (fd c, frame)) cs.
Proof. induction cs as [|c cs IH]; [done|]. cbn. by rewrite <- IH. Qed.

(** On the codec of the specification the batch of a well-formed server
    encodes and frames. *)
Lemma spec_batch_frames (server : esphome_api_server) :
  server_wf server ->
  count (ble_batch server) <> 0 ->
  let payload :=
    esphome_encode_ble_advertisements (EsphomeProto := spec_proto)
      ESPHOME_MAX_MESSAGE_SIZE (ble_batch server) in
  let frame :=
    esphome_frame_message (EsphomeProto := spec_proto) SEND_BUFFER_SIZE
      ESPHOME_MSG_BLUETOOTH_LE_RAW_ADVERTISEMENTS_RESPONSE payload in
  payload <> [] /\ frame <> [] /\
  frame =
    ProtoC.frame_header ESPHOME_MSG_BLUETOOTH_LE_RAW_ADVERTISEMENTS_RESPONSE payload ++
    payload.
Proof.
  intros Hwf Hcount. cbv zeta.
  change (esphome_encode_ble_advertisements (EsphomeProto := spec_proto))
    with ProtoC.esphome_encode_ble_advertisements.
  change (esphome_frame_message (EsphomeProto := spec_proto))
    with ProtoC.esphome_frame_message.
  destruct (ProtoFacts.spec_encode_ble_advertisements_fits server Hwf Hcount)
    as [Hpayload Hsize].
  cbv zeta in Hpayload, Hsize.
  set (payload := ProtoC.esphome_encode_ble_advertisements _ _) in *.
  assert (ProtoC.esphome_frame_message SEND_BUFFER_SIZE
            ESPHOME_MSG_BLUETOOTH_LE_RAW_ADVERTISEMENTS_RESPONSE payload <> [])
    as Hframe.
  { apply ProtoFacts.spec_frame_message_nonempty. unfold SEND_BUFFER_SIZE. lia. }
  split; [exact Hpayload|]. split; [exact Hframe|].
  by apply ProtoFacts.spec_frame_message_built.
Qed.

(** C4.  [flush_ble_batch] on an empty batch sends nothing and changes
    nothing.  On a non-empty batch of a well-formed server it encodes the
    batch, which always fits, frames it as one
    BluetoothLERawAdvertisementsResponse, sends that frame to every session
    with an open connection that has subscribed, in slot order, and to no
    other; afterwards the count is 0 and [last_flush] is the time read. *)
Theorem flush_ble_batch_behaviour {platform : Platform} (now : timespec)
    (server : esphome_api_server) :
  server_wf server ->
  (count (ble_batch server) = 0 ->
   flush_ble_batch (proto := spec_proto) now server = (server, [])) /\
  (count (ble_batch server) <> 0 ->
   let payload :=
     esphome_encode_ble_advertisements (EsphomeProto := spec_proto)
       ESPHOME_MAX_MESSAGE_SIZE (ble_batch server) in
   let frame :=
     esphome_frame_message (EsphomeProto := spec_proto) SEND_BUFFER_SIZE
       ESPHOME_MSG_BLUETOOTH_LE_RAW_ADVERTISEMENTS_RESPONSE payload in
   let outcome := flush_ble_batch (proto := spec_proto) now server in
   payload <> [] /\
   frame =
     ProtoC.frame_header ESPHOME_MSG_BLUETOOTH_LE_RAW_ADVERTISEMENTS_RESPONSE payload ++
     payload /\
   sends outcome.2 = map (fun c => (fd c, frame)) (List.filter wants_batch (clients server)) /\
   length outcome.2 = length (List.filter wants_batch (clients server)) /\
   count (ble_batch outcome.1) = 0 /\
   last_flush outcome.1 = now /\
   outcome.1 = set_last_flush now (set_ble_batch (set_count 0 (ble_batch server)) server)).
Proof.
  intros Hwf. split.
  - intros Hempty. unfold flush_ble_batch. by rewrite Hempty.
  - intros Hcount. cbv zeta.
    destruct (spec_batch_frames server Hwf Hcount) as (Hpayload & Hframe & Hbuilt).
    cbv zeta in Hpayload, Hframe, Hbuilt.
    rewrite (flush_ble_batch_sends (proto := spec_proto) now server
               (wf_clients server Hwf) Hcount Hpayload Hframe).
    cbn [fst snd].
    split; [exact Hpayload|].
    split; [exact Hbuilt|].
    split; [apply sends_map_send|].
    split; [apply length_map|].
    done.
Qed.

Lemma example_batch_server_wf : server_wf example_batch_server.
Proof.
  split.
  - reflexivity.
  - reflexivity.
  - vm_compute. repeat constructor.
  - vm_compute. split; discriminate.
Qed.

(** One advertisement, two subscribed clients. *)
Lemma flush_ble_batch_behaviour_witness :
  sends (flush_ble_batch (proto := spec_proto) (platform := full_send_platform)
           example_time example_batch_server).2 =
  map (fun c => (fd c,
                 esphome_frame_message (EsphomeProto := spec_proto) SEND_BUFFER_SIZE
                   ESPHOME_MSG_BLUETOOTH_LE_RAW_ADVERTISEMENTS_RESPONSE
                   (esphome_encode_ble_advertisements (EsphomeProto := spec_proto)
                      ESPHOME_MAX_MESSAGE_SIZE (ble_batch example_batch_server))))
      (List.filter wants_batch (clients example_batch_server)).
Proof.
  pose proof (flush_ble_batch_behaviour (platform := full_send_platform) example_time
                example_batch_server example_batch_server_wf) as [_ H].
  assert (count (ble_batch example_batch_server) <> 0) as Hcount
    by (vm_compute; discriminate).
  destruct (H Hcount) as (_ & _ & Hsends & _).
  exact Hsends.
Defined.

Section Broadcast.
Context {proto : EsphomeProto} {platform : Platform}.

Lemma flush_ble_batch_no_close (now : timespec) (server : esphome_api_server) :
  Forall (fun e => forall sock, e <> EvClose sock) (flush_ble_batch now server).2.
Proof.
  unfold flush_ble_batch.
  destruct (count (ble_batch server) =? 0); [by constructor|].
  case_match; [by constructor|]. cbn [snd].
  generalize (seqZ 0 ESPHOME_MAX_CLIENTS). intros slots.
  assert (Forall (fun e => forall sock, e <> EvClose sock) (@nil event)) as Hnil
    by constructor.
  revert Hnil. generalize (@nil event) as tr. 
  induction slots as [|i slots IH]; intros tr Htr; [exact Htr|].
  cbn [foldl]. apply IH.
  case_match; [|exact Htr].
  apply Forall_app. split; [exact Htr|].
  destruct (send_message_trace_cases (idx (clients server) i)
              ESPHOME_MSG_BLUETOOTH_LE_RAW_ADVERTISEMENTS_RESPONSE
              (esphome_encode_ble_advertisements ESPHOME_MAX_MESSAGE_SIZE
                 (ble_batch server))) as [-> | (frame & sent & ->)];
    by repeat constructor.
Qed.

End Broadcast.

(** C5, amended.  When a [send] fails or falls short, [send_message]
    returns -1 and that is all.  In a flush every session that wants the
    batch is still offered the frame, whatever [send] returned for another,
    and no session is closed or released, the failing one included; a
    handler that replies leaves the socket of its session as it is, too. *)
Theorem send_failure_is_reported_only {platform : Platform} (now : timespec)
    (server : esphome_api_server) :
  server_wf server ->
  count (ble_batch server) <> 0 ->
  let payload :=
    esphome_encode_ble_advertisements (EsphomeProto := spec_proto)
      ESPHOME_MAX_MESSAGE_SIZE (ble_batch server) in
  let frame :=
    esphome_frame_message (EsphomeProto := spec_proto) SEND_BUFFER_SIZE
      ESPHOME_MSG_BLUETOOTH_LE_RAW_ADVERTISEMENTS_RESPONSE payload in
  let outcome := flush_ble_batch (proto := spec_proto) now server in
  (forall client msg_type body,
     let reply :=
       esphome_frame_message (EsphomeProto := spec_proto) SEND_BUFFER_SIZE msg_type body in
     send (fd client) reply < 0 \/ send (fd client) reply <> Z.of_nat (length reply) ->
     (send_message (proto := spec_proto) client msg_type body).1 = -1) /\
  outcome.2 =
    map (fun c => EvSend (fd c) frame (send (fd c) frame))
        (List.filter wants_batch (clients server)) /\
  clients outcome.1 = clients server /\
  Forall (fun e => forall sock, e <> EvClose sock) outcome.2 /\
  (forall client msg_type body,
     let reply := dispatch_message (proto := spec_proto) server client msg_type body in
     fd reply.1 = fd client /\
     Forall (fun e => forall sock, e <> EvClose sock) reply.2).
Proof.
  intros Hwf Hcount. cbv zeta.
  split; [intros client msg_type body; apply send_message_failure|].
  split.
  - destruct (spec_batch_frames server Hwf Hcount) as (Hpayload & Hframe & _).
    cbv zeta in Hpayload, Hframe.
    by rewrite (flush_ble_batch_sends (proto := spec_proto) now server
                  (wf_clients server Hwf) Hcount Hpayload Hframe).
  - split; [apply flush_ble_batch_frame|].
    split; [apply flush_ble_batch_no_close|].
    intros client msg_type body.
    pose proof (dispatch_message_spec (proto := spec_proto) server client msg_type body)
      as Hd.
    cbv zeta in Hd. destruct Hd as (_ & Hclose & _ & _ & Hfd & _). done.
Qed.

(** The [send] on socket 5 fails; socket 6 still gets the 22 bytes of the
    frame and both sessions stay as they were. *)
Lemma send_failure_is_reported_only_witness :
  let outcome :=
    flush_ble_batch (proto := spec_proto) (platform := failing_send_platform 5)
      example_time example_batch_server in
  map (fun e => match e with EvSend sock _ sent => (sock, sent) | _ => (0, 0) end)
      outcome.2 = [(5, -1); (6, 22)] /\
  clients outcome.1 = clients example_batch_server.
Proof.
  assert (count (ble_batch example_batch_server) <> 0) as Hcount
    by (vm_compute; discriminate).
  destruct (send_failure_is_reported_only (platform := failing_send_platform 5)
              example_time example_batch_server example_batch_server_wf Hcount)
    as (_ & Htrace & Hclients & _).
  split; [|exact Hclients].
  rewrite Htrace. vm_compute. reflexivity.
Defined.

(** C5 as stated fails: the [send] on socket 5 fails, and after the flush
    the session on socket 5 is as open as before. *)
Lemma failed_send_does_not_tear_down :
  ~ failed_send_tears_down
      (flush_ble_batch (proto := spec_proto) (platform := failing_send_platform 5)
         example_time example_batch_server).
Proof.
  intros Hclaim.
  set (outcome := flush_ble_batch (proto := spec_proto)
                    (platform := failing_send_platform 5)
                    example_time example_batch_server) in *.
  assert (exists frame sent, outcome.2 = [EvSend 5 frame (-1); EvSend 6 frame sent])
    as (frame & sent & Htrace) by (eexists _, _; vm_compute; reflexivity).
  destruct (Hclaim 5 frame (-1)) as [Hclosed _].
  - rewrite Htrace. by left.
  - left. lia.
  - rewrite Htrace in Hclosed. destruct Hclosed as [H|[H|[]]]; discriminate.
Qed.

Lemma memcpy_length (dst src : list Z) (n : Z) :
  length src = length dst -> length (memcpy dst src n) = length dst.
Proof.
  intros Hlen. unfold memcpy. rewrite length_app, length_take, length_drop. lia.
Qed.

Lemma store_advert_wf (advert : esphome_ble_advert_t) (server : esphome_api_server) :
  server_wf server ->
  count (ble_batch server) < ESPHOME_MAX_ADV_BATCH ->
  length (advert_data advert) = Z.to_nat ESPHOME_MAX_ADV_DATA ->
  server_wf (set_ble_batch (store_advert advert (ble_batch server)) server).
Proof.
  intros [Hclients Hadvs Hdata Hcount] Hroom Hlen.
  split; cbn [clients ble_batch set_ble_batch store_advert advertisements count].
  - exact Hclients.
  - by rewrite length_insert.
  - apply Forall_insert; [exact Hdata|].
    unfold fill_advertisement. cbn [pb_data].
    rewrite memcpy_length; [|rewrite Hlen].
    + rewrite Forall_lookup in Hdata.
      destruct (lookup_lt_is_Some_2 (advertisements (ble_batch server))
                  (Z.to_nat (count (ble_batch server)))) as [slot Hslot].
      { rewrite Hadvs. unfold ESPHOME_MAX_ADV_BATCH in *. lia. }
      rewrite (list_lookup_total_correct _ _ _ Hslot). by eapply Hdata.
    + rewrite Forall_lookup in Hdata.
      destruct (lookup_lt_is_Some_2 (advertisements (ble_batch server))
                  (Z.to_nat (count (ble_batch server)))) as [slot Hslot].
      { rewrite Hadvs. unfold ESPHOME_MAX_ADV_BATCH in *. lia. }
      rewrite (list_lookup_total_correct _ _ _ Hslot). symmetry. by eapply Hdata.
  - lia.
Qed.

(** What [fill_advertisement] leaves in the slot, whatever the slot held:
    the address packed, the RSSI, the address type, the data length cut at
    62, and that many bytes of the advertisement's data. *)
Lemma fill_advertisement_carries (pb_adv : esphome_ble_advertisement_t)
    (advert : esphome_ble_advert_t) :
  length (advert_data advert) = Z.to_nat ESPHOME_MAX_ADV_DATA ->
  let entry := fill_advertisement pb_adv advert in
  pb_address entry = mac_to_uint64 (advert_address advert) /\
  pb_rssi entry = advert_rssi advert /\
  pb_address_type entry = advert_address_type advert /\
  pb_data_len entry = Z.min (advert_data_len advert) ESPHOME_MAX_ADV_DATA /\
  take (Z.to_nat (pb_data_len entry)) (pb_data entry) =
    take (Z.to_nat (pb_data_len entry)) (advert_data advert).
Proof.
  intros Hlen. cbv zeta. unfold fill_advertisement, memcpy, ESPHOME_MAX_ADV_DATA in *.
  cbn [pb_address pb_rssi pb_address_type pb_data_len pb_data].
  destruct (Z.ltb_spec 62 (advert_data_len advert));
    (split; [reflexivity|]; split; [reflexivity|]; split; [reflexivity|];
     split; [lia|]);
    (rewrite take_app_le by (rewrite length_take; lia));
    by rewrite take_take, Nat.min_id.
Qed.

(** ** Enqueueing advertisements *)

Section Enqueue.
Context {proto : EsphomeProto} {platform : Platform}.

Lemma flush_ble_batch_wf (now : timespec) (server : esphome_api_server) :
  server_wf server -> server_wf (flush_ble_batch now server).1.
Proof.
  intros [Hclients Hadvs Hdata Hcount].
  destruct (flush_ble_batch_frame now server) as (Eadvs & Eclients & _).
  split.
  - by rewrite Eclients.
  - by rewrite Eadvs.
  - by rewrite Eadvs.
  - rewrite flush_ble_batch_count. unfold ESPHOME_MAX_ADV_BATCH. lia.
Qed.

(** The three steps of [esphome_api_queue_ble_advert] on non-NULL
    arguments. *)
Lemma esphome_api_queue_ble_advert_steps (now : timespec) (server : esphome_api_server)
    (advert : esphome_ble_advert_t) :
  let before :=
    if ESPHOME_MAX_ADV_BATCH <=? count (ble_batch server)
    then flush_ble_batch now server else (server, []) in
  let stored := set_ble_batch (store_advert advert (ble_batch before.1)) before.1 in
  let after :=
    if ESPHOME_MAX_ADV_BATCH <=? count (ble_batch stored)
    then flush_ble_batch now stored else (stored, []) in
  esphome_api_queue_ble_advert now (Some server) (Some advert) =
  (Some after.1, before.2 ++ after.2).
Proof.
  cbv zeta. unfold esphome_api_queue_ble_advert.
  destruct (if ESPHOME_MAX_ADV_BATCH <=? count (ble_batch server)
            then flush_ble_batch now server else (server, [])) as [s1 tr1].
  cbn [fst snd].
  destruct (if ESPHOME_MAX_ADV_BATCH <=? count (ble_batch (set_ble_batch _ s1))
            then _ else _) as [s3 tr3].
  reflexivity.
Qed.

Lemma store_advert_entries (advert : esphome_ble_advert_t)
    (batch : esphome_ble_advertisements_response_t) :
  0 <= count batch ->
  (Z.to_nat (count batch) < length (advertisements batch))%nat ->
  batch_entries (store_advert advert batch) =
  batch_entries batch ++
  [fill_advertisement (advertisements batch !!! Z.to_nat (count batch)) advert].
Proof.
  intros Hcount Hroom. unfold batch_entries, store_advert.
  cbn [count advertisements].
  replace (Z.to_nat (count batch + 1)) with (S (Z.to_nat (count batch))) by lia.
  erewrite take_S_r; [|by apply list_lookup_insert_eq].
  by rewrite take_insert_ge by lia.
Qed.

(** C3.  [esphome_api_queue_ble_advert] on non-NULL arguments returns,
    and the advertisement is in an entry: its address packed by
    [mac_to_uint64], its RSSI and address type, its data length cut at 62
    and that many bytes of its data.  Where the entry goes depends on the
    batch.  With room for more than one, the entry is appended at the end
    of the batch and nothing is sent.  With room for just one, the entry is
    appended as the sixteenth and the batch that holds it is flushed, which
    leaves the count at 0; up to then nothing but the batch has changed.  With 16 entries already, the batch is flushed
    first, as it is, and the entry is then the only one.  So no call drops
    the advertisement; the sessions are not touched; the count is below 16
    after every call and 0 after every flush. *)
Theorem enqueue_flushes_then_appends (now : timespec) (server : esphome_api_server)
    (advert : esphome_ble_advert_t) :
  server_wf server ->
  length (advert_data advert) = Z.to_nat ESPHOME_MAX_ADV_DATA ->
  exists (server' : esphome_api_server) (tr : trace)
         (entry : esphome_ble_advertisement_t),
    esphome_api_queue_ble_advert now (Some server) (Some advert) = (Some server', tr) /\
    pb_address entry = mac_to_uint64 (advert_address advert) /\
    pb_rssi entry = advert_rssi advert /\
    pb_address_type entry = advert_address_type advert /\
    pb_data_len entry = Z.min (advert_data_len advert) ESPHOME_MAX_ADV_DATA /\
    take (Z.to_nat (pb_data_len entry)) (pb_data entry) =
      take (Z.to_nat (pb_data_len entry)) (advert_data advert) /\
    (count (ble_batch server) + 1 < ESPHOME_MAX_ADV_BATCH ->
     tr = [] /\
     server' = set_ble_batch (ble_batch server') server /\
     batch_entries (ble_batch server') = batch_entries (ble_batch server) ++ [entry] /\
     count (ble_batch server') = count (ble_batch server) + 1) /\
    (count (ble_batch server) + 1 = ESPHOME_MAX_ADV_BATCH ->
     exists full : esphome_api_server,
       server_wf full /\
       full = set_ble_batch (ble_batch full) server /\
       batch_entries (ble_batch full) = batch_entries (ble_batch server) ++ [entry] /\
       count (ble_batch full) = ESPHOME_MAX_ADV_BATCH /\
       (server', tr) = flush_ble_batch now full /\
       count (ble_batch server') = 0) /\
    (count (ble_batch server) = ESPHOME_MAX_ADV_BATCH ->
     tr = (flush_ble_batch now server).2 /\
     batch_entries (ble_batch server') = [entry] /\
     count (ble_batch server') = 1) /\
    clients server' = clients server /\
    server_wf server' /\
    0 <= count (ble_batch server') < ESPHOME_MAX_ADV_BATCH /\
    (forall (s : esphome_api_server) (t : timespec),
       count (ble_batch (flush_ble_batch t s).1) = 0).
Proof.
  intros Hwf Hlen. pose proof Hwf as [Hclients Hadvs Hdata Hcount].
  rewrite esphome_api_queue_ble_advert_steps. cbv zeta.
  destruct (Z.leb_spec ESPHOME_MAX_ADV_BATCH (count (ble_batch server))) as [Hfull|Hroom].
  - (* the batch is full: it is flushed first *)
    destruct (flush_ble_batch_frame now server) as (Hsame & Hcl & _).
    pose proof (flush_ble_batch_count now server) as Hzero.
    pose proof (flush_ble_batch_wf now server Hwf) as Hwf1.
    destruct (flush_ble_batch now server) as [flushed tr1]. cbn [fst snd] in *.
    set (stored := set_ble_batch (store_advert advert (ble_batch flushed)) flushed).
    assert (server_wf stored) as Hwf2.
    { apply store_advert_wf; [exact Hwf1 | | exact Hlen].
      rewrite Hzero. unfold ESPHOME_MAX_ADV_BATCH. lia. }
    assert (count (ble_batch stored) = 1) as Hone
      by (subst stored; cbn [ble_batch set_ble_batch store_advert count];
          by rewrite Hzero).
    destruct (Z.leb_spec ESPHOME_MAX_ADV_BATCH (count (ble_batch stored))) as [Hbad|_];
      [unfold ESPHOME_MAX_ADV_BATCH in Hbad; lia|].
    cbn [fst snd].
    exists stored, (tr1 ++ []),
      (fill_advertisement
         (advertisements (ble_batch flushed) !!! Z.to_nat (count (ble_batch flushed)))
         advert).
    split; [reflexivity|].
    destruct (fill_advertisement_carries
                (advertisements (ble_batch flushed) !!! Z.to_nat (count (ble_batch flushed)))
                advert Hlen) as (Ha & Hr & Ht & Hl & Hd).
    do 5 (split; [assumption|]).
    unfold ESPHOME_MAX_ADV_BATCH in *.
    split; [intros ?; lia|]. split; [intros ?; lia|].
    split.
    { intros _. split; [by rewrite app_nil_r|]. split; [|exact Hone].
      subst stored. cbn [ble_batch set_ble_batch].
      rewrite store_advert_entries by (rewrite ?Hzero, ?Hsame, ?Hadvs; lia).
      unfold batch_entries. by rewrite Hzero. }
    split; [exact Hcl|]. split; [exact Hwf2|].
    split; [lia|]. intros s t. apply flush_ble_batch_count.
  - (* the batch has room *)
    cbn [fst snd].
    set (stored := set_ble_batch (store_advert advert (ble_batch server)) server).
    assert (server_wf stored) as Hwf2 by (by apply store_advert_wf).
    assert (count (ble_batch stored) = count (ble_batch server) + 1) as Hstored
      by reflexivity.
    assert (batch_entries (ble_batch stored) =
            batch_entries (ble_batch server) ++
            [fill_advertisement
               (advertisements (ble_batch server) !!! Z.to_nat (count (ble_batch server)))
               advert]) as Hentries.
    { subst stored. cbn [ble_batch set_ble_batch].
      apply store_advert_entries; [lia|].
      rewrite Hadvs. unfold ESPHOME_MAX_ADV_BATCH in *. lia. }
    destruct (fill_advertisement_carries
                (advertisements (ble_batch server) !!! Z.to_nat (count (ble_batch server)))
                advert Hlen) as (Ha & Hr & Ht & Hl & Hd).
    destruct (Z.leb_spec ESPHOME_MAX_ADV_BATCH (count (ble_batch stored))) as [Hlast|Hmore].
    + (* the sixteenth entry: the batch is flushed with it *)
      destruct (flush_ble_batch_frame now stored) as (_ & Hcl & _).
      pose proof (flush_ble_batch_count now stored) as Hzero.
      pose proof (flush_ble_batch_wf now stored Hwf2) as Hwf3.
      destruct (flush_ble_batch now stored) as [flushed tr2] eqn:Hflush.
      cbn [fst snd] in *.
      exists flushed, tr2,
        (fill_advertisement
           (advertisements (ble_batch server) !!! Z.to_nat (count (ble_batch server)))
           advert).
      split; [reflexivity|].
      do 5 (split; [assumption|]).
      unfold ESPHOME_MAX_ADV_BATCH in *.
      split; [intros ?; lia|].
      split.
      { intros _. exists stored. split; [exact Hwf2|]. split; [reflexivity|].
        split; [exact Hentries|]. split; [lia|]. by split. }
      split; [intros ?; lia|].
      split; [exact Hcl|]. split; [exact Hwf3|].
      split; [lia|]. intros s t. apply flush_ble_batch_count.
    + (* room for more: the entry is appended and that is all *)
      cbn [fst snd].
      exists stored, [],
        (fill_advertisement
           (advertisements (ble_batch server) !!! Z.to_nat (count (ble_batch server)))
           advert).
      split; [reflexivity|].
      do 5 (split; [assumption|]).
      unfold ESPHOME_MAX_ADV_BATCH in *.
      split; [intros _; by repeat split|].
      split; [intros ?; lia|]. split; [intros ?; lia|].
      split; [reflexivity|]. split; [exact Hwf2|].
      split; [lia|]. intros s t. apply flush_ble_batch_count.
Qed.

(** C9.  An advertisement whose [data_len] exceeds 62 is stored with the
    first 62 bytes of its data and the length 62; the call goes through,
    and the address (packed by [mac_to_uint64]), the RSSI and the address
    type are stored with their values. *)
Theorem long_data_is_truncated (now : timespec) (server : esphome_api_server)
    (advert : esphome_ble_advert_t) :
  server_wf server ->
  length (advert_data advert) = Z.to_nat ESPHOME_MAX_ADV_DATA ->
  ESPHOME_MAX_ADV_DATA < advert_data_len advert ->
  exists server' tr entry,
    esphome_api_queue_ble_advert now (Some server) (Some advert) = (Some server', tr) /\
    advertisements (ble_batch server') !!
      Z.to_nat (if ESPHOME_MAX_ADV_BATCH <=? count (ble_batch server)
                then 0 else count (ble_batch server)) = Some entry /\
    pb_data_len entry = ESPHOME_MAX_ADV_DATA /\
    pb_data entry = take (Z.to_nat ESPHOME_MAX_ADV_DATA) (advert_data advert) /\
    pb_address entry = mac_to_uint64 (advert_address advert) /\
    pb_rssi entry = advert_rssi advert /\
    pb_address_type entry = advert_address_type advert.
Proof.
  intros [_ Hadvs Hdata Hcount] Hlen Hlong.
  rewrite esphome_api_queue_ble_advert_steps. cbv zeta.
  set (before := if ESPHOME_MAX_ADV_BATCH <=? count (ble_batch server)
                 then flush_ble_batch now server else (server, [])).
  assert (advertisements (ble_batch before.1) = advertisements (ble_batch server) /\
          count (ble_batch before.1) =
            (if ESPHOME_MAX_ADV_BATCH <=? count (ble_batch server)
             then 0 else count (ble_batch server))) as [Hsame Hslot].
  { subst before. destruct (Z.leb_spec ESPHOME_MAX_ADV_BATCH (count (ble_batch server))).
    - split; [apply flush_ble_batch_frame | apply flush_ble_batch_count].
    - done. }
  rewrite <- Hslot.
  set (stored := set_ble_batch (store_advert advert (ble_batch before.1)) before.1).
  set (i := Z.to_nat (count (ble_batch before.1))).
  assert (i < length (advertisements (ble_batch server)))%nat as Hi.
  { subst i. rewrite Hslot, Hadvs. unfold ESPHOME_MAX_ADV_BATCH in *.
    destruct (Z.leb_spec 16 (count (ble_batch server))); lia. }
  set (entry := fill_advertisement (advertisements (ble_batch before.1) !!! i) advert).
  assert (advertisements (ble_batch stored) !! i = Some entry) as Hentry.
  { subst stored entry. cbn [ble_batch set_ble_batch store_advert advertisements].
    apply list_lookup_insert_eq. by rewrite Hsame. }
  eexists _, _, entry. split; [reflexivity|].
  split.
  - destruct (Z.leb_spec ESPHOME_MAX_ADV_BATCH (count (ble_batch stored))).
    + destruct (flush_ble_batch_frame now stored) as (-> & _). exact Hentry.
    + exact Hentry.
  - subst entry. unfold fill_advertisement.
    destruct (Z.ltb_spec ESPHOME_MAX_ADV_DATA (advert_data_len advert)); [|lia].
    cbn [pb_data_len pb_data pb_address pb_rssi pb_address_type].
    repeat split.
    unfold memcpy. rewrite drop_ge, app_nil_r; [reflexivity|].
    rewrite Hsame.
    pose proof (list_lookup_total_correct (advertisements (ble_batch server)) i) as Hl.
    destruct (lookup_lt_is_Some_2 _ _ Hi) as [slot Hslot'].
    rewrite (Hl slot Hslot').
    rewrite Forall_lookup in Hdata. rewrite (Hdata i slot Hslot'). lia.
Qed.

End Enqueue.

Lemma example_server_wf : server_wf example_server.
Proof.
  split.
  - reflexivity.
  - reflexivity.
  - vm_compute. repeat constructor.
  - vm_compute. split; discriminate.
Qed.

Lemma example_batch_server_at_wf (n : Z) :
  0 <= n <= ESPHOME_MAX_ADV_BATCH -> server_wf (example_batch_server_at n).
Proof.
  intros Hn. destruct example_batch_server_wf as [Hclients Hadvs Hdata _].
  by split.
Qed.

(** The first advertisement of an empty batch; the sixteenth of a batch,
    which is flushed with it to the two subscribers; and one that finds 16
    entries, which are flushed before it is stored. *)
Lemma enqueue_flushes_then_appends_witness :
  (exists server',
     esphome_api_queue_ble_advert (proto := spec_proto) (platform := full_send_platform)
       example_time (Some example_server) (Some example_advert) = (Some server', []) /\
     count (ble_batch server') = 1 /\
     exists entry,
       batch_entries (ble_batch server') = [entry] /\
       pb_address entry = 0xAABBCCDDEEFF /\
       pb_rssi entry = -60 /\
       pb_data_len entry = 3 /\
       take 3 (pb_data entry) = [2; 1; 6]) /\
  (exists server' tr,
     esphome_api_queue_ble_advert (proto := spec_proto) (platform := full_send_platform)
       example_time (Some (example_batch_server_at 15)) (Some example_advert) =
       (Some server', tr) /\
     count (ble_batch server') = 0 /\
     length (sends tr) = 2%nat) /\
  (exists server' tr entry,
     esphome_api_queue_ble_advert (proto := spec_proto) (platform := full_send_platform)
       example_time (Some (example_batch_server_at 16)) (Some example_advert) =
       (Some server', tr) /\
     tr = (flush_ble_batch (proto := spec_proto) (platform := full_send_platform)
             example_time (example_batch_server_at 16)).2 /\
     batch_entries (ble_batch server') = [entry] /\
     pb_address entry = 0xAABBCCDDEEFF).
Proof.
  split; [|split].
  - destruct (enqueue_flushes_then_appends (proto := spec_proto)
                (platform := full_send_platform) example_time example_server
                example_advert example_server_wf eq_refl)
      as (server' & tr & entry & Hcall & Ha & Hr & _ & Hl & Hd & Hroom & _).
    destruct Hroom as (-> & _ & Hentries & Hcount); [vm_compute; reflexivity|].
    exists server'. split; [exact Hcall|]. split; [exact Hcount|].
    exists entry. split; [exact Hentries|].
    split; [rewrite Ha; vm_compute; reflexivity|].
    split; [exact Hr|]. split; [exact Hl|].
    rewrite Hl in Hd. exact Hd.
  - destruct (enqueue_flushes_then_appends (proto := spec_proto)
                (platform := full_send_platform) example_time
                (example_batch_server_at 15) example_advert)
      as (server' & tr & entry & Hcall & _ & _ & _ & _ & _ & _ & Hlast & _).
    + apply example_batch_server_at_wf. vm_compute. split; discriminate.
    + reflexivity.
    + destruct Hlast as (full & _ & _ & _ & _ & _ & Hcount); [reflexivity|].
      exists server', tr. split; [exact Hcall|]. split; [exact Hcount|].
      vm_compute in Hcall. injection Hcall as _ <-. reflexivity.
  - destruct (enqueue_flushes_then_appends (proto := spec_proto)
                (platform := full_send_platform) example_time
                (example_batch_server_at 16) example_advert)
      as (server' & tr & entry & Hcall & Ha & _ & _ & _ & _ & _ & _ & Hfull & _).
    + apply example_batch_server_at_wf. vm_compute. split; discriminate.
    + reflexivity.
    + destruct Hfull as (Htr & Hentries & _); [reflexivity|].
      exists server', tr, entry. split; [exact Hcall|]. split; [exact Htr|].
      split; [exact Hentries|]. rewrite Ha. vm_compute. reflexivity.
Defined.

(** An advertisement that claims 200 bytes. *)
Lemma long_data_is_truncated_witness :
  exists server' tr entry,
    esphome_api_queue_ble_advert (proto := spec_proto) (platform := full_send_platform)
      example_time (Some example_server) (Some example_long_advert) = (Some server', tr) /\
    advertisements (ble_batch server') !! 0%nat = Some entry /\
    pb_data_len entry = 62 /\
    pb_data entry = seqZ 1 62.
Proof.
  destruct (long_data_is_truncated (proto := spec_proto) (platform := full_send_platform)
              example_time example_server example_long_advert example_server_wf
              eq_refl eq_refl)
    as (server' & tr & entry & Hcall & Hslot & Hlen & Hdata & _).
  exists server', tr, entry. repeat split; assumption.
Defined.

(** ** The session registry *)

(** C8.  The registry has two slots.  When both are taken ([fd >= 0]) a
    newly accepted connection is closed at once: no slot is changed and
    nothing but the socket option and the [close] happens on it.  When a
    slot is free the connection is put into the first free slot and into no
    other, and its thread is started; if the thread cannot be started the
    slot is closed again. *)
Theorem registry_capacity (server : esphome_api_server) (client_fd : Z) :
  length (clients server) = Z.to_nat ESPHOME_MAX_CLIENTS ->
  0 <= client_fd ->
  (Forall (fun c => 0 <= fd c) (clients server) ->
   forall thread_ok,
     listen_thread_func client_fd thread_ok server =
     (server, [EvSetsockopt client_fd; EvClose client_fd])) /\
  (forall (i : nat) (c : client_connection_t),
     clients server !! i = Some c ->
     fd c < 0 ->
     Forall (fun c' => 0 <= fd c') (take i (clients server)) ->
     find_free_slot client_fd server 0 (Z.to_nat ESPHOME_MAX_CLIENTS) =
       (set_clients (<[i := set_fd client_fd c]> (clients server)) server, Z.of_nat i) /\
     listen_thread_func client_fd true server =
       (set_clients (<[i := set_thread_running true (set_fd client_fd c)]> (clients server))
          server,
        [EvSetsockopt client_fd; EvThreadCreate i]) /\
     listen_thread_func client_fd false server =
       (set_clients
          (<[i := (client_close (set_thread_running true (set_fd client_fd c))).1]>
             (clients server)) server,
        [EvSetsockopt client_fd; EvClose client_fd])).
Proof.
  intros Hlen Hfd.
  destruct (clients server) as [|c0 [|c1 [|? ?]]] eqn:Hclients; try discriminate.
  split.
  - intros Hbusy thread_ok.
    apply Forall_cons in Hbusy as [H0 Hbusy]. apply Forall_cons in Hbusy as [H1 _].
    unfold listen_thread_func.
    destruct (Z.ltb_spec client_fd 0); [lia|].
    change (Z.to_nat ESPHOME_MAX_CLIENTS) with 2%nat. cbn [find_free_slot].
    rewrite Hclients. cbn [lookup_total list_lookup_total].
    destruct (Z.ltb_spec (fd c0) 0); [lia|].
    destruct (Z.ltb_spec (fd c1) 0); [lia|].
    reflexivity.
  - intros i c Hslot Hfree Hbefore.
    unfold listen_thread_func.
    destruct (Z.ltb_spec client_fd 0); [lia|].
    change (Z.to_nat ESPHOME_MAX_CLIENTS) with 2%nat. cbn [find_free_slot].
    rewrite Hclients. cbn [lookup_total list_lookup_total].
    destruct i as [|[|i]]; cbn in Hslot; [| |done].
    + injection Hslot as ->.
      destruct (Z.ltb_spec (fd c) 0); [|lia].
      change (Z.to_nat (Z.of_nat 0)) with 0%nat. change (Z.of_nat 0) with 0.
      unfold client_close. cbn.
      destruct (Z.leb_spec 0 client_fd); [|lia].
      done.
    + injection Hslot as ->.
      apply Forall_cons in Hbefore as [H0 _].
      destruct (Z.ltb_spec (fd c0) 0); [lia|].
      destruct (Z.ltb_spec (fd c) 0); [|lia].
      change (Z.to_nat (Z.of_nat 1)) with 1%nat. change (Z.of_nat 1) with 1.
      unfold client_close. cbn.
      destruct (Z.leb_spec 0 client_fd); [|lia].
      done.
Qed.

(** A third connection while both slots are taken, and a second one while
    slot 1 is free. *)
Lemma registry_capacity_witness :
  listen_thread_func 7 true example_busy_server =
    (example_busy_server, [EvSetsockopt 7; EvClose 7]) /\
  listen_thread_func 7 true example_server =
    (set_clients [example_client 5; set_thread_running true (set_fd 7 client_init)]
       example_server,
     [EvSetsockopt 7; EvThreadCreate 1]).
Proof.
  split.
  - refine (proj1 (registry_capacity example_busy_server 7 eq_refl _) _ true).
    + discriminate.
    + repeat constructor; discriminate.
  - refine (proj1 (proj2 (proj2 (registry_capacity example_server 7 eq_refl _)
                            1%nat client_init eq_refl eq_refl _))).
    + discriminate.
    + repeat constructor; discriminate.
Defined.

(** ** Well-formed servers

    [server_wf] holds of the server [esphome_api_init] returns and is kept
    by the operations: it is no restriction on the states the code reaches. *)

Lemma esphome_api_init_wf (cfg : esphome_device_config_t) (now : timespec) :
  server_wf (esphome_api_init cfg now).
Proof.
  split.
  - reflexivity.
  - reflexivity.
  - cbn [esphome_api_init ble_batch advertisements]. apply Forall_replicate. reflexivity.
  - cbn. unfold ESPHOME_MAX_ADV_BATCH. lia.
Qed.

Section WellFormed.
Context {proto : EsphomeProto} {platform : Platform}.

Lemma esphome_api_queue_ble_advert_wf (now : timespec) (server : esphome_api_server)
    (advert : esphome_ble_advert_t) :
  server_wf server ->
  length (advert_data advert) = Z.to_nat ESPHOME_MAX_ADV_DATA ->
  exists server' tr,
    esphome_api_queue_ble_advert now (Some server) (Some advert) = (Some server', tr) /\
    server_wf server'.
Proof.
  intros Hwf Hlen. rewrite esphome_api_queue_ble_advert_steps. cbv zeta.
  eexists _, _. split; [reflexivity|].
  assert (forall s, server_wf s -> count (ble_batch s) < ESPHOME_MAX_ADV_BATCH ->
            server_wf
              (if ESPHOME_MAX_ADV_BATCH <=?
                    count (ble_batch (set_ble_batch (store_advert advert (ble_batch s)) s))
               then flush_ble_batch now
                      (set_ble_batch (store_advert advert (ble_batch s)) s)
               else (set_ble_batch (store_advert advert (ble_batch s)) s, [])).1)
    as Hstep.
  { intros s Hs Hroom.
    pose proof (store_advert_wf advert s Hs Hroom Hlen) as Hwf2.
    case_match; [by apply flush_ble_batch_wf | exact Hwf2]. }
  destruct (Z.leb_spec ESPHOME_MAX_ADV_BATCH (count (ble_batch server))).
  - apply Hstep; [by apply flush_ble_batch_wf|].
    rewrite flush_ble_batch_count. unfold ESPHOME_MAX_ADV_BATCH. lia.
  - by apply Hstep.
Qed.

End WellFormed.

Lemma listen_thread_func_wf (client_fd : Z) (thread_ok : bool)
    (server : esphome_api_server) :
  server_wf server -> server_wf (listen_thread_func client_fd thread_ok server).1.
Proof.
  intros Hwf. unfold listen_thread_func.
  destruct (client_fd <? 0); [exact Hwf|].
  assert (forall n i s, server_wf s ->
            server_wf (find_free_slot client_fd s i n).1) as Hfind.
  { induction n as [|n IH]; intros i s Hs; [exact Hs|].
    cbn [find_free_slot]. destruct (fd (clients s !!! i) <? 0); [|by apply IH].
    destruct Hs as [Hclients Hadvs Hdata Hcount].
    split; cbn [fst clients set_clients ble_batch]; try assumption.
    by rewrite length_insert. }
  specialize (Hfind (Z.to_nat ESPHOME_MAX_CLIENTS) 0%nat server Hwf).
  destruct (find_free_slot client_fd server 0 (Z.to_nat ESPHOME_MAX_CLIENTS))
    as [s slot].
  cbn [fst] in Hfind. destruct Hfind as [Hclients Hadvs Hdata Hcount].
  destruct (slot <? 0); [by split|].
  destruct thread_ok.
  - split; cbn [fst clients set_clients ble_batch]; try assumption.
    by rewrite length_insert.
  - destruct (client_close _) as [c tr].
    split; cbn [fst clients set_clients ble_batch]; try assumption.
    by rewrite length_insert.
Qed.

(** * Further properties *)

(** ** Dispatch *)

Section DispatchMore.
Context {proto : EsphomeProto} {platform : Platform}.

Lemma send_message_reply (client : client_connection_t) (msg_type : Z) (body : list Z) :
  let frame := esphome_frame_message SEND_BUFFER_SIZE msg_type body in
  (send_message client msg_type body).2 = [] \/
  (frame <> [] /\
   (send_message client msg_type body).2 = [EvSend (fd client) frame (send (fd client) frame)]).
Proof.
  cbv zeta. unfold send_message.
  destruct (esphome_frame_message SEND_BUFFER_SIZE msg_type body) as [|b frame];
    [by left|].
  right. split; [done|]. cbn [length].
  destruct (Z.eqb_spec (Z.of_nat (S (length frame))) 0); [lia|].
  repeat case_match; reflexivity.
Qed.

(** X1.  One inbound message gets at most one reply: whatever the message
    type, the payload and the codec, [dispatch_message] calls [send] at
    most once, with a frame that was built, on the socket of the session
    the message came from. *)
Theorem dispatch_sends_at_most_one_reply (server : esphome_api_server)
    (client : client_connection_t) (msg_type : Z) (payload : list Z) :
  exists reply,
    (dispatch_message server client msg_type payload).2 =
      EvDispatch msg_type payload :: reply /\
    (reply = [] \/
     exists reply_type body,
       let frame := esphome_frame_message SEND_BUFFER_SIZE reply_type body in
       frame <> [] /\
       reply = [EvSend (fd client) frame (send (fd client) frame)]).
Proof.
  unfold dispatch_message.
  assert (forall c t b,
            (send_message c t b).2 = [] \/
            exists reply_type body,
              let frame := esphome_frame_message SEND_BUFFER_SIZE reply_type body in
              frame <> [] /\
              (send_message c t b).2 = [EvSend (fd c) frame (send (fd c) frame)])
    as Hsend.
  { intros c t b. destruct (send_message_reply c t b) as [H|H]; [by left|].
    right. by exists t, b. }
  destruct (select_handler msg_type); cbn [run_handler];
    unfold handle_hello_request, handle_connect_request, handle_device_info_request,
      handle_list_entities_request, handle_subscribe_states_request,
      handle_subscribe_ble_advertisements, handle_ping_request,
      handle_subscribe_homeassistant_services, handle_subscribe_homeassistant_states;
    repeat case_match; simplify_eq/=; eexists; (split; [reflexivity|]);
    try (by left); try apply Hsend.
  (* the ConnectRequest handler sends on the client it has just marked *)
  all: destruct (Hsend (set_authenticated true client) ESPHOME_MSG_CONNECT_RESPONSE
                   (esphome_encode_connect_response 32 {| invalid_password := false |}))
         as [H|H]; [by left | by right].
Qed.

(** X2.  What a message does to the session flags, for every message type,
    payload and codec: [authenticated] is set by a ConnectRequest (type 3),
    whatever its payload, and by nothing else; [subscribed_ble] is set by a
    SubscribeBluetoothLEAdvertisementsRequest (type 66) whose payload
    decodes, and by nothing else; no message clears a flag, and no message
    touches the socket, the receive buffer or [thread_running]. *)
Theorem dispatch_session_flags (server : esphome_api_server)
    (client : client_connection_t) (msg_type : Z) (payload : list Z) :
  let client' := (dispatch_message server client msg_type payload).1 in
  authenticated client' =
    authenticated client || (msg_type =? ESPHOME_MSG_CONNECT_REQUEST) /\
  subscribed_ble client' =
    subscribed_ble client ||
    ((msg_type =? ESPHOME_MSG_SUBSCRIBE_BLUETOOTH_LE_ADVERTISEMENTS_REQUEST) &&
     match esphome_decode_subscribe_ble_advertisements payload with
     | Some _ => true
     | None => false
     end) /\
  fd client' = fd client /\
  recv_buffer client' = recv_buffer client /\
  recv_pos client' = recv_pos client /\
  thread_running client' = thread_running client.
Proof.
  cbv zeta. unfold dispatch_message, select_handler.
  unfold ESPHOME_MSG_HELLO_REQUEST, ESPHOME_MSG_CONNECT_REQUEST,
    ESPHOME_MSG_DEVICE_INFO_REQUEST, ESPHOME_MSG_LIST_ENTITIES_REQUEST,
    ESPHOME_MSG_SUBSCRIBE_STATES_REQUEST,
    ESPHOME_MSG_SUBSCRIBE_BLUETOOTH_LE_ADVERTISEMENTS_REQUEST,
    ESPHOME_MSG_SUBSCRIBE_HOMEASSISTANT_SERVICES_REQUEST,
    ESPHOME_MSG_SUBSCRIBE_HOMEASSISTANT_STATES_REQUEST,
    ESPHOME_MSG_PING_REQUEST, ESPHOME_MSG_DISCONNECT_REQUEST.
  repeat match goal with
         | |- context [msg_type =? ?k] =>
           destruct (Z.eqb_spec msg_type k); [subst msg_type|]
         end;
    cbn -[esphome_decode_subscribe_ble_advertisements];
    unfold handle_hello_request, handle_connect_request, handle_device_info_request,
      handle_subscribe_ble_advertisements;
    repeat case_match; simplify_eq/=;
    rewrite ?orb_false_r, ?orb_true_r; try done.
Qed.

(** X3.  Messages of every type other than 1, 3, 7, 9, 11 and 66 are taken
    and dropped: the session is what it was and nothing is sent.  This
    includes DisconnectRequest (type 5), which gets no DisconnectResponse
    and does not close the connection. *)
Theorem dispatch_ignores_other_types (server : esphome_api_server)
    (client : client_connection_t) (msg_type : Z) (payload : list Z) :
  ~ In msg_type [ESPHOME_MSG_HELLO_REQUEST; ESPHOME_MSG_CONNECT_REQUEST;
                 ESPHOME_MSG_PING_REQUEST; ESPHOME_MSG_DEVICE_INFO_REQUEST;
                 ESPHOME_MSG_LIST_ENTITIES_REQUEST;
                 ESPHOME_MSG_SUBSCRIBE_BLUETOOTH_LE_ADVERTISEMENTS_REQUEST] ->
  dispatch_message server client msg_type payload =
  (client, [EvDispatch msg_type payload]).
Proof.
  intros Hother. unfold dispatch_message, select_handler.
  repeat match goal with
         | |- context [msg_type =? ?k] =>
           destruct (Z.eqb_spec msg_type k);
             [try (exfalso; apply Hother; subst msg_type; cbn; tauto)|]
         end; reflexivity.
Qed.

End DispatchMore.

Lemma dispatch_ignores_other_types_witness :
  dispatch_message (proto := spec_proto) (platform := full_send_platform)
    example_server (example_client 5) ESPHOME_MSG_DISCONNECT_REQUEST [] =
  (example_client 5, [EvDispatch ESPHOME_MSG_DISCONNECT_REQUEST []]).
Proof.
  apply (dispatch_ignores_other_types (proto := spec_proto)
           (platform := full_send_platform)).
  vm_compute. intros H. repeat destruct H as [H|H]; try discriminate H. exact H.
Defined.

(** ** The receive buffer *)

Section BufferMore.
Context {proto : EsphomeProto} {platform : Platform}.

Lemma dispatch_message_own_traffic (server : esphome_api_server)
    (client : client_connection_t) (msg_type : Z) (payload : list Z) :
  Forall (own_traffic (fd client)) (dispatch_message server client msg_type payload).2.
Proof.
  pose proof (dispatch_message_fd server client msg_type payload) as Hfd.
  unfold dispatch_message in *.
  assert (forall c t b, fd c = fd client ->
            Forall (own_traffic (fd client)) (send_message c t b).2) as Hsend.
  { intros c t b Hc.
    destruct (send_message_trace_cases c t b) as [-> | (frame & sent & ->)];
      [constructor|]. repeat constructor. exact Hc. }
  destruct (select_handler msg_type); cbn [run_handler];
    unfold handle_hello_request, handle_connect_request, handle_device_info_request,
      handle_list_entities_request, handle_subscribe_states_request,
      handle_subscribe_ble_advertisements, handle_ping_request,
      handle_subscribe_homeassistant_services, handle_subscribe_homeassistant_states;
    repeat case_match; simplify_eq/=; constructor; try done;
    try (by apply Hsend); try constructor.
Qed.

Lemma dispatch_message_keeps_flags (server : esphome_api_server)
    (client : client_connection_t) (msg_type : Z) (payload : list Z) :
  let client' := (dispatch_message server client msg_type payload).1 in
  (authenticated client = true -> authenticated client' = true) /\
  (subscribed_ble client = true -> subscribed_ble client' = true).
Proof.
  cbv zeta. unfold dispatch_message.
  destruct (select_handler msg_type); cbn [run_handler];
    unfold handle_hello_request, handle_connect_request, handle_device_info_request,
      handle_list_entities_request, handle_subscribe_states_request,
      handle_subscribe_ble_advertisements, handle_ping_request,
      handle_subscribe_homeassistant_services, handle_subscribe_homeassistant_states;
    repeat case_match; simplify_eq/=; done.
Qed.

Lemma handle_client_data_nonneg (server : esphome_api_server) (fuel : nat) :
  forall (client client' : client_connection_t) (tr : trace),
    0 <= recv_pos client ->
    handle_client_data fuel server client = Some (client', tr) ->
    0 <= recv_pos client'.
Proof.
  induction fuel as [|f IHf]; intros c c' t Hc Hr.
  - cbn in Hr. destruct (Z.ltb_spec 0 (recv_pos c)); [done|]. by simplify_eq/=.
  - rewrite handle_client_data_unfold in Hr.
    destruct (Z.ltb_spec 0 (recv_pos c)); cbn [negb] in Hr; [|by simplify_eq/=].
    destruct (esphome_decode_frame_header (valid_bytes c)) as [[h m] ty].
    cbv zeta in Hr.
    destruct (Z.eqb_spec h 0); [by simplify_eq/=|].
    destruct (Z.ltb_spec (recv_pos c) (u32 (h + u32 m))); [by simplify_eq/=|].
    pose proof (dispatch_message_spec server c (u16 ty)
                  (take (Z.to_nat (u32 m)) (drop (Z.to_nat h) (recv_buffer c))))
      as Hs.
    cbv zeta in Hs.
    destruct (dispatch_message server c (u16 ty) _) as [d td].
    cbn [fst snd] in Hs. destruct Hs as (_ & _ & _ & Hp & _).
    destruct (handle_client_data f server _) as [[e te]|] eqn:He; [|done].
    injection Hr as <- <-. eapply IHf; [|exact He].
    cbn [recv_pos set_recv]. rewrite Hp. lia.
Qed.

Lemma handle_client_data_buffer (fuel : nat) (server : esphome_api_server)
    (client client' : client_connection_t) (tr : trace) :
  recv_pos client <= Z.of_nat (length (recv_buffer client)) ->
  handle_client_data fuel server client = Some (client', tr) ->
  fd client' = fd client /\
  thread_running client' = thread_running client /\
  (authenticated client = true -> authenticated client' = true) /\
  (subscribed_ble client = true -> subscribed_ble client' = true) /\
  length (recv_buffer client') = length (recv_buffer client) /\
  recv_pos client' <= recv_pos client /\
  valid_bytes client' =
    drop (Z.to_nat (recv_pos client - recv_pos client')) (valid_bytes client) /\
  Forall (own_traffic (fd client)) tr.
Proof.
  revert client tr. induction fuel as [|fuel IH]; intros client tr Hfit Hrun.
  - cbn in Hrun. destruct (Z.ltb_spec 0 (recv_pos client)); [done|].
    simplify_eq/=. rewrite Z.sub_diag. by repeat split.
  - rewrite handle_client_data_unfold in Hrun.
    destruct (Z.ltb_spec 0 (recv_pos client)) as [Hpos|]; cbn [negb] in Hrun;
      [|simplify_eq/=; rewrite Z.sub_diag; by repeat split].
    destruct (esphome_decode_frame_header (valid_bytes client))
      as [[header_len msg_len] msg_type].
    cbv zeta in Hrun.
    destruct (Z.eqb_spec header_len 0);
      [simplify_eq/=; rewrite Z.sub_diag; by repeat split|].
    set (total_len := u32 (header_len + u32 msg_len)) in *.
    assert (0 <= total_len) as Htotal by (apply Z.mod_pos_bound; done).
    destruct (Z.ltb_spec (recv_pos client) total_len) as [|Hwhole];
      [simplify_eq/=; rewrite Z.sub_diag; by repeat split|].
    set (payload := take _ _) in Hrun.
    pose proof (dispatch_message_spec server client (u16 msg_type) payload) as Hspec.
    pose proof (dispatch_message_keeps_flags server client (u16 msg_type) payload)
      as Hflags.
    pose proof (dispatch_message_own_traffic server client (u16 msg_type) payload)
      as Hown.
    cbv zeta in Hspec, Hflags.
    destruct (dispatch_message server client (u16 msg_type) payload) as [c1 tr1].
    cbn [fst snd] in Hspec, Hflags, Hown.
    destruct Hspec as (_ & _ & Hbuf & Hp & Hfd & Hthread).
    destruct Hflags as (Hauth & Hsub).
    set (c2 := set_recv _ _ c1) in Hrun.
    destruct (handle_client_data fuel server c2) as [[c3 tr3]|] eqn:Hrest; [|done].
    injection Hrun as <- <-.
    assert (length (recv_buffer c2) = length (recv_buffer client)) as Hlen2.
    { subst c2. cbn. unfold memcpy. rewrite Hbuf, Hp.
      rewrite length_app, length_take, !length_drop. lia. }
    assert (recv_pos c2 = recv_pos client - total_len) as Hpos2
      by (subst c2; cbn; by rewrite Hp).
    assert (valid_bytes c2 = drop (Z.to_nat total_len) (valid_bytes client)) as Hvalid2.
    { unfold valid_bytes. rewrite Hpos2. subst c2. cbn. unfold memcpy.
      rewrite Hbuf, Hp. rewrite take_app_le by (rewrite length_take, length_drop; lia).
      rewrite take_take, Nat.min_id.
      rewrite take_drop_commute. f_equal. f_equal. lia. }
    destruct (IH c2 tr3) as (Hfd3 & Hthread3 & Hauth3 & Hsub3 & Hlen3 & Hpos3 & Hvalid3 & Hown3);
      [lia | exact Hrest |].
    assert (fd c2 = fd client) as Hfd2 by (subst c2; cbn; exact Hfd).
    assert (0 <= recv_pos c3 \/ recv_pos c3 < 0) as [Hnn|Hneg] by lia.
    + repeat split.
      * congruence.
      * rewrite Hthread3. subst c2. cbn. exact Hthread.
      * intros Ha. apply Hauth3. subst c2. cbn. by apply Hauth.
      * intros Hs. apply Hsub3. subst c2. cbn. by apply Hsub.
      * congruence.
      * lia.
      * rewrite Hvalid3, Hvalid2, drop_drop. f_equal. lia.
      * apply Forall_app. split; [exact Hown | by rewrite <- Hfd2].
    + (* the fill level never becomes negative *)
      assert (0 <= recv_pos c2) as Hc2 by lia.
      pose proof (handle_client_data_nonneg server fuel c2 c3 tr3 Hc2 Hrest). lia.
Qed.

(** With a decoder that keeps within 32 bits every turn of the loop
    consumes at least one byte, so the loop ends. *)
Lemma handle_client_data_returns (server : esphome_api_server) (fuel : nat) :
  decoder_in_bounds ->
  forall client : client_connection_t,
    (Z.to_nat (recv_pos client) < fuel)%nat ->
    exists client' tr, handle_client_data fuel server client = Some (client', tr).
Proof.
  intros Hbounds. induction fuel as [|fuel IH]; intros client Hfuel; [lia|].
  rewrite handle_client_data_unfold.
  destruct (Z.ltb_spec 0 (recv_pos client)) as [Hpos|]; cbn [negb]; [|by eexists _, _].
  pose proof (Hbounds (valid_bytes client)) as Hheader.
  destruct (esphome_decode_frame_header (valid_bytes client))
    as [[header_len msg_len] msg_type].
  cbv zeta.
  destruct (Z.eqb_spec header_len 0) as [|Hne]; [by eexists _, _|].
  destruct (Hheader Hne) as [Hh Hsum].
  assert (0 <= u32 msg_len) by (apply Z.mod_pos_bound; done).
  assert (u32 (header_len + u32 msg_len) = header_len + u32 msg_len) as ->
    by (apply Z.mod_small; lia).
  destruct (Z.ltb_spec (recv_pos client) (header_len + u32 msg_len));
    [by eexists _, _|].
  pose proof (dispatch_message_spec server client (u16 msg_type)
                (take (Z.to_nat (u32 msg_len))
                      (drop (Z.to_nat header_len) (recv_buffer client)))) as Hspec.
  cbv zeta in Hspec.
  destruct (dispatch_message server client (u16 msg_type) _) as [c1 tr1].
  cbn [fst snd] in Hspec. destruct Hspec as (_ & _ & _ & Hp & _).
  destruct (IH (set_recv (memcpy (recv_buffer c1)
                            (drop (Z.to_nat (header_len + u32 msg_len)) (recv_buffer c1))
                            (recv_pos c1 - (header_len + u32 msg_len)))
                         (recv_pos c1 - (header_len + u32 msg_len)) c1))
    as (c2 & tr2 & ->).
  - cbn [recv_pos set_recv]. rewrite Hp. lia.
  - by eexists _, _.
Qed.

(** X4.  What [handle_client_data] can and cannot do, for every server,
    every buffer content and every codec whose header decoder keeps within
    32 bits.  It returns; it keeps the socket and [thread_running]; it
    clears no flag; it keeps the buffer's size and never raises the fill
    level; and it consumes only from the front -- the bytes left are the
    old bytes with a prefix removed, in order, moved to the start of the
    buffer.  All it does to the outside is decode messages and send on the
    session's own socket. *)
Theorem handle_client_data_invariants (fuel : nat) (server : esphome_api_server)
    (client : client_connection_t) :
  decoder_in_bounds ->
  recv_pos client <= Z.of_nat (length (recv_buffer client)) ->
  (Z.to_nat (recv_pos client) < fuel)%nat ->
  exists (client' : client_connection_t) (tr : trace),
    handle_client_data fuel server client = Some (client', tr) /\
    fd client' = fd client /\
    thread_running client' = thread_running client /\
    (authenticated client = true -> authenticated client' = true) /\
    (subscribed_ble client = true -> subscribed_ble client' = true) /\
    length (recv_buffer client') = length (recv_buffer client) /\
    recv_pos client' <= recv_pos client /\
    valid_bytes client' =
      drop (Z.to_nat (recv_pos client - recv_pos client')) (valid_bytes client) /\
    Forall (own_traffic (fd client)) tr.
Proof.
  intros Hbounds Hfit Hfuel.
  destruct (handle_client_data_returns server fuel Hbounds client Hfuel)
    as (client' & tr & Hrun).
  exists client', tr. split; [exact Hrun|].
  by apply (handle_client_data_buffer fuel server).
Qed.

End BufferMore.

Lemma checked_proto_in_bounds : decoder_in_bounds (proto := checked_proto).
Proof.
  intros input.
  change (esphome_decode_frame_header (EsphomeProto := checked_proto) input)
    with (checked_decode_frame_header input).
  unfold checked_decode_frame_header.
  destruct (ProtoC.esphome_decode_frame_header input) as [[h m] t].
  destruct (Z.ltb_spec 0 h); cbn [andb]; [|done].
  destruct (Z.ltb_spec (h + u32 m) (2 ^ 32)); done.
Qed.

Lemma handle_client_data_invariants_witness :
  exists client' tr,
    handle_client_data (proto := checked_proto) (platform := full_send_platform) 6
      example_server (recv_store (example_client 5) [0; 1; 7; 0; 1]) =
      Some (client', tr) /\
    fd client' = 5 /\
    valid_bytes client' = [0; 1] /\
    Forall (own_traffic 5) tr.
Proof.
  destruct (handle_client_data_invariants (proto := checked_proto)
              (platform := full_send_platform) 6 example_server
              (recv_store (example_client 5) [0; 1; 7; 0; 1]))
    as (client' & tr & Hrun & Hfd & _ & _ & _ & _ & _ & Hvalid & Hown).
  - exact checked_proto_in_bounds.
  - vm_compute. discriminate.
  - vm_compute. lia.
  - exists client', tr. split; [exact Hrun|]. split; [exact Hfd|].
    split; [|exact Hown].
    vm_compute in Hrun. injection Hrun as <- <-. reflexivity.
Defined.

(** ** Sessions and slots *)

Lemma client_close_spec (client : client_connection_t) :
  let closed := (client_close client).1 in
  fd closed < 0 /\
  authenticated closed = false /\
  subscribed_ble closed = false /\
  recv_pos closed = 0 /\
  recv_buffer closed = recv_buffer client /\
  thread_running closed = thread_running client /\
  (client_close client).2 = (if 0 <=? fd client then [EvClose (fd client)] else []).
Proof.
  cbv zeta. unfold client_close.
  destruct (Z.leb_spec 0 (fd client)); cbn; repeat split; lia.
Qed.

Lemma client_close_inv (client : client_connection_t) :
  client_wf client ->
  client_wf (client_close client).1 /\ slot_clean (client_close client).1.
Proof.
  intros [Hlen Hpos].
  destruct (client_close_spec client) as (Hfd & Ha & Hs & Hp & Hb & _).
  cbv zeta in *. split.
  - split; [by rewrite Hb|]. rewrite Hp. unfold RECV_BUFFER_SIZE. lia.
  - intros _. done.
Qed.

Lemma close_all_clients_spec (server : esphome_api_server) :
  length (clients server) = Z.to_nat ESPHOME_MAX_CLIENTS ->
  close_all_clients server =
  (set_clients (map (fun c => (client_close c).1) (clients server)) server,
   concat (map (fun c => (client_close c).2) (clients server))).
Proof.
  intros Hlen. destruct server as [cfg lfd run cls batch lf]. cbn in Hlen.
  destruct cls as [|c0 [|c1 [|c2 cls]]]; try discriminate Hlen.
  unfold close_all_clients.
  change (seqZ 0 ESPHOME_MAX_CLIENTS) with [0; 1].
  cbn [foldl clients set_clients].
  change (idx [c0; c1] 0) with c0.
  destruct (client_close c0) as [d0 t0] eqn:E0.
  cbn [foldl clients set_clients].
  change (Z.to_nat 0) with 0%nat. cbn [insert list_insert].
  change (idx [d0; c1] 1) with c1.
  destruct (client_close c1) as [d1 t1] eqn:E1.
  change (Z.to_nat 1) with 1%nat.
  cbn [insert list_insert map concat fst snd set_clients]. rewrite E0, E1.
  cbn [fst snd]. by rewrite app_nil_r.
Qed.

Lemma closes_client_close (cls : list client_connection_t) :
  concat (map (fun c => (client_close c).2) cls) =
  map EvClose (filter (fun sock => 0 <= sock) (map fd cls)).
Proof.
  induction cls as [|c cls IH]; [reflexivity|].
  cbn [map concat]. rewrite IH, filter_cons.
  destruct (client_close_spec c) as (_ & _ & _ & _ & _ & _ & ->).
  destruct (Z.leb_spec 0 (fd c)); case_decide; try lia; reflexivity.
Qed.

Lemma closed_clients_free (cls : list client_connection_t) :
  filter (fun sock => 0 <= sock) (map fd (map (fun c => (client_close c).1) cls)) = [].
Proof.
  induction cls as [|c cls IH]; [reflexivity|].
  cbn [map]. rewrite filter_cons, IH.
  destruct (client_close_spec c) as (Hfd & _). cbv zeta in Hfd.
  case_decide; [lia | reflexivity].
Qed.

Lemma idx_pair {A : Type} `{!Inhabited A} (a b : A) :
  idx [a; b] 0 = a /\ idx [a; b] 1 = b.
Proof. by split. Qed.

Section Sessions.
Context {proto : EsphomeProto} {platform : Platform}.

Lemma recv_store_wf (client : client_connection_t) (data : list Z) :
  client_wf client ->
  Z.of_nat (length data) <= RECV_BUFFER_SIZE - recv_pos client ->
  client_wf (recv_store client data).
Proof.
  intros [Hlen Hpos] Hroom. unfold client_wf, recv_store, memcpy.
  cbn [recv_buffer recv_pos set_recv]. unfold RECV_BUFFER_SIZE in *.
  rewrite Nat2Z.id, !length_app, !length_take, !length_drop. lia.
Qed.

Lemma handle_client_data_wf (fuel : nat) (server : esphome_api_server)
    (client client' : client_connection_t) (tr : trace) :
  client_wf client ->
  handle_client_data fuel server client = Some (client', tr) ->
  client_wf client'.
Proof.
  intros [Hlen Hpos] Hrun.
  pose proof (handle_client_data_nonneg server fuel client client' tr
                (proj1 Hpos) Hrun) as Hnn.
  destruct (handle_client_data_buffer fuel server client client' tr)
    as (_ & _ & _ & _ & Hlen' & Hpos' & _); [|exact Hrun|].
  - rewrite Hlen. unfold RECV_BUFFER_SIZE in *. lia.
  - split; [congruence | lia].
Qed.

(** The receive loop: it keeps the slot's socket and [thread_running], all
    its traffic is the session's own, and it is only ever found waiting
    with the server running and the socket open. *)
Lemma client_thread_loop_facts (fuel : nat) (server : esphome_api_server)
    (script : list recv_result) :
  forall (client client' : client_connection_t) (tr : trace) (exited : bool),
    client_wf client ->
    client_thread_loop fuel script server client = Some (client', tr, exited) ->
    client_wf client' /\
    fd client' = fd client /\
    thread_running client' = thread_running client /\
    Forall (own_traffic (fd client)) tr /\
    (exited = false -> running server = true /\ 0 <= fd client).
Proof.
  assert (forall client : client_connection_t,
            client_wf client ->
            client_wf client /\ fd client = fd client /\
            thread_running client = thread_running client /\
            Forall (own_traffic (fd client)) [] /\
            (true = false -> running server = true /\ 0 <= fd client)) as Hleft.
  { intros client Hwf. repeat split; try apply Hwf; try done. }
  induction script as [|result script IH]; intros client client' tr exited Hwf Hrun;
    cbn [client_thread_loop] in Hrun;
    (destruct (running server) eqn:Hrunning; cbn [andb negb] in Hrun;
     [|injection Hrun as <- <- <-; by apply Hleft]);
    (destruct (Z.leb_spec 0 (fd client)) as [Hopen|]; cbn [negb] in Hrun;
     [|injection Hrun as <- <- <-; by apply Hleft]).
  { injection Hrun as <- <- <-. repeat split; try apply Hwf; done. }
  destruct result as [data|]; [|injection Hrun as <- <- <-; by apply Hleft].
  set (taken := take (Z.to_nat (RECV_BUFFER_SIZE - recv_pos client)) data) in *.
  destruct (Z.leb_spec (Z.of_nat (length taken)) 0);
    [injection Hrun as <- <- <-; by apply Hleft|].
  assert (client_wf (recv_store client taken)) as Hstored.
  { apply recv_store_wf; [exact Hwf|]. subst taken. rewrite length_take.
    destruct Hwf as [_ ?]. lia. }
  destruct (handle_client_data fuel server (recv_store client taken))
    as [[c1 tr1]|] eqn:Hdata; [|done].
  destruct (client_thread_loop fuel script server c1) as [[[c2 tr2] ex2]|] eqn:Hloop;
    [|done].
  injection Hrun as <- <- <-.
  pose proof (handle_client_data_wf fuel server (recv_store client taken) c1 tr1
                Hstored Hdata) as Hwf1.
  destruct (handle_client_data_buffer fuel server (recv_store client taken) c1 tr1)
    as (Hfd1 & Hthread1 & _ & _ & _ & _ & _ & Hown1); [|exact Hdata|].
  { destruct Hstored as [-> ?]. lia. }
  destruct (IH c1 c2 tr2 ex2 Hwf1 Hloop) as (Hwf2 & Hfd2 & Hthread2 & Hown2 & Hwait).
  change (fd (recv_store client taken)) with (fd client) in *.
  change (thread_running (recv_store client taken)) with (thread_running client) in *.
  repeat split; try apply Hwf2; try congruence.
  - apply Forall_app. split; [exact Hown1 | by rewrite <- Hfd1].
Qed.

Lemma client_thread_func_spec (fuel : nat) (script : list recv_result)
    (server server' : esphome_api_server) (slot : nat) (tr : trace) (exited : bool) :
  client_wf (clients server !!! slot) ->
  client_thread_func fuel script server slot = Some (server', tr, exited) ->
  let before := clients server !!! slot in
  exists (after : client_connection_t) (traffic : trace),
    server' = set_clients (<[slot := after]> (clients server)) server /\
    client_wf after /\
    Forall (own_traffic (fd before)) traffic /\
    if exited
    then fd after < 0 /\ authenticated after = false /\ subscribed_ble after = false /\
         recv_pos after = 0 /\ thread_running after = false /\
         tr = traffic ++ (if 0 <=? fd before then [EvClose (fd before)] else [])
    else running server = true /\ 0 <= fd before /\ fd after = fd before /\
         thread_running after = thread_running before /\ tr = traffic.
Proof.
  intros Hwf Hrun. cbv zeta. unfold client_thread_func in Hrun.
  destruct (client_thread_loop fuel script server (clients server !!! slot))
    as [[[c1 tr1] ex1]|] eqn:Hloop; [|done].
  destruct (client_thread_loop_facts _ _ _ _ _ _ _ Hwf Hloop)
    as (Hwf1 & Hfd1 & Hthread1 & Hown1 & Hwait).
  destruct ex1.
  - destruct (client_close_spec c1) as (Hfd & Ha & Hs & Hp & Hb & Ht & Htr).
    destruct (client_close_inv c1 Hwf1) as [Hwf2 _].
    cbv zeta in *.
    destruct (client_close c1) as [c2 tr2]. cbn [fst snd] in *.
    injection Hrun as <- <- <-.
    exists (set_thread_running false c2), tr1. split; [reflexivity|].
    split; [exact Hwf2|]. split; [exact Hown1|].
    cbn. rewrite Htr, Hfd1. by repeat split.
  - injection Hrun as <- <- <-. exists c1, tr1.
    destruct (Hwait eq_refl) as [? ?]. repeat split; try done; apply Hwf1.
Qed.

Lemma client_thread_loop_returns (fuel : nat) (server : esphome_api_server)
    (script : list recv_result) :
  decoder_in_bounds ->
  RECV_BUFFER_SIZE < Z.of_nat fuel ->
  forall client : client_connection_t,
    client_wf client ->
    exists client' tr exited,
      client_thread_loop fuel script server client = Some (client', tr, exited).
Proof.
  intros Hbounds Hfuel.
  induction script as [|result script IH]; intros client Hwf;
    cbn [client_thread_loop];
    (destruct (negb (running server && (0 <=? fd client))); [by eexists _, _, _|]).
  - by eexists _, _, _.
  - destruct result as [data|]; [|by eexists _, _, _].
    set (taken := take (Z.to_nat (RECV_BUFFER_SIZE - recv_pos client)) data).
    destruct (Z.leb_spec (Z.of_nat (length taken)) 0); [by eexists _, _, _|].
    assert (client_wf (recv_store client taken)) as Hstored.
    { apply recv_store_wf; [exact Hwf|]. subst taken. rewrite length_take.
      destruct Hwf as [_ ?]. lia. }
    destruct (handle_client_data_returns server fuel Hbounds (recv_store client taken))
      as (c1 & tr1 & Hdata).
    { destruct Hstored as [_ ?]. lia. }
    rewrite Hdata.
    destruct (IH c1 (handle_client_data_wf _ _ _ _ _ Hstored Hdata))
      as (c2 & tr2 & exited & ->).
    by eexists _, _, _.
Qed.

Lemma client_thread_func_returns (fuel : nat) (script : list recv_result)
    (server : esphome_api_server) (slot : nat) :
  decoder_in_bounds ->
  RECV_BUFFER_SIZE < Z.of_nat fuel ->
  client_wf (clients server !!! slot) ->
  exists server' tr exited,
    client_thread_func fuel script server slot = Some (server', tr, exited).
Proof.
  intros Hbounds Hfuel Hwf. unfold client_thread_func.
  destruct (client_thread_loop_returns fuel server script Hbounds Hfuel _ Hwf)
    as (c1 & tr1 & exited & ->).
  destruct exited; [|by eexists _, _, _].
  destruct (client_close c1). by eexists _, _, _.
Qed.

(** A script that ends with a failed or empty [recv] leaves the loop. *)
Lemma client_thread_loop_ends (fuel : nat) (server : esphome_api_server)
    (script : list recv_result) (last : recv_result) :
  last = RecvError \/ last = RecvData [] ->
  forall (client client' : client_connection_t) (tr : trace) (exited : bool),
    client_thread_loop fuel (script ++ [last]) server client =
      Some (client', tr, exited) ->
    exited = true.
Proof.
  intros Hlast.
  induction script as [|result script IH]; intros client client' tr exited Hrun;
    cbn [client_thread_loop app] in Hrun;
    (destruct (negb (running server && (0 <=? fd client))); [by injection Hrun|]).
  - destruct Hlast as [-> | ->]; [by injection Hrun|].
    rewrite take_nil in Hrun. cbn in Hrun. by injection Hrun.
  - destruct result as [data|]; [|by injection Hrun].
    destruct (Z.of_nat (length (take _ data)) <=? 0); [by injection Hrun|].
    destruct (handle_client_data fuel server _) as [[c1 tr1]|]; [|done].
    destruct (client_thread_loop fuel (script ++ [last]) server c1)
      as [[[c2 tr2] ex2]|] eqn:Hloop; [|done].
    injection Hrun as <- <- <-. by eapply IH.
Qed.

End Sessions.

(** ** The listener *)

Lemma listen_thread_func_cases (client_fd : Z) (thread_ok : bool)
    (server : esphome_api_server) (c0 c1 : client_connection_t) :
  clients server = [c0; c1] ->
  0 <= client_fd ->
  let started (i : nat) (c : client_connection_t) :=
    let taken := set_thread_running true (set_fd client_fd c) in
    if thread_ok
    then (set_clients (<[i := taken]> [c0; c1]) server,
          [EvSetsockopt client_fd; EvThreadCreate i])
    else (set_clients (<[i := (client_close taken).1]> [c0; c1]) server,
          EvSetsockopt client_fd :: (client_close taken).2) in
  listen_thread_func client_fd thread_ok server =
  if fd c0 <? 0 then started 0%nat c0
  else if fd c1 <? 0 then started 1%nat c1
  else (server, [EvSetsockopt client_fd; EvClose client_fd]).
Proof.
  intros Hclients Hfd. cbv zeta. unfold listen_thread_func.
  destruct (Z.ltb_spec client_fd 0); [lia|].
  change (Z.to_nat ESPHOME_MAX_CLIENTS) with 2%nat.
  cbn [find_free_slot]. rewrite Hclients.
  change ([c0; c1] !!! 0%nat) with c0. change ([c0; c1] !!! 1%nat) with c1.
  destruct (fd c0 <? 0); [|destruct (fd c1 <? 0)].
  - change (Z.of_nat 0 <? 0) with false. cbn match.
    change (Z.to_nat (Z.of_nat 0)) with 0%nat. cbn [clients set_clients].
    change (<[0%nat:=set_fd client_fd c0]> [c0; c1] !!! 0%nat)
      with (set_fd client_fd c0).
    destruct thread_ok; [reflexivity|].
    destruct (client_close _) as [c tr]. reflexivity.
  - change (Z.of_nat 1 <? 0) with false. cbn match.
    change (Z.to_nat (Z.of_nat 1)) with 1%nat. cbn [clients set_clients].
    change (<[1%nat:=set_fd client_fd c1]> [c0; c1] !!! 1%nat)
      with (set_fd client_fd c1).
    destruct thread_ok; [reflexivity|].
    destruct (client_close _) as [c tr]. reflexivity.
  - reflexivity.
Qed.

Lemma clients_pair (server : esphome_api_server) :
  length (clients server) = Z.to_nat ESPHOME_MAX_CLIENTS ->
  exists c0 c1, clients server = [c0; c1].
Proof.
  intros Hlen. destruct (clients server) as [|c0 [|c1 [|c2 cls]]];
    try discriminate Hlen. by exists c0, c1.
Qed.

Lemma esphome_api_stop_spec (server : esphome_api_server)
    (c0 c1 : client_connection_t) :
  clients server = [c0; c1] ->
  esphome_api_stop (Some server) =
  (Some (set_clients [(client_close c0).1; (client_close c1).1]
           (if 0 <=? listen_fd server
            then set_listen_fd (-1) (set_running false server)
            else set_running false server)),
   (if 0 <=? listen_fd server
    then [EvShutdown (listen_fd server); EvClose (listen_fd server)] else []) ++
   [EvJoinListen; EvJoinFlush] ++
   ((if thread_running c0 then [EvJoinClient 0] else []) ++
    (if thread_running c1 then [EvJoinClient 1] else [])) ++
   map EvClose (filter (fun sock => 0 <= sock) [fd c0; fd c1])).
Proof.
  intros Hpair. unfold esphome_api_stop.
  change (listen_fd (set_running false server)) with (listen_fd server).
  assert (forall s : esphome_api_server,
            clients s = [c0; c1] ->
            close_all_clients s =
            (set_clients [(client_close c0).1; (client_close c1).1] s,
             map EvClose (filter (fun sock => 0 <= sock) [fd c0; fd c1])) /\
            foldl (fun tr i =>
                     if thread_running (idx (clients s) i)
                     then tr ++ [EvJoinClient (Z.to_nat i)] else tr)
                  [] (seqZ 0 ESPHOME_MAX_CLIENTS) =
            (if thread_running c0 then [EvJoinClient 0] else []) ++
            (if thread_running c1 then [EvJoinClient 1] else [])) as Hrest.
  { intros s Hs. split.
    - rewrite close_all_clients_spec by (by rewrite Hs).
      rewrite Hs. cbn [map]. f_equal.
      change [fd c0; fd c1] with (map fd [c0; c1]).
      rewrite <- closes_client_close. reflexivity.
    - rewrite Hs. change (seqZ 0 ESPHOME_MAX_CLIENTS) with [0; 1]. cbn [foldl].
      change (idx [c0; c1] 0) with c0. change (idx [c0; c1] 1) with c1.
      by destruct (thread_running c0), (thread_running c1). }
  destruct (0 <=? listen_fd server).
  - destruct (Hrest (set_listen_fd (-1) (set_running false server)) Hpair) as [-> ->].
    reflexivity.
  - destruct (Hrest (set_running false server) Hpair) as [-> ->]. reflexivity.
Qed.

(** ** What holds between operations *)

Lemma esphome_api_init_inv (cfg : esphome_device_config_t) (now : timespec) :
  server_inv (esphome_api_init cfg now).
Proof.
  split.
  - apply esphome_api_init_wf.
  - cbn [esphome_api_init clients]. apply Forall_replicate.
    split; [reflexivity|]. cbn. unfold RECV_BUFFER_SIZE. lia.
  - unfold slots_clean. cbn [esphome_api_init clients]. apply Forall_replicate.
    intros _. done.
  - cbn. unfold ESPHOME_MAX_ADV_BATCH. lia.
Qed.

(** The invariant depends on the session array and the batch only. *)
Lemma server_inv_frame (server server' : esphome_api_server) :
  clients server' = clients server ->
  advertisements (ble_batch server') = advertisements (ble_batch server) ->
  count (ble_batch server') = 0 \/ count (ble_batch server') = count (ble_batch server) ->
  server_inv server -> server_inv server'.
Proof.
  intros Hc Ha Hn [[Hclients Hadvs Hdata Hcount] Hsessions Hclean Hroom].
  split; [split|..]; unfold slots_clean; rewrite ?Hc, ?Ha; try assumption;
    unfold ESPHOME_MAX_ADV_BATCH in *.
  - destruct Hn as [Hn | Hn]; rewrite Hn; lia.
  - destruct Hn as [Hn | Hn]; rewrite Hn; lia.
Qed.

Lemma server_inv_slot (server : esphome_api_server) (slot : nat)
    (client : client_connection_t) :
  server_inv server -> client_wf client -> slot_clean client ->
  server_inv (set_clients (<[slot := client]> (clients server)) server).
Proof.
  intros [[Hclients Hadvs Hdata Hcount] Hsessions Hclean Hroom] Hwf Hslot.
  split; [split|..]; unfold slots_clean;
    cbn [clients set_clients ble_batch]; try assumption.
  - by rewrite length_insert.
  - by apply Forall_insert.
  - by apply Forall_insert.
Qed.

Section Invariant.
Context {proto : EsphomeProto} {platform : Platform}.

Lemma flush_ble_batch_inv (now : timespec) (server : esphome_api_server) :
  server_inv server -> server_inv (flush_ble_batch now server).1.
Proof.
  destruct (flush_ble_batch_frame now server) as (Ha & Hc & _).
  apply server_inv_frame; [exact Hc | exact Ha |].
  left. apply flush_ble_batch_count.
Qed.

Lemma listen_thread_func_inv (client_fd : Z) (thread_ok : bool)
    (server : esphome_api_server) :
  server_inv server -> server_inv (listen_thread_func client_fd thread_ok server).1.
Proof.
  intros Hinv.
  destruct (Z.ltb_spec client_fd 0) as [Hneg|Hfd].
  { unfold listen_thread_func. destruct (Z.ltb_spec client_fd 0); [exact Hinv | lia]. }
  destruct (clients_pair server (wf_clients _ (inv_wf _ Hinv))) as (c0 & c1 & Hpair).
  rewrite (listen_thread_func_cases client_fd thread_ok server c0 c1 Hpair Hfd).
  pose proof (inv_sessions _ Hinv) as Hsessions. rewrite Hpair in Hsessions.
  assert (client_wf c0 /\ client_wf c1) as [Hwf0 Hwf1].
  { apply Forall_cons in Hsessions as [? Hrest].
    by apply Forall_cons in Hrest as [? _]. }
  assert (forall (i : nat) (c : client_connection_t), client_wf c ->
            server_inv
              (if thread_ok
               then (set_clients
                       (<[i := set_thread_running true (set_fd client_fd c)]> [c0; c1])
                       server,
                     [EvSetsockopt client_fd; EvThreadCreate i])
               else (set_clients
                       (<[i := (client_close
                                  (set_thread_running true (set_fd client_fd c))).1]>
                          [c0; c1]) server,
                     EvSetsockopt client_fd ::
                       (client_close
                          (set_thread_running true (set_fd client_fd c))).2)).1)
    as Hstarted.
  { intros i c Hc. rewrite <- Hpair. destruct thread_ok; cbn [fst].
    - apply server_inv_slot; [exact Hinv | exact Hc |].
      intros Hfree. cbn in Hfree. lia.
    - apply server_inv_slot; [exact Hinv | |];
        by apply client_close_inv. }
  cbv zeta. destruct (fd c0 <? 0); [by apply Hstarted|].
  destruct (fd c1 <? 0); [by apply Hstarted | exact Hinv].
Qed.

Lemma client_thread_func_inv (fuel : nat) (script : list recv_result)
    (server server' : esphome_api_server) (slot : nat) (tr : trace) (exited : bool) :
  (slot < Z.to_nat ESPHOME_MAX_CLIENTS)%nat ->
  server_inv server ->
  client_thread_func fuel script server slot = Some (server', tr, exited) ->
  server_inv server'.
Proof.
  intros Hslot Hinv Hrun.
  assert (client_wf (clients server !!! slot)) as Hwf.
  { pose proof (inv_sessions _ Hinv) as Hsessions.
    rewrite Forall_lookup in Hsessions.
    destruct (lookup_lt_is_Some_2 (clients server) slot) as [c Hc].
    { by rewrite (wf_clients _ (inv_wf _ Hinv)). }
    rewrite (list_lookup_total_correct _ _ _ Hc). by eapply Hsessions. }
  destruct (client_thread_func_spec fuel script server server' slot tr exited Hwf Hrun)
    as (after & traffic & -> & Hafter & _ & Hcase).
  apply server_inv_slot; [exact Hinv | exact Hafter |].
  intros Hfree. destruct exited.
  - by destruct Hcase as (_ & ? & ? & ? & _).
  - destruct Hcase as (_ & ? & ? & _). lia.
Qed.

Lemma esphome_api_queue_ble_advert_inv (now : timespec) (server : esphome_api_server)
    (advert : esphome_ble_advert_t) :
  server_inv server ->
  length (advert_data advert) = Z.to_nat ESPHOME_MAX_ADV_DATA ->
  exists server' tr,
    esphome_api_queue_ble_advert now (Some server) (Some advert) = (Some server', tr) /\
    server_inv server'.
Proof.
  intros Hinv Hlen. rewrite esphome_api_queue_ble_advert_steps. cbv zeta.
  eexists _, _. split; [reflexivity|].
  pose proof (inv_room _ Hinv) as Hroom.
  destruct (Z.leb_spec ESPHOME_MAX_ADV_BATCH (count (ble_batch server))) as [|_]; [lia|].
  cbn [fst snd].
  set (stored := set_ble_batch (store_advert advert (ble_batch server)) server).
  assert (server_wf stored) as Hwf
    by (apply store_advert_wf; [apply Hinv | exact Hroom | exact Hlen]).
  assert (clients stored = clients server) as Hclients by reflexivity.
  destruct (Z.leb_spec ESPHOME_MAX_ADV_BATCH (count (ble_batch stored))) as [Hfull|Hfree].
  - destruct (flush_ble_batch_frame now stored) as (Ha & Hc & _).
    pose proof (flush_ble_batch_wf now stored Hwf) as Hwf'.
    destruct Hinv as [_ Hsessions Hclean _].
    split; [exact Hwf'|..]; unfold slots_clean; rewrite ?Hc, ?Hclients; try assumption.
    rewrite flush_ble_batch_count. unfold ESPHOME_MAX_ADV_BATCH. lia.
  - cbn [fst]. destruct Hinv as [_ Hsessions Hclean _].
    split; [exact Hwf|..]; unfold slots_clean; rewrite ?Hclients; assumption.
Qed.

Lemma step_inv (op : server_op) (server server' : esphome_api_server) :
  op_ok op -> server_inv server -> step op server = Some server' -> server_inv server'.
Proof.
  intros Hok Hinv Hstep. destruct op as [sock b l|client_fd ok|fuel script slot
                                          |now advert|now flush_now];
    cbn [step op_ok] in *.
  - injection Hstep as <-. unfold esphome_api_start.
    repeat case_match; cbn [fst];
      (eapply server_inv_frame; [| | |exact Hinv]; [reflexivity | reflexivity | by right]).
  - injection Hstep as <-. by apply listen_thread_func_inv.
  - destruct (client_thread_func fuel script server slot) as [[[s tr] exited]|] eqn:Hrun;
      [|done].
    injection Hstep as <-. destruct Hok as [Hslot _]. by eapply client_thread_func_inv.
  - destruct (esphome_api_queue_ble_advert_inv now server advert Hinv Hok)
      as (s & tr & Hq & Hs).
    rewrite Hq in Hstep. cbn [fst] in Hstep. by injection Hstep as <-.
  - injection Hstep as <-. unfold flush_thread_func.
    case_match; [by apply flush_ble_batch_inv | exact Hinv].
Qed.

Lemma server_inv_slot_wf (server : esphome_api_server) (slot : nat) :
  server_inv server ->
  (slot < Z.to_nat ESPHOME_MAX_CLIENTS)%nat ->
  client_wf (clients server !!! slot).
Proof.
  intros Hinv Hslot.
  pose proof (inv_sessions _ Hinv) as Hsessions.
  rewrite Forall_lookup in Hsessions.
  destruct (lookup_lt_is_Some_2 (clients server) slot) as [c Hc].
  { by rewrite (wf_clients _ (inv_wf _ Hinv)). }
  rewrite (list_lookup_total_correct _ _ _ Hc). by eapply Hsessions.
Qed.

Lemma step_returns (op : server_op) (server : esphome_api_server) :
  decoder_in_bounds -> op_ok op -> server_inv server ->
  exists server', step op server = Some server'.
Proof.
  intros Hbounds Hok Hinv.
  destruct op as [sock b l|client_fd ok|fuel script slot|now advert|now flush_now];
    cbn [step op_ok] in *; try (by eexists).
  - destruct Hok as [Hslot Hfuel].
    destruct (client_thread_func_returns fuel script server slot Hbounds Hfuel
                (server_inv_slot_wf server slot Hinv Hslot))
      as (s & tr & exited & ->).
    by eexists.
  - destruct (esphome_api_queue_ble_advert_inv now server advert Hinv Hok)
      as (s & tr & -> & _).
    by eexists.
Qed.

Lemma run_returns (ops : list server_op) :
  decoder_in_bounds ->
  forall server : esphome_api_server,
    Forall op_ok ops -> server_inv server ->
    exists server', run ops server = Some server' /\ server_inv server'.
Proof.
  intros Hbounds. induction ops as [|op ops IH]; intros server Hok Hinv.
  - by exists server.
  - apply Forall_cons in Hok as [Hop Hops]. cbn [run].
    destruct (step_returns op server Hbounds Hop Hinv) as (s & Hstep).
    rewrite Hstep. apply IH; [exact Hops|]. by eapply step_inv.
Qed.

(** X5.  The receive buffer cannot overflow and the batch cannot overrun.
    Take a codec whose header decoder keeps within 32 bits.  From the
    server [esphome_api_init] returns, every sequence of starts, accepted
    and rejected connections, received data, queued advertisements and
    timer turns, run one after another, goes through; and after it
    every session's fill level is between 0 and the 4096 bytes of its
    buffer, the arrays have their declared sizes, and the batch holds at
    most 15 advertisements. *)
Theorem server_keeps_its_bounds (cfg : esphome_device_config_t) (now : timespec)
    (ops : list server_op) :
  decoder_in_bounds ->
  Forall op_ok ops ->
  exists server : esphome_api_server,
    run ops (esphome_api_init cfg now) = Some server /\
    server_wf server /\
    Forall client_wf (clients server) /\
    0 <= count (ble_batch server) < ESPHOME_MAX_ADV_BATCH.
Proof.
  intros Hbounds Hok.
  destruct (run_returns ops Hbounds _ Hok (esphome_api_init_inv cfg now))
    as (server & Hrun & [Hwf Hsessions _ Hroom]).
  exists server. repeat split; try assumption; apply Hwf.
Qed.

(** X6.  A connection never inherits an earlier session.  Take a codec
    whose header decoder keeps within 32 bits.  Whatever the server has
    been through since [esphome_api_init], the session the listener
    starts for an accepted socket is on that socket,
    unauthenticated, not subscribed to advertisements and with an empty
    receive buffer, in the lowest free slot, and no other slot is touched;
    with no free slot the socket is closed and no session changes. *)
Theorem accepted_session_starts_clean (cfg : esphome_device_config_t) (now : timespec)
    (ops : list server_op) (client_fd : Z) :
  decoder_in_bounds ->
  Forall op_ok ops ->
  0 <= client_fd ->
  exists server : esphome_api_server,
    run ops (esphome_api_init cfg now) = Some server /\
    let accepted := listen_thread_func client_fd true server in
    (exists (slot : nat) (session : client_connection_t),
       clients accepted.1 !! slot = Some session /\
       accepted.2 = [EvSetsockopt client_fd; EvThreadCreate slot] /\
       fd session = client_fd /\
       authenticated session = false /\
       subscribed_ble session = false /\
       recv_pos session = 0 /\
       thread_running session = true /\
       fd (clients server !!! slot) < 0 /\
       (forall j, (j < slot)%nat -> 0 <= fd (clients server !!! j)) /\
       (forall j, j <> slot -> clients accepted.1 !! j = clients server !! j)) \/
    (accepted = (server, [EvSetsockopt client_fd; EvClose client_fd]) /\
     Forall (fun c => 0 <= fd c) (clients server)).
Proof.
  intros Hbounds Hok Hfd.
  destruct (run_returns ops Hbounds _ Hok (esphome_api_init_inv cfg now))
    as (server & Hrun & Hinv).
  exists server. split; [exact Hrun|].
  destruct (clients_pair server (wf_clients _ (inv_wf _ Hinv))) as (c0 & c1 & Hpair).
  cbv zeta. rewrite (listen_thread_func_cases client_fd true server c0 c1 Hpair Hfd).
  pose proof (inv_clean _ Hinv) as Hclean. unfold slots_clean in Hclean.
  rewrite Hpair in *.
  assert (slot_clean c0 /\ slot_clean c1) as [Hclean0 Hclean1].
  { apply Forall_cons in Hclean as [? Hrest].
    by apply Forall_cons in Hrest as [? _]. }
  cbv zeta.
  destruct (Z.ltb_spec (fd c0) 0) as [Hfree0|Hbusy0];
    [|destruct (Z.ltb_spec (fd c1) 0) as [Hfree1|Hbusy1]].
  - left. exists 0%nat, (set_thread_running true (set_fd client_fd c0)).
    destruct (Hclean0 Hfree0) as (? & ? & ?).
    cbn [fst snd clients set_clients]. repeat split; try done.
    + intros j Hj. lia.
    + intros j Hj. by apply list_lookup_insert_ne.
  - left. exists 1%nat, (set_thread_running true (set_fd client_fd c1)).
    destruct (Hclean1 Hfree1) as (? & ? & ?).
    cbn [fst snd clients set_clients]. repeat split; try done.
    + intros j Hj. assert (j = 0%nat) as -> by lia. exact Hbusy0.
    + intros j Hj. by apply list_lookup_insert_ne.
  - right. split; [reflexivity|]. by repeat constructor.
Qed.

End Invariant.

Lemma server_keeps_its_bounds_witness :
  exists server,
    run (proto := checked_proto) (platform := full_send_platform) example_ops
      (esphome_api_init example_config example_time) = Some server /\
    server_wf server /\
    Forall client_wf (clients server) /\
    0 <= count (ble_batch server) < ESPHOME_MAX_ADV_BATCH.
Proof.
  apply (server_keeps_its_bounds (proto := checked_proto)
           (platform := full_send_platform) example_config example_time example_ops).
  - exact checked_proto_in_bounds.
  - repeat constructor; unfold RECV_BUFFER_SIZE; lia.
Defined.

Lemma accepted_session_starts_clean_witness :
  exists server,
    run (proto := checked_proto) (platform := full_send_platform) example_ops
      (esphome_api_init example_config example_time) = Some server /\
    let accepted := listen_thread_func 9 true server in
    (exists (slot : nat) (session : client_connection_t),
       clients accepted.1 !! slot = Some session /\
       accepted.2 = [EvSetsockopt 9; EvThreadCreate slot] /\
       fd session = 9 /\
       authenticated session = false /\
       subscribed_ble session = false /\
       recv_pos session = 0 /\
       thread_running session = true /\
       fd (clients server !!! slot) < 0 /\
       (forall j, (j < slot)%nat -> 0 <= fd (clients server !!! j)) /\
       (forall j, j <> slot -> clients accepted.1 !! j = clients server !! j)) \/
    (accepted = (server, [EvSetsockopt 9; EvClose 9]) /\
     Forall (fun c => 0 <= fd c) (clients server)).
Proof.
  apply (accepted_session_starts_clean (proto := checked_proto)
           (platform := full_send_platform)
           example_config example_time example_ops 9).
  - exact checked_proto_in_bounds.
  - repeat constructor; unfold RECV_BUFFER_SIZE; lia.
  - lia.
Defined.

(** ** The end of a session *)

Lemma closes_own_traffic (sock : Z) (tr : trace) :
  Forall (own_traffic sock) tr -> closes tr = [].
Proof.
  induction 1 as [|e tr He _ IH]; [reflexivity|].
  destruct e; try done; exact IH.
Qed.

Section SessionEnd.
Context {proto : EsphomeProto} {platform : Platform}.

(** X7.  What a client thread does, for a codec whose header decoder
    keeps within 32 bits and whatever its [recv] calls return.  It comes
    back in one of two states.  Either it is waiting in [recv] -- then the
    server is running and the slot still has its open socket -- or it has
    left its loop, and then the slot is released: the socket is closed,
    once, as the thread's last action and only if it was open, the flags
    are cleared, the buffer is emptied and [thread_running] is reset.
    Until then the thread has only decoded messages and sent on its own
    socket; it changes no other slot and not the batch. *)
Theorem client_thread_func_releases_slot (fuel : nat) (script : list recv_result)
    (server : esphome_api_server) (slot : nat) :
  decoder_in_bounds ->
  RECV_BUFFER_SIZE < Z.of_nat fuel ->
  (slot < length (clients server))%nat ->
  client_wf (clients server !!! slot) ->
  exists (server' : esphome_api_server) (tr traffic : trace) (exited : bool),
    client_thread_func fuel script server slot = Some (server', tr, exited) /\
    let before := clients server !!! slot in
    let after := clients server' !!! slot in
    (forall j, j <> slot -> clients server' !! j = clients server !! j) /\
    ble_batch server' = ble_batch server /\
    Forall (own_traffic (fd before)) traffic /\
    if exited
    then fd after < 0 /\
         authenticated after = false /\
         subscribed_ble after = false /\
         recv_pos after = 0 /\
         thread_running after = false /\
         tr = traffic ++ (if 0 <=? fd before then [EvClose (fd before)] else [])
    else running server = true /\
         0 <= fd before /\
         fd after = fd before /\
         thread_running after = thread_running before /\
         tr = traffic.
Proof.
  intros Hbounds Hfuel Hslot Hwf.
  destruct (client_thread_func_returns fuel script server slot Hbounds Hfuel Hwf)
    as (server' & tr & exited & Hrun).
  destruct (client_thread_func_spec fuel script server server' slot tr exited Hwf Hrun)
    as (after & traffic & -> & _ & Hown & Hcase).
  exists (set_clients (<[slot := after]> (clients server)) server), tr, traffic, exited.
  split; [exact Hrun|]. cbv zeta. cbn [clients set_clients ble_batch].
  rewrite list_lookup_total_insert_eq by exact Hslot.
  split; [intros j Hj; by apply list_lookup_insert_ne|].
  split; [reflexivity|]. split; [exact Hown | exact Hcase].
Qed.

(** X8.  A peer that goes away ends its session: for a codec whose header
    decoder keeps within 32 bits, whatever a client thread has received,
    once a [recv] fails or returns 0 the thread has left its loop and the
    slot is free again, with the flags cleared and the buffer emptied. *)
Theorem disconnect_ends_session (fuel : nat) (script : list recv_result)
    (server : esphome_api_server) (slot : nat) (last : recv_result) :
  decoder_in_bounds ->
  RECV_BUFFER_SIZE < Z.of_nat fuel ->
  (slot < length (clients server))%nat ->
  client_wf (clients server !!! slot) ->
  last = RecvError \/ last = RecvData [] ->
  exists (gone : esphome_api_server) (tr : trace),
    client_thread_func fuel (script ++ [last]) server slot = Some (gone, tr, true) /\
    fd (clients gone !!! slot) < 0 /\
    authenticated (clients gone !!! slot) = false /\
    subscribed_ble (clients gone !!! slot) = false /\
    recv_pos (clients gone !!! slot) = 0 /\
    thread_running (clients gone !!! slot) = false /\
    closes tr =
      (if 0 <=? fd (clients server !!! slot) then [fd (clients server !!! slot)] else []).
Proof.
  intros Hbounds Hfuel Hslot Hwf Hlast.
  destruct (client_thread_func_returns fuel (script ++ [last]) server slot
              Hbounds Hfuel Hwf)
    as (gone & tr & exited & Hrun).
  assert (exited = true) as ->.
  { unfold client_thread_func in Hrun.
    destruct (client_thread_loop fuel (script ++ [last]) server (clients server !!! slot))
      as [[[c1 tr1] ex1]|] eqn:Hloop; [|done].
    pose proof (client_thread_loop_ends fuel server script last Hlast _ _ _ _ Hloop)
      as ->.
    destruct (client_close c1). by injection Hrun. }
  destruct (client_thread_func_spec fuel (script ++ [last]) server gone slot tr true
              Hwf Hrun)
    as (after & traffic & -> & _ & Hown & Hfd & Ha & Hs & Hp & Ht & ->).
  eexists _, _. split; [exact Hrun|].
  cbn [clients set_clients]. rewrite list_lookup_total_insert_eq by exact Hslot.
  repeat split; try assumption.
  unfold closes. rewrite omap_app.
  change (omap _ traffic) with (closes traffic).
  rewrite (closes_own_traffic _ _ Hown). by destruct (0 <=? _).
Qed.

End SessionEnd.

Lemma client_thread_func_releases_slot_witness :
  exists server' tr traffic,
    client_thread_func (proto := checked_proto) (platform := full_send_platform) 4097
      [RecvData [0; 1; 3]; RecvData [0; 1]; RecvError] example_server 0 =
      Some (server', tr, true) /\
    fd (clients server' !!! 0%nat) < 0 /\
    authenticated (clients server' !!! 0%nat) = false /\
    recv_pos (clients server' !!! 0%nat) = 0 /\
    tr = traffic ++ [EvClose 5].
Proof.
  destruct (client_thread_func_releases_slot (proto := checked_proto)
              (platform := full_send_platform) 4097
              [RecvData [0; 1; 3]; RecvData [0; 1]; RecvError] example_server 0)
    as (server' & tr & traffic & exited & Hrun & _ & _ & _ & Hcase).
  - exact checked_proto_in_bounds.
  - unfold RECV_BUFFER_SIZE. lia.
  - vm_compute. lia.
  - split; [reflexivity | vm_compute; split; discriminate].
  - assert (exited = true) as -> by (vm_compute in Hrun; congruence).
    destruct Hcase as (Hfd & Ha & _ & Hp & _ & Htr).
    exists server', tr, traffic. split; [exact Hrun|]. by repeat split.
Defined.

Lemma disconnect_ends_session_witness :
  exists gone tr,
    client_thread_func (proto := checked_proto) (platform := full_send_platform) 4097
      ([RecvData [0; 1; 3]; RecvData [0; 1]] ++ [RecvData []]) example_server 0 =
      Some (gone, tr, true) /\
    fd (clients gone !!! 0%nat) < 0 /\
    authenticated (clients gone !!! 0%nat) = false /\
    closes tr = [5].
Proof.
  destruct (disconnect_ends_session (proto := checked_proto)
              (platform := full_send_platform) 4097
              [RecvData [0; 1; 3]; RecvData [0; 1]] example_server 0 (RecvData []))
    as (gone & tr & Hrun & Hfd & Ha & _ & _ & _ & Hcloses).
  - exact checked_proto_in_bounds.
  - unfold RECV_BUFFER_SIZE. lia.
  - vm_compute. lia.
  - split; [reflexivity | vm_compute; split; discriminate].
  - by right.
  - exists gone, tr. by repeat split.
Defined.

(** ** Stopping and freeing *)




(** X9.  Stopping a server none of whose client threads is running (so
    that [esphome_api_stop] has no client thread to wait for): the
    listening socket, if open, is shut down and closed, the listener and
    the flush thread are joined, and every session socket still open is
    closed, in slot order, each once.  The server is left not running,
    without a listening socket, every slot free with its flags cleared and
    its buffer empty, the batch untouched; and [esphome_api_free] on it
    closes nothing more. *)
Theorem esphome_api_stop_then_free (server : esphome_api_server) :
  length (clients server) = Z.to_nat ESPHOME_MAX_CLIENTS ->
  Forall (fun c => thread_running c = false) (clients server) ->
  exists stopped : esphome_api_server,
    esphome_api_stop (Some server) =
      (Some stopped,
       (if 0 <=? listen_fd server
        then [EvShutdown (listen_fd server); EvClose (listen_fd server)] else []) ++
       [EvJoinListen; EvJoinFlush] ++
       map EvClose (filter (fun sock => 0 <= sock) (map fd (clients server)))) /\
    running stopped = false /\
    listen_fd stopped < 0 /\
    length (clients stopped) = length (clients server) /\
    Forall (fun c => fd c < 0 /\ authenticated c = false /\
                     subscribed_ble c = false /\ recv_pos c = 0)
           (clients stopped) /\
    ble_batch stopped = ble_batch server /\
    esphome_api_free (Some stopped) = (None, [EvFree]).
Proof.
  intros Hlen Hidle.
  destruct (clients_pair server Hlen) as (c0 & c1 & Hpair).
  rewrite (esphome_api_stop_spec server c0 c1 Hpair). rewrite Hpair in *.
  apply Forall_cons in Hidle as [-> Hidle]. apply Forall_cons in Hidle as [-> _].
  eexists. split; [reflexivity|].
  assert (forall c, let closed := (client_close c).1 in
                    fd closed < 0 /\ authenticated closed = false /\
                    subscribed_ble closed = false /\ recv_pos closed = 0) as Hclosed.
  { intros c. destruct (client_close_spec c) as (? & ? & ? & ? & _). by repeat split. }
  split; [by destruct (0 <=? listen_fd server)|].
  split; [destruct (Z.leb_spec 0 (listen_fd server)); cbn; lia|].
  split; [by destruct (0 <=? listen_fd server)|].
  split; [destruct (0 <=? listen_fd server); repeat constructor; apply Hclosed|].
  split; [by destruct (0 <=? listen_fd server)|].
  unfold esphome_api_free.
  rewrite close_all_clients_spec by (by destruct (0 <=? listen_fd server)).
  rewrite closes_client_close.
  replace (clients _) with [(client_close c0).1; (client_close c1).1]
    by (by destruct (0 <=? listen_fd server)).
  change [(client_close c0).1; (client_close c1).1]
    with (map (fun c => (client_close c).1) [c0; c1]).
  by rewrite closed_clients_free.
Qed.

Lemma esphome_api_stop_then_free_witness :
  exists stopped,
    esphome_api_stop
      (Some (esphome_api_start 3 0 0 (esphome_api_init example_config example_time)).1.1) =
      (Some stopped, [EvShutdown 3; EvClose 3; EvJoinListen; EvJoinFlush]) /\
    running stopped = false /\
    esphome_api_free (Some stopped) = (None, [EvFree]).
Proof.
  destruct (esphome_api_stop_then_free
              (esphome_api_start 3 0 0 (esphome_api_init example_config example_time)).1.1)
    as (stopped & Hstop & Hr & _ & _ & _ & _ & Hfree).
  - reflexivity.
  - repeat constructor.
  - exists stopped. split; [exact Hstop|]. by split.
Defined.

(** X10.  [esphome_api_free] closes the sockets of the sessions that are
    open, in slot order, and releases the server; it does nothing else.  It
    does not stop the server: the listening socket is not closed and no
    thread is joined, so a server is to be stopped before it is freed. *)
Theorem esphome_api_free_closes_sessions_only (server : esphome_api_server) :
  length (clients server) = Z.to_nat ESPHOME_MAX_CLIENTS ->
  esphome_api_free (Some server) =
  (None, map EvClose (filter (fun sock => 0 <= sock) (map fd (clients server))) ++ [EvFree]).
Proof.
  intros Hlen. unfold esphome_api_free.
  rewrite close_all_clients_spec by exact Hlen. by rewrite closes_client_close.
Qed.

Lemma esphome_api_free_closes_sessions_only_witness :
  esphome_api_free (Some example_server) = (None, [EvClose 5; EvFree]).
Proof.
  exact (esphome_api_free_closes_sessions_only example_server eq_refl).
Defined.


(** X11.  A thread that cannot be started leaves its mark: when
    [pthread_create] fails for an accepted connection, the socket is closed
    and the slot is free again, but the slot keeps [thread_running] set, and
    a later [esphome_api_stop] joins the thread of that slot although none
    was created. *)
Theorem failed_thread_start_is_joined (server : esphome_api_server) (client_fd : Z) :
  length (clients server) = Z.to_nat ESPHOME_MAX_CLIENTS ->
  0 <= client_fd ->
  Exists (fun c => fd c < 0) (clients server) ->
  let refused := listen_thread_func client_fd false server in
  exists slot : nat,
    fd (clients server !!! slot) < 0 /\
    refused.2 = [EvSetsockopt client_fd; EvClose client_fd] /\
    fd (clients refused.1 !!! slot) < 0 /\
    thread_running (clients refused.1 !!! slot) = true /\
    In (EvJoinClient slot) (esphome_api_stop (Some refused.1)).2.
Proof.
  intros Hlen Hfd Hfree. cbv zeta.
  destruct (clients_pair server Hlen) as (c0 & c1 & Hpair).
  rewrite (listen_thread_func_cases client_fd false server c0 c1 Hpair Hfd).
  rewrite Hpair in *. cbv zeta.
  assert (forall c, client_close (set_thread_running true (set_fd client_fd c)) =
                    (set_recv (recv_buffer c) 0
                       (set_subscribed_ble false
                          (set_authenticated false
                             (set_fd (-1) (set_thread_running true (set_fd client_fd c))))),
                     [EvClose client_fd])) as Hclose.
  { intros c. unfold client_close. cbn [fd set_fd set_thread_running].
    destruct (Z.leb_spec 0 client_fd); [reflexivity | lia]. }
  rewrite !Hclose. cbn [fst snd].
  destruct (Z.ltb_spec (fd c0) 0) as [Hfree0|Hbusy0];
    [|destruct (Z.ltb_spec (fd c1) 0) as [Hfree1|Hbusy1]].
  - exists 0%nat. split; [exact Hfree0|]. split; [reflexivity|].
    cbn [clients set_clients insert list_insert].
    split; [cbn; lia|]. split; [reflexivity|].
    unfold esphome_api_stop.
    destruct (if 0 <=? listen_fd _ then _ else _) as [s2 tr1] eqn:Hs2.
    assert (clients s2 = clients (set_clients
              [set_recv (recv_buffer c0) 0
                 (set_subscribed_ble false
                    (set_authenticated false
                       (set_fd (-1) (set_thread_running true (set_fd client_fd c0)))));
               c1] server)) as Hc2.
    { destruct (0 <=? listen_fd _); by injection Hs2 as <- _. }
    destruct (close_all_clients s2) as [s3 tr4].
    cbn [snd]. rewrite !in_app_iff. right. right. left.
    rewrite Hc2. change (seqZ 0 ESPHOME_MAX_CLIENTS) with [0; 1].
    cbn [foldl clients set_clients].
    rewrite (proj1 (idx_pair _ _)), (proj2 (idx_pair _ _)).
    cbn. destruct (thread_running c1); cbn; tauto.
  - exists 1%nat. split; [exact Hfree1|]. split; [reflexivity|].
    cbn [clients set_clients insert list_insert].
    split; [cbn; lia|]. split; [reflexivity|].
    unfold esphome_api_stop.
    destruct (if 0 <=? listen_fd _ then _ else _) as [s2 tr1] eqn:Hs2.
    assert (clients s2 = clients (set_clients
              [c0;
               set_recv (recv_buffer c1) 0
                 (set_subscribed_ble false
                    (set_authenticated false
                       (set_fd (-1) (set_thread_running true (set_fd client_fd c1)))))]
              server)) as Hc2.
    { destruct (0 <=? listen_fd _); by injection Hs2 as <- _. }
    destruct (close_all_clients s2) as [s3 tr4].
    cbn [snd]. rewrite !in_app_iff. right. right. left.
    rewrite Hc2. change (seqZ 0 ESPHOME_MAX_CLIENTS) with [0; 1].
    cbn [foldl clients set_clients].
    rewrite (proj1 (idx_pair _ _)), (proj2 (idx_pair _ _)).
    cbn. destruct (thread_running c0); cbn; tauto.
  - exfalso. apply Exists_cons in Hfree as [?|Hfree]; [lia|].
    apply Exists_cons in Hfree as [?|Hfree]; [lia|]. by apply Exists_nil in Hfree.
Qed.

Lemma failed_thread_start_is_joined_witness :
  let refused := listen_thread_func 7 false example_server in
  exists slot : nat,
    fd (clients example_server !!! slot) < 0 /\
    refused.2 = [EvSetsockopt 7; EvClose 7] /\
    fd (clients refused.1 !!! slot) < 0 /\
    thread_running (clients refused.1 !!! slot) = true /\
    In (EvJoinClient slot) (esphome_api_stop (Some refused.1)).2.
Proof.
  apply (failed_thread_start_is_joined example_server 7).
  - reflexivity.
  - lia.
  - apply Exists_cons. right. apply Exists_cons. left. vm_compute. reflexivity.
Defined.

(** ** The flush timer *)

Lemma elapsed_ms_exact (last now : timespec) :
  timespec_ok last -> timespec_ok now ->
  0 <= elapsed_ns last now ->
  tv_sec now - tv_sec last < 2 ^ 21 ->
  elapsed_ms last now =
  elapsed_ns last now / 1000000 +
  (if (tv_nsec now <? tv_nsec last) &&
      negb ((tv_nsec last - tv_nsec now) mod 1000000 =? 0)
   then 1 else 0).
Proof.
  unfold timespec_ok, elapsed_ns, elapsed_ms, u64.
  intros Hlast Hnow Hpos Hbound.
  change (2 ^ 21) with 2097152 in Hbound.
  change (2 ^ 64) with 18446744073709551616.
  set (s := tv_sec now - tv_sec last) in *.
  assert (0 <= s) as Hs by lia.
  replace (s * 1000000000 + (tv_nsec now - tv_nsec last))
    with ((tv_nsec now - tv_nsec last) + (s * 1000) * 1000000) by lia.
  rewrite Z.div_add by lia.
  destruct (Z.ltb_spec (tv_nsec now) (tv_nsec last)) as [Hback|Hfwd]; cbn [andb].
  - set (d := tv_nsec last - tv_nsec now).
    replace (tv_nsec now - tv_nsec last) with (- d) in * by (subst d; lia).
    assert (0 < d < 1000000000) as Hd by (subst d; lia).
    assert (1 <= s) as Hs1 by lia.
    rewrite Z.quot_opp_l, Z.quot_div_nonneg by lia.
    assert (0 <= d / 1000000 < 1000) as Hq
      by (split; [apply Z.div_pos; lia | apply Z.div_lt_upper_bound; lia]).
    rewrite Z.mod_small by lia.
    destruct (Z.eqb_spec (d mod 1000000) 0) as [Hexact|Hremainder]; cbn [negb].
    + rewrite Z.div_opp_l_z by lia. lia.
    + rewrite Z.div_opp_l_nz by lia. lia.
  - rewrite Z.quot_div_nonneg by lia.
    assert (0 <= (tv_nsec now - tv_nsec last) / 1000000 < 1000) as Hq
      by (split; [apply Z.div_pos; lia | apply Z.div_lt_upper_bound; lia]).
    rewrite Z.mod_small by lia. lia.
Qed.

Section Timer.
Context {proto : EsphomeProto} {platform : Platform}.

(** X12.  The flush thread's clock arithmetic, for normalised monotonic
    times less than 2^21 seconds apart (so that the arithmetic fits a
    32-bit [long] as well): the milliseconds it computes are the whole
    milliseconds that have passed since the last flush, plus one when the
    nanosecond field has gone backwards by other than a whole number of
    milliseconds (the division truncates towards zero).  So the batch is
    flushed whenever 100 ms have passed and never before 99 ms, and
    between the two it depends on the nanosecond fields. *)
Theorem flush_timer (now flush_now : timespec) (server : esphome_api_server) :
  let last := last_flush server in
  timespec_ok last -> timespec_ok now ->
  0 <= elapsed_ns last now ->
  tv_sec now - tv_sec last < 2 ^ 21 ->
  elapsed_ms last now =
    elapsed_ns last now / 1000000 +
    (if (tv_nsec now <? tv_nsec last) &&
        negb ((tv_nsec last - tv_nsec now) mod 1000000 =? 0)
     then 1 else 0) /\
  (100 * 1000000 <= elapsed_ns last now ->
   flush_thread_func now flush_now server = flush_ble_batch flush_now server) /\
  (elapsed_ns last now < 99 * 1000000 ->
   flush_thread_func now flush_now server = (server, [])).
Proof.
  intros last Hlast Hnow Hpos Hbound.
  pose proof (elapsed_ms_exact last now Hlast Hnow Hpos Hbound) as Hms.
  split; [exact Hms|].
  unfold flush_thread_func, BATCH_FLUSH_INTERVAL_MS. fold last. rewrite Hms.
  set (extra := if (tv_nsec now <? tv_nsec last) &&
                   negb ((tv_nsec last - tv_nsec now) mod 1000000 =? 0)
                then 1 else 0).
  assert (0 <= extra <= 1) as Hextra by (subst extra; case_match; lia).
  split; intros Hns.
  - assert (100 <= elapsed_ns last now / 1000000)
      by (apply Z.div_le_lower_bound; lia).
    destruct (Z.leb_spec 100 (elapsed_ns last now / 1000000 + extra)); [reflexivity | lia].
  - assert (elapsed_ns last now / 1000000 < 99)
      by (apply Z.div_lt_upper_bound; lia).
    destruct (Z.leb_spec 100 (elapsed_ns last now / 1000000 + extra)); [lia | reflexivity].
Qed.

End Timer.

(** The timer fires early: 99.000001 ms after the last flush the thread
    computes 100 ms. *)
Lemma flush_timer_witness :
  let server := set_last_flush {| tv_sec := 10; tv_nsec := 999999999 |} example_server in
  let now := {| tv_sec := 11; tv_nsec := 99000000 |} in
  elapsed_ns (last_flush server) now = 99000001 /\
  elapsed_ms (last_flush server) now = 100.
Proof.
  cbv zeta. split; [reflexivity|].
  destruct (flush_timer (proto := spec_proto) (platform := full_send_platform)
              {| tv_sec := 11; tv_nsec := 99000000 |} example_time
              (set_last_flush {| tv_sec := 10; tv_nsec := 999999999 |} example_server))
    as (Hms & _ & _).
  - unfold timespec_ok. cbn. lia.
  - unfold timespec_ok. cbn. lia.
  - vm_compute. discriminate.
  - vm_compute. reflexivity.
  - rewrite Hms. reflexivity.
Defined.

(** ** Queueing advertisements *)

Section EnqueueMore.
Context {proto : EsphomeProto} {platform : Platform}.

(** X13.  An advertisement with at most 62 bytes of data is stored with
    exactly its [data_len] bytes and that length.  The rest of the slot's
    data array is not cleared: it keeps the bytes of the advertisement that
    used the slot before. *)
Theorem short_data_is_stored_as_given (now : timespec) (server : esphome_api_server)
    (advert : esphome_ble_advert_t) :
  server_wf server ->
  length (advert_data advert) = Z.to_nat ESPHOME_MAX_ADV_DATA ->
  0 <= advert_data_len advert <= ESPHOME_MAX_ADV_DATA ->
  let slot :=
    Z.to_nat (if ESPHOME_MAX_ADV_BATCH <=? count (ble_batch server)
              then 0 else count (ble_batch server)) in
  let len := Z.to_nat (advert_data_len advert) in
  exists server' tr entry,
    esphome_api_queue_ble_advert now (Some server) (Some advert) = (Some server', tr) /\
    advertisements (ble_batch server') !! slot = Some entry /\
    pb_data_len entry = advert_data_len advert /\
    take len (pb_data entry) = take len (advert_data advert) /\
    drop len (pb_data entry) =
      drop len (pb_data (advertisements (ble_batch server) !!! slot)) /\
    length (pb_data entry) = Z.to_nat ESPHOME_MAX_ADV_DATA.
Proof.
  intros [_ Hadvs Hdata Hcount] Hlen Hshort. cbv zeta.
  rewrite esphome_api_queue_ble_advert_steps. cbv zeta.
  set (before := if ESPHOME_MAX_ADV_BATCH <=? count (ble_batch server)
                 then flush_ble_batch now server else (server, [])).
  assert (advertisements (ble_batch before.1) = advertisements (ble_batch server) /\
          count (ble_batch before.1) =
            (if ESPHOME_MAX_ADV_BATCH <=? count (ble_batch server)
             then 0 else count (ble_batch server))) as [Hsame Hslot].
  { subst before. destruct (Z.leb_spec ESPHOME_MAX_ADV_BATCH (count (ble_batch server))).
    - split; [apply flush_ble_batch_frame | apply flush_ble_batch_count].
    - done. }
  rewrite <- Hslot.
  set (stored := set_ble_batch (store_advert advert (ble_batch before.1)) before.1).
  set (i := Z.to_nat (count (ble_batch before.1))).
  assert (i < length (advertisements (ble_batch server)))%nat as Hi.
  { subst i. rewrite Hslot, Hadvs. unfold ESPHOME_MAX_ADV_BATCH in *.
    destruct (Z.leb_spec 16 (count (ble_batch server))); lia. }
  set (entry := fill_advertisement (advertisements (ble_batch before.1) !!! i) advert).
  assert (advertisements (ble_batch stored) !! i = Some entry) as Hentry.
  { subst stored entry. cbn [ble_batch set_ble_batch store_advert advertisements].
    apply list_lookup_insert_eq. by rewrite Hsame. }
  destruct (lookup_lt_is_Some_2 _ _ Hi) as [old Hold].
  assert (length (pb_data old) = Z.to_nat ESPHOME_MAX_ADV_DATA) as Hroom.
  { rewrite Forall_lookup in Hdata. by apply (Hdata i old). }
  eexists _, _, entry. split; [reflexivity|].
  split.
  - destruct (Z.leb_spec ESPHOME_MAX_ADV_BATCH (count (ble_batch stored))).
    + destruct (flush_ble_batch_frame now stored) as (-> & _). exact Hentry.
    + exact Hentry.
  - subst entry. unfold fill_advertisement.
    destruct (Z.ltb_spec ESPHOME_MAX_ADV_DATA (advert_data_len advert)); [lia|].
    cbn [pb_data_len pb_data]. rewrite Hsame.
    rewrite (list_lookup_total_correct _ _ _ Hold).
    unfold memcpy, ESPHOME_MAX_ADV_DATA in *.
    assert (length (take (Z.to_nat (advert_data_len advert)) (advert_data advert)) =
            Z.to_nat (advert_data_len advert)) as Htaken
      by (rewrite length_take; lia).
    split; [reflexivity|]. split; [|split].
    + rewrite take_app_le by lia. rewrite take_take. f_equal. lia.
    + rewrite drop_app_ge by lia. rewrite Htaken, Nat.sub_diag. reflexivity.
    + rewrite length_app, length_drop, Htaken. lia.
Qed.

Lemma queue_count_step (now : timespec) (server : esphome_api_server)
    (advert : esphome_ble_advert_t) :
  0 <= count (ble_batch server) < ESPHOME_MAX_ADV_BATCH ->
  exists server' tr,
    esphome_api_queue_ble_advert now (Some server) (Some advert) = (Some server', tr) /\
    count (ble_batch server') = (count (ble_batch server) + 1) mod ESPHOME_MAX_ADV_BATCH.
Proof.
  intros Hcount. rewrite esphome_api_queue_ble_advert_steps. cbv zeta.
  eexists _, _. split; [reflexivity|]. unfold ESPHOME_MAX_ADV_BATCH in *.
  destruct (Z.leb_spec 16 (count (ble_batch server))); [lia|]. cbn [fst].
  cbn [ble_batch set_ble_batch store_advert count].
  destruct (Z.leb_spec 16 (count (ble_batch server) + 1)).
  - rewrite flush_ble_batch_count.
    replace (count (ble_batch server) + 1) with 16 by lia. reflexivity.
  - cbn [fst ble_batch set_ble_batch store_advert count].
    rewrite Z.mod_small; lia.
Qed.

(** X14.  The batch count under a burst of advertisements: queueing [n]
    advertisements one after another, with no timer flush in between,
    leaves [(count + n) mod 16] of them in the batch -- every sixteenth
    advertisement empties it -- and the run never fails. *)
Theorem queue_burst_count (now : timespec) (adverts : list esphome_ble_advert_t)
    (server : esphome_api_server) :
  0 <= count (ble_batch server) < ESPHOME_MAX_ADV_BATCH ->
  exists server',
    run (map (OpQueue now) adverts) server = Some server' /\
    count (ble_batch server') =
      (count (ble_batch server) + Z.of_nat (length adverts)) mod ESPHOME_MAX_ADV_BATCH.
Proof.
  revert server. induction adverts as [|advert adverts IH]; intros server Hcount.
  - exists server. split; [reflexivity|]. cbn [length]. rewrite Z.add_0_r.
    symmetry. apply Z.mod_small. exact Hcount.
  - destruct (queue_count_step now server advert Hcount) as (s1 & tr & Hq & Hc1).
    destruct (IH s1) as (s2 & Hrun & Hc2).
    { rewrite Hc1. apply Z.mod_pos_bound. done. }
    exists s2. cbn [map run step]. rewrite Hq. cbn [fst]. split; [exact Hrun|].
    rewrite Hc2, Hc1. rewrite Zplus_mod_idemp_l. f_equal.
    cbn [length]. lia.
Qed.

End EnqueueMore.

Lemma short_data_is_stored_as_given_witness :
  exists server' tr entry,
    esphome_api_queue_ble_advert (proto := spec_proto) (platform := full_send_platform)
      example_time (Some example_batch_server) (Some example_advert) = (Some server', tr) /\
    advertisements (ble_batch server') !! 1%nat = Some entry /\
    pb_data_len entry = 3 /\
    take 3 (pb_data entry) = [2; 1; 6].
Proof.
  destruct (short_data_is_stored_as_given (proto := spec_proto)
              (platform := full_send_platform)
              example_time example_batch_server example_advert example_batch_server_wf
              eq_refl)
    as (server' & tr & entry & Hcall & Hslot & Hlen & Hdata & _).
  - vm_compute. split; discriminate.
  - exists server', tr, entry. repeat split; assumption.
Defined.

Lemma queue_burst_count_witness :
  exists server',
    run (proto := spec_proto) (platform := full_send_platform)
      (map (OpQueue example_time) (replicate 35 example_advert)) example_server =
      Some server' /\
    count (ble_batch server') = 3.
Proof.
  destruct (queue_burst_count (proto := spec_proto) (platform := full_send_platform)
              example_time (replicate 35 example_advert) example_server)
    as (server' & Hrun & Hcount).
  - vm_compute. split; [discriminate | reflexivity].
  - exists server'. split; [exact Hrun|]. rewrite Hcount. reflexivity.
Defined.

(** ** Starting *)

(** X15.  [esphome_api_start] returns 0 exactly when [socket], [bind] and
    [listen] all succeed, and -1 otherwise.  Only on success is the server
    running, with the socket as its listening socket, and are the threads
    started.  On failure the server is left without a listening socket and
    its [running] flag is as it was; a socket that was created has been
    closed, once.  The sessions and the batch are not touched.  But
    [esphome_api_stop] joins the listener and the flush thread all the
    same, whether or not they were started. *)
Theorem esphome_api_start_outcomes (sock bind_result listen_result : Z)
    (server : esphome_api_server) :
  let started := (esphome_api_start sock bind_result listen_result server).1.1 in
  let tr := (esphome_api_start sock bind_result listen_result server).1.2 in
  let rc := (esphome_api_start sock bind_result listen_result server).2 in
  let ok := (0 <=? sock) && (0 <=? bind_result) && (0 <=? listen_result) in
  rc = (if ok then 0 else -1) /\
  running started = (if ok then true else running server) /\
  (if ok then listen_fd started = sock else listen_fd started < 0) /\
  (In StThreads tr <-> ok = true) /\
  start_closes tr = (if ok || (sock <? 0) then [] else [sock]) /\
  clients started = clients server /\
  ble_batch started = ble_batch server /\
  In EvJoinListen (esphome_api_stop (Some started)).2 /\
  In EvJoinFlush (esphome_api_stop (Some started)).2.
Proof.
  cbv zeta.
  assert (forall s : esphome_api_server,
            In EvJoinListen (esphome_api_stop (Some s)).2 /\
            In EvJoinFlush (esphome_api_stop (Some s)).2) as Hjoins.
  { intros s. unfold esphome_api_stop.
    destruct (if 0 <=? listen_fd _ then _ else _) as [s2 tr1].
    destruct (close_all_clients s2) as [s3 tr4]. cbn [snd].
    rewrite !in_app_iff. cbn [In]. tauto. }
  unfold esphome_api_start. cbn [listen_fd set_listen_fd].
  destruct (Z.ltb_spec sock 0), (Z.leb_spec 0 sock); try lia;
    [|destruct (Z.ltb_spec bind_result 0), (Z.leb_spec 0 bind_result); try lia;
      [|destruct (Z.ltb_spec listen_result 0), (Z.leb_spec 0 listen_result); try lia]];
    cbn [fst snd andb orb]; (repeat split; try done;
      try (intros Hin; cbn in Hin; intuition discriminate);
      try (intros _; cbn; tauto); try (cbn; lia); try apply Hjoins).
Qed.

(** ** Addresses and names *)

(** X16.  Distinct Bluetooth addresses are stored as distinct numbers:
    [mac_to_uint64] is injective on 6-byte addresses. *)
Theorem mac_to_uint64_injective (mac1 mac2 : list Z) :
  length mac1 = 6%nat -> length mac2 = 6%nat ->
  Forall is_byte mac1 -> Forall is_byte mac2 ->
  mac_to_uint64 mac1 = mac_to_uint64 mac2 ->
  mac1 = mac2.
Proof.
  intros Hlen1 Hlen2 Hbytes1 Hbytes2.
  destruct mac1 as [|a0 [|a1 [|a2 [|a3 [|a4 [|a5 [|? ?]]]]]]]; try discriminate.
  destruct mac2 as [|b0 [|b1 [|b2 [|b3 [|b4 [|b5 [|? ?]]]]]]]; try discriminate.
  repeat match goal with
         | H : Forall _ (_ :: _) |- _ =>
           apply Forall_cons in H; let Hb := fresh "Hbyte" in destruct H as [Hb H]
         end.
  rewrite !mac_to_uint64_sum by assumption.
  pose proof (mac_bytes_of_sum a0 a1 a2 a3 a4 a5) as Ha.
  pose proof (mac_bytes_of_sum b0 b1 b2 b3 b4 b5) as Hb.
  cbv zeta in Ha, Hb.
  destruct Ha as (_ & A0 & A1 & A2 & A3 & A4 & A5); try assumption.
  destruct Hb as (_ & B0 & B1 & B2 & B3 & B4 & B5); try assumption.
  intros Heq. rewrite Heq in A0, A1, A2, A3, A4, A5. congruence.
Qed.

(** The address AA:BB:CC:DD:EE:FF, written in decimal. *)
Lemma mac_to_uint64_injective_witness :
  [170; 187; 204; 221; 238; 255] = mac_example.
Proof.
  apply (mac_to_uint64_injective [170; 187; 204; 221; 238; 255] mac_example);
    try reflexivity; unfold mac_example, is_byte; repeat constructor; lia.
Defined.

(** ** Streams of frames *)

Lemma stream_split (frames : list wire_frame) :
  forall prefix rest : list Z,
    prefix ++ rest = stream frames ->
    exists (j : nat) (partial : list Z),
      prefix = stream (take j frames) ++ partial /\
      partial ++ rest = stream (drop j frames) /\
      (partial = [] \/
       exists f more, drop j frames !! 0%nat = Some f /\ more <> [] /\
                      partial ++ more = frame_bytes f).
Proof.
  induction frames as [|f frames IH]; intros prefix rest Heq.
  - exists 0%nat, []. apply app_eq_nil in Heq as [-> ->]. repeat split. by left.
  - change (stream (f :: frames)) with (frame_bytes f ++ stream frames) in Heq.
    apply app_eq_inv in Heq as [(k & Hprefix & Hstream)|(k & Hf & Hrest)].
    + destruct (IH k rest (eq_sym Hstream)) as (j & partial & Hp & Hr & Hcase).
      exists (S j), partial. cbn [take drop].
      change (stream (f :: take j frames))
        with (frame_bytes f ++ stream (take j frames)).
      rewrite <- app_assoc, <- Hp. done.
    + destruct k as [|x k].
      * rewrite app_nil_r in Hf. cbn [app] in Hrest. subst.
        destruct (IH [] (stream frames) eq_refl) as (j & partial & Hp & Hr & Hcase).
        exists (S j), partial. cbn [take drop].
        change (stream (f :: take j frames))
          with (frame_bytes f ++ stream (take j frames)).
        rewrite <- app_assoc, <- Hp, app_nil_r. done.
      * exists 0%nat, prefix. cbn [take drop]. split; [reflexivity|].
        change (stream (f :: frames)) with (frame_bytes f ++ stream frames).
        split; [by rewrite Hf, Hrest, <- app_assoc|].
        right. exists f, (x :: k). split; [reflexivity|]. split; [done | by rewrite Hf].
Qed.

Section Streams.
Context {proto : EsphomeProto} {platform : Platform}.

(** One turn of the loop of [handle_client_data] on a buffer that begins
    with a whole frame: the frame is dispatched and the rest is moved to
    the start of the buffer. *)
Lemma handle_client_data_frame (fuel : nat) (server : esphome_api_server)
    (client : client_connection_t) (header payload rest : list Z) (msg_type : Z) :
  decodes_frame header msg_type payload ->
  Z.of_nat (length (header ++ payload ++ rest)) <= RECV_BUFFER_SIZE ->
  holds client (header ++ payload ++ rest) ->
  exists (moved : client_connection_t) (tr : trace),
    holds moved rest /\
    fd moved = fd client /\
    dispatched tr = [(u16 msg_type, payload)] /\
    handle_client_data (S fuel) server client =
      match handle_client_data fuel server moved with
      | Some (client', tr') => Some (client', tr ++ tr')
      | None => None
      end.
Proof.
  intros (Hne & Hcomplete & Hprefix) Hsize Hholds.
  rewrite handle_client_data_unfold, (holds_valid_bytes _ _ Hholds).
  destruct Hholds as (Hpos & Htake & Hlen).
  rewrite !length_app in *.
  assert (0 < length header)%nat by (destruct header; [done | cbn; lia]).
  destruct (Z.ltb_spec 0 (recv_pos client)) as [_|]; [|lia]. cbn [negb].
  rewrite Hcomplete.
  destruct (Z.eqb_spec (Z.of_nat (length header)) 0) as [E|_]; [lia|].
  rewrite (u32_small (Z.of_nat (length payload))) by lia.
  rewrite u32_small by lia.
  destruct (Z.ltb_spec (recv_pos client)
                       (Z.of_nat (length header) + Z.of_nat (length payload)))
    as [|_]; [lia|].
  rewrite !Nat2Z.id.
  assert (take (length header + length payload) (recv_buffer client) = header ++ payload)
    as Hframe.
  { transitivity (take (length header + length payload)
                    (take (length header + (length payload + length rest))
                          (recv_buffer client))).
    - rewrite take_take. f_equal. lia.
    - rewrite Htake, app_assoc, <- length_app. apply take_app_length. }
  assert (take (length payload) (drop (length header) (recv_buffer client)) = payload)
    as ->.
  { rewrite take_drop_commute, Hframe. by rewrite drop_app_length. }
  pose proof (dispatch_message_spec server client (u16 msg_type) payload) as Hd.
  cbv zeta in Hd.
  destruct (dispatch_message server client (u16 msg_type) payload) as [c1 tr1].
  cbn [fst snd] in Hd. destruct Hd as (Hdisp & _ & Hbuf & Hpos1 & Hfd & _).
  eexists _, tr1. split; [|split; [|split; [exact Hdisp | reflexivity]]].
  - unfold holds, memcpy. cbn [recv_pos recv_buffer set_recv].
    rewrite Hbuf, Hpos1, Hpos.
    replace (Z.to_nat (Z.of_nat (length header + (length payload + length rest)) -
                       (Z.of_nat (length header) + Z.of_nat (length payload))))
      with (length rest) by lia.
    replace (Z.to_nat (Z.of_nat (length header) + Z.of_nat (length payload)))
      with (length header + length payload)%nat by lia.
    unfold RECV_BUFFER_SIZE in *.
    split; [lia|]. split.
    + rewrite take_app_le by (rewrite length_take, length_drop; lia).
      rewrite take_take, Nat.min_id, take_drop_commute.
      replace (length header + length payload + length rest)%nat
        with (length header + (length payload + length rest))%nat by lia.
      rewrite Htake, app_assoc, <- length_app. apply drop_app_length.
    + rewrite length_app, length_take, !length_drop. lia.
  - cbn [fd set_recv]. exact Hfd.
Qed.

(** [handle_client_data] drains the buffer: every whole frame it holds is
    dispatched, in order, and the incomplete frame that follows them is
    left at the start of the buffer. *)
Lemma handle_client_data_drains (server : esphome_api_server) (partial : list Z)
    (frames : list wire_frame) :
  forall (fuel : nat) (client : client_connection_t),
    Forall (fun f => decodes_frame f.1.1 f.1.2 f.2) frames ->
    (partial = [] \/
     exists (f : wire_frame) (more : list Z),
       decodes_frame f.1.1 f.1.2 f.2 /\
       Z.of_nat (length (frame_bytes f)) <= RECV_BUFFER_SIZE /\
       more <> [] /\ partial ++ more = frame_bytes f) ->
    Z.of_nat (length (stream frames ++ partial)) <= RECV_BUFFER_SIZE ->
    holds client (stream frames ++ partial) ->
    (length frames < fuel)%nat ->
    exists (client' : client_connection_t) (tr : trace),
      handle_client_data fuel server client = Some (client', tr) /\
      dispatched tr = map frame_message frames /\
      holds client' partial /\
      fd client' = fd client.
Proof.
  induction frames as [|f frames IH]; intros fuel client Hframes Hpartial Hsize Hholds Hfuel.
  - cbn [stream map concat app] in *. exists client, [].
    split; [|done].
    destruct Hpartial as [-> | (f & more & Hf & Hlen & Hmore & Heq)].
    + apply handle_client_data_empty. destruct Hholds as [-> _]. done.
    + destruct fuel as [|fuel]; [lia|].
      by apply (handle_client_data_waits fuel server client f.1.1 f.2 partial more f.1.2).
  - destruct fuel as [|fuel]; [cbn in Hfuel; lia|].
    apply Forall_cons in Hframes as [Hf Hframes].
    change (stream (f :: frames)) with (frame_bytes f ++ stream frames) in *.
    unfold frame_bytes at 1 in Hholds. unfold frame_bytes at 1 in Hsize.
    rewrite <- !app_assoc in Hholds, Hsize.
    destruct (handle_client_data_frame fuel server client f.1.1 f.2
                (stream frames ++ partial) f.1.2 Hf Hsize Hholds)
      as (moved & tr1 & Hmoved & Hfd & Hdisp & ->).
    destruct (IH fuel moved Hframes Hpartial) as (client' & tr' & -> & Hdisp' & Hleft & Hfd').
    + rewrite !length_app in *. lia.
    + exact Hmoved.
    + cbn [length] in Hfuel. lia.
    + exists client', (tr1 ++ tr'). split; [reflexivity|].
      unfold dispatched in *. rewrite omap_app, Hdisp, Hdisp'.
      split; [reflexivity|]. split; [exact Hleft | congruence].
Qed.

(** The receive loop on a stream of frames cut into chunks at arbitrary
    places. *)
Lemma client_thread_loop_stream (fuel : nat) (server : esphome_api_server) (limit : Z)
    (chunks : list (list Z)) :
  forall (frames : list wire_frame) (client : client_connection_t) (got : list Z),
    Forall (frame_ok limit) frames ->
    Forall (fun chunk => chunk <> [] /\
                         Z.of_nat (length chunk) + limit <= RECV_BUFFER_SIZE + 1) chunks ->
    got ++ concat chunks = stream frames ->
    (got = [] \/
     exists f more, frames !! 0%nat = Some f /\ more <> [] /\ got ++ more = frame_bytes f) ->
    running server = true ->
    0 <= fd client ->
    holds client got ->
    (length frames < fuel)%nat ->
    exists (client' : client_connection_t) (tr : trace),
      client_thread_loop fuel (map RecvData chunks) server client =
        Some (client', tr, false) /\
      dispatched tr = map frame_message frames /\
      holds client' [] /\
      fd client' = fd client.
Proof.
  induction chunks as [|chunk chunks IH];
    intros frames client got Hframes Hchunks Heq Hgot Hrun Hfd Hholds Hfuel.
  - cbn [map concat client_thread_loop] in *. rewrite Hrun.
    destruct (Z.leb_spec 0 (fd client)); [|lia]. cbn [andb negb].
    rewrite app_nil_r in Heq.
    assert (got = [] /\ frames = []) as [-> ->].
    { destruct Hgot as [-> | (f & more & Hf & Hmore & Hbytes)].
      - split; [reflexivity|]. destruct frames as [|f frames]; [reflexivity|].
        apply Forall_cons in Hframes as [[(Hne & _) _] _].
        change (stream (f :: frames)) with ((f.1.1 ++ f.2) ++ stream frames) in Heq.
        destruct (f.1.1); [done | discriminate Heq].
      - destruct frames as [|f' frames]; [done|]. injection Hf as ->.
        change (stream (f :: frames)) with (frame_bytes f ++ stream frames) in Heq.
        rewrite <- Hbytes in Heq. exfalso.
        apply (f_equal length) in Heq. rewrite !length_app in Heq.
        destruct more; [done | cbn in Heq; lia]. }
    by exists client, [].
  - apply Forall_cons in Hchunks as [[Hchunk Hroom] Hchunks].
    cbn [map concat] in *.
    assert (0 < length chunk)%nat by (destruct chunk; [done | cbn; lia]).
    (* a chunk has arrived, so a frame is under way and the limit is positive *)
    assert (Z.of_nat (length got) + 1 <= limit) as Hlimit.
    { destruct Hgot as [-> | (f & more & Hf & Hmore & Hbytes)].
      - destruct frames as [|f frames].
        + cbn in Heq. destruct chunk; [done | discriminate Heq].
        + apply Forall_cons in Hframes as [[(Hne & _) Hlen] _].
          unfold frame_bytes in Hlen. rewrite length_app in Hlen.
          destruct (f.1.1); [done | cbn in *; lia].
      - destruct frames as [|f' frames]; [done|]. injection Hf as ->.
        apply Forall_cons in Hframes as [[_ Hlen] _].
        rewrite <- Hbytes, length_app in Hlen.
        destruct more; [done | cbn in Hlen; lia]. }
    pose proof Hholds as (Hpos & _ & _).
    cbn [client_thread_loop]. rewrite Hrun.
    destruct (Z.leb_spec 0 (fd client)); [|lia]. cbn [andb negb].
    rewrite (take_ge chunk) by lia.
    destruct (Z.leb_spec (Z.of_nat (length chunk)) 0); [lia|].
    assert (holds (recv_store client chunk) (got ++ chunk)) as Hstored
      by (apply holds_recv_store; [assumption | lia]).
    rewrite app_assoc in Heq.
    destruct (stream_split frames (got ++ chunk) (concat chunks) Heq)
      as (j & partial & Hsplit & Hrest & Hpartial).
    rewrite Hsplit in Hstored.
    assert (Forall (frame_ok limit) (take j frames) /\
            Forall (frame_ok limit) (drop j frames)) as [Htake Hdrop].
    { rewrite <- (take_drop j frames) in Hframes at 1.
      by apply Forall_app in Hframes. }
    destruct (handle_client_data_drains server partial (take j frames) fuel
                (recv_store client chunk))
      as (c1 & tr1 & -> & Hdisp1 & Hleft & Hfd1).
    + eapply Forall_impl; [exact Htake|]. by intros f [? _].
    + destruct Hpartial as [-> | (f & more & Hf & Hmore & Hbytes)]; [by left|].
      right. exists f, more.
      pose proof (proj1 (Forall_lookup _ _) Hdrop 0%nat f Hf) as [Hdec Hlen].
      split; [exact Hdec|]. split; [lia|]. by split.
    + rewrite <- Hsplit, length_app. lia.
    + exact Hstored.
    + rewrite length_take. lia.
    + destruct (IH (drop j frames) c1 partial Hdrop Hchunks Hrest Hpartial Hrun)
        as (c2 & tr2 & -> & Hdisp2 & Hempty & Hfd2); try assumption.
      * rewrite Hfd1. exact Hfd.
      * rewrite length_drop. lia.
      * exists c2, (tr1 ++ tr2). split; [reflexivity|].
        unfold dispatched in *. rewrite omap_app, Hdisp1, Hdisp2, <- map_app, take_drop.
        split; [reflexivity|]. split; [exact Hempty|]. rewrite Hfd2, Hfd1. reflexivity.
Qed.

(** X17.  Stream reassembly.  Take any sequence of frames whose headers
    the decoder recognises, each of at most [limit] bytes, and cut their
    byte stream into non-empty chunks at arbitrary places -- inside a
    header, across frames, several frames to a chunk -- each chunk small
    enough to fit the buffer beside an unfinished frame.  The receive loop
    of a connected client with an empty buffer, given the chunks as the
    results of its [recv] calls, dispatches exactly the messages of the
    frames, in order, and ends waiting with an empty buffer. *)
Theorem stream_reassembly (fuel : nat) (server : esphome_api_server)
    (client : client_connection_t) (limit : Z) (frames : list wire_frame)
    (chunks : list (list Z)) :
  Forall (frame_ok limit) frames ->
  Forall (fun chunk => chunk <> [] /\
                       Z.of_nat (length chunk) + limit <= RECV_BUFFER_SIZE + 1) chunks ->
  concat chunks = stream frames ->
  running server = true ->
  0 <= fd client ->
  holds client [] ->
  (length frames < fuel)%nat ->
  exists (client' : client_connection_t) (tr : trace),
    client_thread_loop fuel (map RecvData chunks) server client =
      Some (client', tr, false) /\
    dispatched tr = map frame_message frames /\
    holds client' [] /\
    fd client' = fd client.
Proof.
  intros Hframes Hchunks Heq Hrun Hfd Hholds Hfuel.
  apply (client_thread_loop_stream fuel server limit chunks frames client []);
    try assumption. by left.
Qed.

End Streams.

Lemma example_frames_ok : Forall (frame_ok (proto := spec_proto) 5) example_frames.
Proof.
  assert (forall n : nat, (n < 3)%nat -> Z.of_nat n < 2 ^ 32) as Hsmall.
  { intros n Hn. change (2 ^ 32) with 4294967296. lia. }
  unfold example_frames.
  constructor; [|constructor; [|constructor; [|constructor]]];
    (split; [|cbn; lia]).
  - exact (spec_decodes_frame 7 [] (Hsmall 0%nat ltac:(lia))).
  - exact (spec_decodes_frame 3 [] (Hsmall 0%nat ltac:(lia))).
  - exact (spec_decodes_frame 66 [8; 1] (Hsmall 2%nat ltac:(lia))).
Qed.

Lemma stream_reassembly_witness :
  exists client' tr,
    client_thread_loop (proto := spec_proto) (platform := full_send_platform) 4
      (map RecvData example_stream_chunks) example_server (example_client 5) =
      Some (client', tr, false) /\
    dispatched tr = [(7, []); (3, []); (66, [8; 1])] /\
    holds client' [] /\
    fd client' = 5.
Proof.
  apply (stream_reassembly (proto := spec_proto) (platform := full_send_platform) 4
           example_server (example_client 5) 5 example_frames example_stream_chunks).
  - exact example_frames_ok.
  - unfold RECV_BUFFER_SIZE. repeat constructor; (discriminate || (cbn; lia)).
  - reflexivity.
  - reflexivity.
  - vm_compute. discriminate.
  - split; [reflexivity|]. split; reflexivity.
  - cbn. lia.
Defined.

(** ** A frame length that wraps around *)

Section Wrap.
Context {proto : EsphomeProto} {platform : Platform}.

(** X18.  [handle_client_data] computes the length of a frame in 32 bits
    and does not check it.  If the decoder reports a complete header whose
    header and payload lengths add up to a multiple of 2^32, the length
    comes out as 0: the message is dispatched, nothing is removed from the
    buffer, and the loop meets the same header again.  It never returns.
    (Left out are a message of type 66, whose handler would read a payload
    that is not within the buffer, and a header so long that the 32 bytes
    the HelloRequest handler logs would not be.) *)
Theorem wrapped_length_never_returns (server : esphome_api_server)
    (client : client_connection_t) (header_len msg_len msg_type : Z) :
  0 < recv_pos client <= Z.of_nat (length (recv_buffer client)) ->
  esphome_decode_frame_header (valid_bytes client) = (header_len, msg_len, msg_type) ->
  0 < header_len <= RECV_BUFFER_SIZE - 32 ->
  u32 (header_len + u32 msg_len) = 0 ->
  u16 msg_type <> ESPHOME_MSG_SUBSCRIBE_BLUETOOTH_LE_ADVERTISEMENTS_REQUEST ->
  forall fuel : nat, handle_client_data fuel server client = None.
Proof.
  intros Hpos Hheader Hne Hwrap _ fuel. revert client Hpos Hheader.
  induction fuel as [|fuel IH]; intros client Hpos Hheader.
  - cbn. destruct (Z.ltb_spec 0 (recv_pos client)); [reflexivity | lia].
  - rewrite handle_client_data_unfold, Hheader. cbv zeta. rewrite Hwrap.
    destruct (Z.ltb_spec 0 (recv_pos client)); [|lia]. cbn [negb].
    destruct (Z.eqb_spec header_len 0); [lia|].
    destruct (Z.ltb_spec (recv_pos client) 0); [lia|].
    pose proof (dispatch_message_spec server client (u16 msg_type)
                  (take (Z.to_nat (u32 msg_len))
                        (drop (Z.to_nat header_len) (recv_buffer client)))) as Hspec.
    cbv zeta in Hspec.
    destruct (dispatch_message server client (u16 msg_type) _) as [c1 tr1].
    cbn [fst snd] in Hspec. destruct Hspec as (_ & _ & Hbuf & Hp & _).
    rewrite IH; [reflexivity| |].
    + cbn [recv_pos recv_buffer set_recv]. unfold memcpy.
      rewrite Hbuf, Hp, Z.sub_0_r, length_app, length_take, !length_drop. cbn. lia.
    + unfold valid_bytes in *. cbn [recv_pos recv_buffer set_recv]. unfold memcpy.
      rewrite Hbuf, Hp, Z.sub_0_r. cbn [Z.to_nat drop].
      rewrite take_drop. exact Hheader.
Qed.

End Wrap.

(** The header of a frame of type 1 that declares 2^32 - 6 bytes. *)
Lemma wrapped_length_never_returns_witness :
  handle_client_data (proto := spec_proto) (platform := full_send_platform) 1000
    example_server (recv_store (example_client 5) [0; 250; 255; 255; 255; 15; 1]) = None.
Proof.
  apply (wrapped_length_never_returns (proto := spec_proto)
           (platform := full_send_platform) example_server
           (recv_store (example_client 5) [0; 250; 255; 255; 255; 15; 1])
           7 4294967289 1).
  - vm_compute. split; [reflexivity | discriminate].
  - vm_compute. reflexivity.
  - unfold RECV_BUFFER_SIZE. lia.
  - vm_compute. reflexivity.
  - vm_compute. discriminate.
Defined.

(** ** Message names *)

(** X19.  The names [message_type_name] gives for the log: each of the 17
    message types of esphome_proto.h has a name of its own, every type the
    dispatcher has a case for is among them, and every other number is
    UNKNOWN. *)
Theorem message_type_names (t1 t2 : Z) :
  (In t1 named_types <-> message_type_name t1 <> "UNKNOWN") /\
  (select_handler t1 <> HUnhandled -> In t1 named_types) /\
  (In t1 named_types -> message_type_name t1 = message_type_name t2 -> t1 = t2).
Proof.
  unfold message_type_name, select_handler, named_types.
  unfold ESPHOME_MSG_HELLO_REQUEST, ESPHOME_MSG_HELLO_RESPONSE,
    ESPHOME_MSG_CONNECT_REQUEST, ESPHOME_MSG_CONNECT_RESPONSE,
    ESPHOME_MSG_DISCONNECT_REQUEST, ESPHOME_MSG_DISCONNECT_RESPONSE,
    ESPHOME_MSG_PING_REQUEST, ESPHOME_MSG_PING_RESPONSE,
    ESPHOME_MSG_DEVICE_INFO_REQUEST, ESPHOME_MSG_DEVICE_INFO_RESPONSE,
    ESPHOME_MSG_LIST_ENTITIES_REQUEST, ESPHOME_MSG_LIST_ENTITIES_DONE_RESPONSE,
    ESPHOME_MSG_SUBSCRIBE_STATES_REQUEST,
    ESPHOME_MSG_SUBSCRIBE_HOMEASSISTANT_SERVICES_REQUEST,
    ESPHOME_MSG_SUBSCRIBE_HOMEASSISTANT_STATES_REQUEST,
    ESPHOME_MSG_SUBSCRIBE_BLUETOOTH_LE_ADVERTISEMENTS_REQUEST,
    ESPHOME_MSG_BLUETOOTH_LE_RAW_ADVERTISEMENTS_RESPONSE.
  cbn [In].
  split; [|split].
  - repeat match goal with
           | |- context [t1 =? ?k] => destruct (Z.eqb_spec t1 k); [subst t1|]
           end;
      split; intros H;
      first [discriminate | tauto | exfalso; lia | exfalso; by apply H].
  - repeat match goal with
           | |- context [t1 =? ?k] => destruct (Z.eqb_spec t1 k); [subst t1|]
           end;
      intros H; first [tauto | exfalso; by apply H].
  - intros Hin.
    repeat match goal with
           | |- context [t1 =? ?k] => destruct (Z.eqb_spec t1 k); [subst t1|]
           end;
      try (exfalso; lia);
      repeat match goal with
             | |- context [t2 =? ?k] => destruct (Z.eqb_spec t2 k); [subst t2|]
             end;
      intros Hname; first [reflexivity | discriminate Hname].
Qed.
